(** * AWS Signature Version 4 request signers of the IgniteAIE edge functions

    A shallow embedding of the [signRequest] functions found under
    [supabase/functions/*/aws-signer.ts] and embedded in several
    [index.ts] files, together with the platform primitives they call
    (WebCrypto digest / HMAC, [Date.prototype.toISOString],
    [encodeURIComponent], [URLSearchParams]).

    Conventions.
    - A JavaScript string is a Rocq [string] holding its UTF-8 bytes, so
      [TextEncoder.encode] is the list of the byte values.  Strings with lone
      surrogates (on which [encodeURIComponent] throws) are outside the model.
    - A [Uint8Array] / [ArrayBuffer] is a [list Z] of values in [0, 256).
    - The object literal returned by a signer is an association list in
      insertion order.
    - [async] functions run in the monad [Js]: a state over the [World]
      (wall clock, count of WebCrypto calls) with exceptions. *)

From Stdlib Require Import ZArith List String Ascii Bool Lia Permutation Sorted.
Import ListNotations.

Local Open Scope string_scope.
Local Open Scope Z_scope.

(* ================================================================== *)
(** ** Bytes and strings *)

Definition bytes := list Z.

Definition is_byte (b : Z) : Prop := 0 <= b < 256.

(** [new TextEncoder().encode(s)] *)
Definition TextEncoder_encode (s : string) : bytes :=
  map (fun c => Z.of_N (N_of_ascii c)) (list_ascii_of_string s).

Definition char_of_code (n : Z) : ascii := ascii_of_N (Z.to_N n).

Definition code_of_char (c : ascii) : Z := Z.of_N (N_of_ascii c).

(** [Array.prototype.join] on strings. *)
Fixpoint join (sep : string) (l : list string) : string :=
  match l with
  | [] => ""
  | [x] => x
  | x :: rest => x ++ sep ++ join sep rest
  end.

(** [String.prototype.split] with a one-character separator. *)
Fixpoint split_on (sep : ascii) (s : string) : list string :=
  match s with
  | EmptyString => [""]
  | String c rest =>
      if Ascii.eqb c sep then "" :: split_on sep rest
      else match split_on sep rest with
           | [] => [String c ""]
           | x :: xs => String c x :: xs
           end
  end.

(** [String.prototype.slice(0, n)] / [substring(0, n)] for [0 <= n]. *)
Definition slice0 (n : nat) (s : string) : string := substring 0 n s.

(** [String.prototype.padStart(n, "0")] *)
Definition padStart0 (n : nat) (s : string) : string :=
  string_of_list_ascii (repeat "0"%char (n - String.length s)) ++ s.

Definition hex_digit (d : Z) : ascii :=
  if d <? 10 then char_of_code (48 + d) else char_of_code (87 + d).

Definition HEX_digit (d : Z) : ascii :=
  if d <? 10 then char_of_code (48 + d) else char_of_code (55 + d).

(** Digits of [n] in base [base], most significant first. *)
Fixpoint radix (base : Z) (digit : Z -> ascii) (fuel : nat) (n : Z) (acc : string)
  : string :=
  match fuel with
  | O => String (digit (n mod base)) acc
  | S fuel' =>
      if n <? base then String (digit n) acc
      else radix base digit fuel' (n / base) (String (digit (n mod base)) acc)
  end.

(** [Number.prototype.toString(16)] on a non-negative integer. *)
Definition toString16 (n : Z) : string :=
  radix 16 hex_digit (Z.to_nat (Z.log2 n)) n "".

(** [n.toString(16).toUpperCase()] *)
Definition toString16_upper (n : Z) : string :=
  radix 16 HEX_digit (Z.to_nat (Z.log2 n)) n "".

(** Decimal rendering of a non-negative integer. *)
Definition toString10 (n : Z) : string :=
  radix 10 hex_digit (Z.to_nat (Z.log2 n)) n "".

(** [Array.from(new Uint8Array(buf)).map(b => b.toString(16).padStart(2,'0')).join('')] *)
Definition toHex (buf : bytes) : string :=
  join "" (map (fun b => padStart0 2 (toString16 b)) buf).

Definition is_lower_hex (c : ascii) : bool :=
  let n := code_of_char c in
  ((48 <=? n) && (n <=? 57)) || ((97 <=? n) && (n <=? 102)).

Fixpoint string_forallb (p : ascii -> bool) (s : string) : bool :=
  match s with
  | EmptyString => true
  | String c rest => p c && string_forallb p rest
  end.

(** ASCII lower-casing, as used when header names are compared. *)
Definition lower_char (c : ascii) : ascii :=
  let n := code_of_char c in
  if (65 <=? n) && (n <=? 90) then char_of_code (n + 32) else c.

Fixpoint toLowerCase (s : string) : string :=
  match s with
  | EmptyString => EmptyString
  | String c rest => String (lower_char c) (toLowerCase rest)
  end.

(* ================================================================== *)
(** ** SHA-256 (FIPS 180-4), the digest behind [crypto.subtle] *)

Module Sha256.
Local Open Scope list_scope.

Definition w32 (x : Z) : Z := x mod 4294967296.
Definition add32 (x y : Z) : Z := w32 (x + y).
Definition rotr (n x : Z) : Z :=
  Z.lor (Z.shiftr x n) (w32 (Z.shiftl x (32 - n))).
Definition Ch (x y z : Z) : Z :=
  Z.lxor (Z.land x y) (Z.land (Z.lxor x 4294967295) z).
Definition Maj (x y z : Z) : Z :=
  Z.lxor (Z.lxor (Z.land x y) (Z.land x z)) (Z.land y z).
Definition bsig0 (x : Z) : Z := Z.lxor (Z.lxor (rotr 2 x) (rotr 13 x)) (rotr 22 x).
Definition bsig1 (x : Z) : Z := Z.lxor (Z.lxor (rotr 6 x) (rotr 11 x)) (rotr 25 x).
Definition ssig0 (x : Z) : Z := Z.lxor (Z.lxor (rotr 7 x) (rotr 18 x)) (Z.shiftr x 3).
Definition ssig1 (x : Z) : Z := Z.lxor (Z.lxor (rotr 17 x) (rotr 19 x)) (Z.shiftr x 10).

Definition primes64 : list Z :=
  [2; 3; 5; 7; 11; 13; 17; 19; 23; 29; 31; 37; 41; 43; 47; 53;
   59; 61; 67; 71; 73; 79; 83; 89; 97; 101; 103; 107; 109; 113; 127; 131;
   137; 139; 149; 151; 157; 163; 167; 173; 179; 181; 191; 193; 197; 199;
   211; 223; 227; 229; 233; 239; 241; 251; 257; 263; 269; 271; 277; 281;
   283; 293; 307; 311].

(** Integer cube root, one bit at a time from bit [k-1] down. *)
Fixpoint icbrt_bits (k : nat) (n acc : Z) : Z :=
  match k with
  | O => acc
  | S k' =>
      let c := acc + 2 ^ Z.of_nat k' in
      if c * c * c <=? n then icbrt_bits k' n c else icbrt_bits k' n acc
  end.

(** First 32 bits of the fractional part of the cube / square root. *)
Definition frac_cbrt32 (p : Z) : Z := w32 (icbrt_bits 40 (p * 2 ^ 96) 0).
Definition frac_sqrt32 (p : Z) : Z := w32 (Z.sqrt (p * 2 ^ 64)).

(** Round constants and initial hash value (FIPS 180-4, 4.2.2 and 5.3.3). *)
Definition K : list Z := Eval vm_compute in map frac_cbrt32 primes64.
Definition H0 : list Z := Eval vm_compute in map frac_sqrt32 (firstn 8 primes64).

Record state := mkState {
  sa : Z; sb : Z; sc : Z; sd : Z; se : Z; sf : Z; sg : Z; sh : Z }.

Definition init : state :=
  mkState (nth 0 H0 0) (nth 1 H0 0) (nth 2 H0 0) (nth 3 H0 0)
          (nth 4 H0 0) (nth 5 H0 0) (nth 6 H0 0) (nth 7 H0 0).

(** Padding (5.1.1): 0x80, zeros up to 56 mod 64, then the bit length on
    eight bytes, big-endian. *)
Definition be_bytes (n : nat) (x : Z) : bytes :=
  map (fun i => (x / 2 ^ (8 * Z.of_nat i)) mod 256) (rev (seq 0 n)).

Definition pad (msg : bytes) : bytes :=
  let len := Z.of_nat (List.length msg) in
  let k := Z.to_nat ((55 - len) mod 64) in
  msg ++ [128] ++ repeat 0 k ++ be_bytes 8 (8 * len).

Fixpoint be_word (bs : bytes) (acc : Z) : Z :=
  match bs with
  | [] => acc
  | b :: rest => be_word rest (acc * 256 + b)
  end.

Fixpoint words (n : nat) (bs : bytes) : list Z :=
  match n with
  | O => []
  | S n' => be_word (firstn 4 bs) 0 :: words n' (skipn 4 bs)
  end.

(** Message schedule (6.2.2, step 1). *)
Fixpoint extend (n : nat) (W : list Z) : list Z :=
  match n with
  | O => W
  | S n' =>
      let t   := List.length W in
      let wt := add32 (add32 (add32 (ssig1 (nth (t - 2) W 0)) (nth (t - 7) W 0))
                             (ssig0 (nth (t - 15) W 0)))
                      (nth (t - 16) W 0) in
      extend n' (W ++ [wt])
  end.

Definition round (s : state) (kw : Z * Z) : state :=
  let (k, w) := kw in
  let t1 := add32 (add32 (add32 (add32 (sh s) (bsig1 (se s))) (Ch (se s) (sf s) (sg s))) k) w in
  let t2 := add32 (bsig0 (sa s)) (Maj (sa s) (sb s) (sc s)) in
  mkState (add32 t1 t2) (sa s) (sb s) (sc s) (add32 (sd s) t1) (se s) (sf s) (sg s).

Definition compress (h : state) (block : bytes) : state :=
  let W := extend 48 (words 16 block) in
  let s := fold_left round (combine K W) h in
  mkState (add32 (sa h) (sa s)) (add32 (sb h) (sb s)) (add32 (sc h) (sc s))
          (add32 (sd h) (sd s)) (add32 (se h) (se s)) (add32 (sf h) (sf s))
          (add32 (sg h) (sg s)) (add32 (sh h) (sh s)).

Fixpoint blocks (n : nat) (h : state) (bs : bytes) : state :=
  match n with
  | O => h
  | S n' => blocks n' (compress h (firstn 64 bs)) (skipn 64 bs)
  end.

Definition output (s : state) : bytes :=
  be_bytes 4 (sa s) ++ be_bytes 4 (sb s) ++ be_bytes 4 (sc s) ++ be_bytes 4 (sd s) ++
  be_bytes 4 (se s) ++ be_bytes 4 (sf s) ++ be_bytes 4 (sg s) ++ be_bytes 4 (sh s).

Definition digest (msg : bytes) : bytes :=
  let p := pad msg in
  output (blocks (List.length p / 64) init p).

End Sha256.

(** HMAC (RFC 2104) over SHA-256, the algorithm behind
    [crypto.subtle.importKey('raw', key, {name:'HMAC', hash:'SHA-256'}, ...)]
    followed by [crypto.subtle.sign('HMAC', key, data)]. *)
Module Hmac.
Local Open Scope list_scope.

Definition block_key (key : bytes) : bytes :=
  let k := if (64 <? Z.of_nat (List.length key)) then Sha256.digest key else key in
  k ++ repeat 0 (64 - List.length k).

Definition xor_pad (p : Z) (k : bytes) : bytes := map (fun b => Z.lxor b p) k.

Definition sign (key data : bytes) : bytes :=
  let k := block_key key in
  Sha256.digest (xor_pad 92 k ++ Sha256.digest (xor_pad 54 k ++ data)).

End Hmac.

(* ================================================================== *)
(** ** Platform objects: [Date], [URL], URI encoders *)

(** A valid [Date], by its UTC calendar fields. *)
Record Date := mkDate {
  year : Z; month : Z; day : Z;
  hours : Z; minutes : Z; seconds : Z; milliseconds : Z }.

Definition Date_wf (d : Date) : Prop :=
  1 <= month d <= 12 /\ 1 <= day d <= 31 /\ 0 <= hours d <= 23 /\
  0 <= minutes d <= 59 /\ 0 <= seconds d <= 59 /\ 0 <= milliseconds d <= 999.

Definition pad_num (n : nat) (x : Z) : string := padStart0 n (toString10 x).

(** Years 0..9999 print on four digits, all others in the expanded form
    with a sign and six digits. *)
Definition iso_year (y : Z) : string :=
  if (0 <=? y) && (y <=? 9999) then pad_num 4 y
  else (if y <? 0 then "-" else "+") ++ pad_num 6 (Z.abs y).

(** [Date.prototype.toISOString]: [YYYY-MM-DDTHH:mm:ss.sssZ]. *)
Definition toISOString (d : Date) : string :=
  iso_year (year d) ++ "-" ++ pad_num 2 (month d) ++ "-" ++ pad_num 2 (day d) ++
  "T" ++ pad_num 2 (hours d) ++ ":" ++ pad_num 2 (minutes d) ++ ":" ++
  pad_num 2 (seconds d) ++ "." ++ pad_num 3 (milliseconds d) ++ "Z".

Definition is_digit (c : ascii) : bool :=
  let n := code_of_char c in (48 <=? n) && (n <=? 57).

(** [s.replace(/[:-]|\.\d{3}/g, '')]; the signers also spell the pattern
    [/[:-]|[.]\d{3}/g] and [/[:\-]|\.\d{3}/g], which denote the same
    language. *)
Fixpoint strip_iso_punct (s : string) : string :=
  match s with
  | EmptyString => EmptyString
  | String c rest =>
      if Ascii.eqb c ":" || Ascii.eqb c "-" then strip_iso_punct rest
      else if Ascii.eqb c "." then
        match rest with
        | String d1 (String d2 (String d3 rest')) =>
            if is_digit d1 && is_digit d2 && is_digit d3
            then strip_iso_punct rest'
            else String c (strip_iso_punct rest)
        | _ => String c (strip_iso_punct rest)
        end
      else String c (strip_iso_punct rest)
  end.

(** The fields of a parsed [URL] object that the signers read.  The WHATWG
    parser itself is a parameter of the [World] below. *)
Record URL := mkURL {
  hostname : string;
  pathname : string;
  query : string;                           (* without the leading "?" *)
  searchParams : list (string * string) }.  (* decoded pairs, in URL order *)

(** [url.search]: empty when the query is empty, else "?" followed by it. *)
Definition search (u : URL) : string :=
  if String.eqb (query u) "" then "" else "?" ++ query u.

Definition is_alnum (c : ascii) : bool :=
  let n := code_of_char c in
  ((48 <=? n) && (n <=? 57)) || ((65 <=? n) && (n <=? 90)) || ((97 <=? n) && (n <=? 122)).

Definition char_in (set : string) (c : ascii) : bool :=
  existsb (Ascii.eqb c) (list_ascii_of_string set).

(** "%XX", upper-case hexadecimal. *)
Definition percent_byte (c : ascii) : string :=
  let n := code_of_char c in
  String "%" (String (HEX_digit (n / 16)) (String (HEX_digit (n mod 16)) "")).

Fixpoint flat_map_string (f : ascii -> string) (s : string) : string :=
  match s with
  | EmptyString => EmptyString
  | String c rest => f c ++ flat_map_string f rest
  end.

(** [encodeURIComponent]: every UTF-8 byte except [A-Za-z0-9 - _ . ! ~ * ' ( )]
    is escaped. *)
Definition encodeURIComponent (s : string) : string :=
  flat_map_string
    (fun c => if is_alnum c || char_in "-_.!~*'()" c then String c "" else percent_byte c)
    s.

(** [URLSearchParams.prototype.toString]: the application/x-www-form-urlencoded
    serializer; space becomes "+", [A-Za-z0-9 * - . _] stay, the rest is
    escaped. *)
Definition urlencoded_string (s : string) : string :=
  flat_map_string
    (fun c => if Ascii.eqb c " " then "+"
              else if is_alnum c || char_in "*-._" c then String c ""
              else percent_byte c)
    s.

Definition URLSearchParams_toString (ps : list (string * string)) : string :=
  join "&" (map (fun kv => urlencoded_string (fst kv) ++ "=" ++ urlencoded_string (snd kv)) ps).

(* ================================================================== *)
(** ** The [async] monad: clock, WebCrypto call count, exceptions *)

Inductive JsError :=
| TypeError (msg : string)
| DataError (msg : string)
| Error (msg : string).

Record World := mkWorld {
  URL_parse : string -> option URL;  (* [new URL(s)]; [None] when it throws *)
  clock : nat -> Date;               (* the k-th reading of the wall clock *)
  clock_reads : nat;
  subtle_calls : nat }.              (* calls made to [crypto.subtle] so far *)

Inductive Completion (A : Type) :=
| Normal (a : A)
| Throw (e : JsError).
Arguments Normal {A} a.
Arguments Throw {A} e.

Definition Js (A : Type) : Type := World -> Completion A * World.

Definition ret {A} (a : A) : Js A := fun w => (Normal a, w).

Definition throw {A} (e : JsError) : Js A := fun w => (Throw e, w).

Definition bind {A B} (m : Js A) (k : A -> Js B) : Js B :=
  fun w => match m w with
           | (Normal a, w') => k a w'
           | (Throw e, w') => (Throw e, w')
           end.

Notation "x <- m ;; k" := (bind m (fun x => k))
  (at level 61, m at next level, right associativity).

(** [new URL(s)] *)
Definition new_URL (s : string) : Js URL :=
  fun w => match URL_parse w s with
           | Some u => (Normal u, w)
           | None => (Throw (TypeError "Invalid URL"), w)
           end.

(** [new Date()] reads the clock; the next reading may differ. *)
Definition new_Date : Js Date :=
  fun w => (Normal (clock w (clock_reads w)),
            mkWorld (URL_parse w) (clock w) (S (clock_reads w)) (subtle_calls w)).

Definition tick_subtle (w : World) : World :=
  mkWorld (URL_parse w) (clock w) (clock_reads w) (S (subtle_calls w)).

Inductive CryptoKey := HmacKey (raw : bytes).

Definition key_bytes (k : CryptoKey) : bytes := let (raw) := k in raw.

(** [crypto.subtle.digest('SHA-256', data)] *)
Definition subtle_digest (data : bytes) : Js bytes :=
  fun w => (Normal (Sha256.digest data), tick_subtle w).

(** [crypto.subtle.importKey('raw', key, {name:'HMAC', hash:'SHA-256'}, false, ['sign'])];
    WebCrypto rejects an HMAC key of length zero with a DataError. *)
Definition subtle_importKey (raw : bytes) : Js CryptoKey :=
  fun w => match raw with
           | [] => (Throw (DataError "Key length is zero"), tick_subtle w)
           | _ :: _ => (Normal (HmacKey raw), tick_subtle w)
           end.

(** [crypto.subtle.sign('HMAC', key, data)] *)
Definition subtle_sign (k : CryptoKey) (data : bytes) : Js bytes :=
  fun w => (Normal (Hmac.sign (key_bytes k) data), tick_subtle w).

(** The header mapping a signer returns. *)
Definition Headers := list (string * string).

(** Header lookup the way HTTP reads names: ASCII case-insensitively. *)
Fixpoint header_get (name : string) (h : Headers) : option string :=
  match h with
  | [] => None
  | (k, v) :: rest =>
      if String.eqb (toLowerCase k) (toLowerCase name) then Some v
      else header_get name rest
  end.

(** The named constants of one [signRequest] call.  Each signer below is
    given as [signRequest_locals], the body of the source function with the
    constants it binds collected in this record, and [signRequest], which
    returns the object literal built from them. *)
Record Locals := mkLocals {
  l_host : string;
  l_canonicalUri : string;
  l_canonicalQueryString : string;
  l_amzDate : string;
  l_dateStamp : string;
  l_payloadHash : string;
  l_canonicalHeaders : string;
  l_signedHeaders : string;
  l_canonicalRequest : string;
  l_credentialScope : string;
  l_stringToSign : string;
  l_signingKey : bytes;
  l_signature : string;
  l_authorizationHeader : string }.

Definition LF : string := String (ascii_of_nat 10) "".

Definition encode := TextEncoder_encode.

(** [a || b] on strings: the empty string is falsy. *)
Definition or_else (a b : string) : string := if String.eqb a "" then b else a.

(** [encodeURIComponent2] of list-foundation-models, generate-upload-url and
    generate-presigned-url: [encodeURIComponent], then each of [! ' ( ) *]
    replaced by "%" and its upper-case hexadecimal char code. *)
Definition encodeURIComponent2 (str : string) : string :=
  flat_map_string
    (fun c => if char_in "!'()*" c
              then "%" ++ toString16_upper (code_of_char c)
              else String c "")
    (encodeURIComponent str).

(** The options object shared by the signers that take a URL. *)
Record SignRequestOptions := mkOptions {
  method : string;
  url : string;
  body : string;
  region : string;
  service : string;
  accessKeyId : string;
  secretAccessKey : string }.

(* ------------------------------------------------------------------ *)
(** *** supabase/functions/bedrock-llm/aws-signer.ts *)
Module BedrockLlmSigner.

Record SignRequestParams := mkParams {
  method : string;
  url : option string;
  host : option string;
  path : option string;
  body : string;
  region : string;
  service : string;
  accessKeyId : string;
  secretAccessKey : string }.

(** Truthiness of an optional string property: present and non-empty. *)
Definition truthy (o : option string) : bool :=
  match o with
  | Some s => negb (String.eqb s "")
  | None => false
  end.

(** The string held by a property known to be present. *)
Definition the (o : option string) : string :=
  match o with Some s => s | None => "" end.

Definition getSignatureKey (key dateStamp regionName serviceName : string)
  : Js CryptoKey :=
  kDate <- subtle_importKey (encode ("AWS4" ++ key)) ;;
  kDateSigned <- subtle_sign kDate (encode dateStamp) ;;
  kRegion <- subtle_importKey kDateSigned ;;
  kRegionSigned <- subtle_sign kRegion (encode regionName) ;;
  kService <- subtle_importKey kRegionSigned ;;
  kServiceSigned <- subtle_sign kService (encode serviceName) ;;
  kSigning <- subtle_importKey kServiceSigned ;;
  ret kSigning.

Definition resolve_target (params : SignRequestParams) : Js (string * string) :=
  if truthy (url params) then
    urlObj <- new_URL (the (url params)) ;;
    ret (hostname urlObj, pathname urlObj ++ search urlObj)
  else if truthy (host params) && truthy (path params) then
    ret (the (host params), the (path params))
  else throw (Error "Either url or both host and path must be provided").

Definition signRequest_locals (params : SignRequestParams) : Js Locals :=
  target <- resolve_target params ;;
  let finalHost := fst target in
  let finalPath := snd target in
  now <- new_Date ;;
  let amzDate := strip_iso_punct (toISOString now) in
  let dateStamp := slice0 8 amzDate in
  bodyHash <- subtle_digest (encode (body params)) ;;
  let bodyHashHex := toHex bodyHash in
  let canonicalHeaders :=
    "host:" ++ finalHost ++ LF ++ "x-amz-date:" ++ amzDate ++ LF in
  let signedHeaders := "host;x-amz-date" in
  let canonicalRequest :=
    method params ++ LF ++ finalPath ++ LF ++ LF ++ canonicalHeaders ++ LF ++
    signedHeaders ++ LF ++ bodyHashHex in
  canonicalRequestHash <- subtle_digest (encode canonicalRequest) ;;
  let canonicalRequestHashHex := toHex canonicalRequestHash in
  let credentialScope :=
    dateStamp ++ "/" ++ region params ++ "/" ++ service params ++ "/aws4_request" in
  let stringToSign :=
    join LF ["AWS4-HMAC-SHA256"; amzDate; credentialScope; canonicalRequestHashHex] in
  signingKey <- getSignatureKey (secretAccessKey params) dateStamp
                                (region params) (service params) ;;
  signatureBytes <- subtle_sign signingKey (encode stringToSign) ;;
  let signature := toHex signatureBytes in
  let authorizationHeader :=
    join ", " ["AWS4-HMAC-SHA256 Credential=" ++ accessKeyId params ++ "/" ++ credentialScope;
               "SignedHeaders=" ++ signedHeaders;
               "Signature=" ++ signature] in
  ret (mkLocals finalHost finalPath "" amzDate dateStamp bodyHashHex
                canonicalHeaders signedHeaders canonicalRequest credentialScope
                stringToSign (key_bytes signingKey) signature authorizationHeader).

Definition result (l : Locals) : Headers :=
  [("Host", l_host l);
   ("X-Amz-Date", l_amzDate l);
   ("Authorization", l_authorizationHeader l);
   ("Content-Type", "application/json")].

Definition signRequest (params : SignRequestParams) : Js Headers :=
  l <- signRequest_locals params ;;
  ret (result l).

End BedrockLlmSigner.

(* ------------------------------------------------------------------ *)
(** *** supabase/functions/list-foundation-models/aws-signer.ts *)
Module ListFoundationModelsSigner.

Definition sha256 (data : string) : Js bytes := subtle_digest (encode data).

Definition hmac (key : bytes) (data : string) : Js bytes :=
  cryptoKey <- subtle_importKey key ;;
  subtle_sign cryptoKey (encode data).

Definition getSignatureKey (key dateStamp regionName serviceName : string)
  : Js bytes :=
  kDate <- hmac (encode ("AWS4" ++ key)) dateStamp ;;
  kRegion <- hmac kDate regionName ;;
  kService <- hmac kRegion serviceName ;;
  kSigning <- hmac kService "aws4_request" ;;
  ret kSigning.

Definition canonicalURI (path : string) : string :=
  let segments := split_on "/" path in
  join "/" (map (fun segment => encodeURIComponent2 segment) segments).

Definition signRequest_locals (options : SignRequestOptions) : Js Locals :=
  urlObj <- new_URL (url options) ;;
  let host := hostname urlObj in
  let canonicalPath := canonicalURI (pathname urlObj) in
  now <- new_Date ;;
  let amzDate := strip_iso_punct (toISOString now) in
  let dateStamp := slice0 8 amzDate in
  bodyDigest <- sha256 (body options) ;;
  let payloadHash := toHex bodyDigest in
  let canonicalHeaders :=
    "content-type:application/json" ++ LF ++ "host:" ++ host ++ LF ++
    "x-amz-date:" ++ amzDate ++ LF in
  let signedHeaders := "content-type;host;x-amz-date" in
  let canonicalRequest :=
    method options ++ LF ++ canonicalPath ++ LF ++ LF ++ canonicalHeaders ++ LF ++
    signedHeaders ++ LF ++ payloadHash in
  let algorithm := "AWS4-HMAC-SHA256" in
  let credentialScope :=
    dateStamp ++ "/" ++ region options ++ "/" ++ service options ++ "/aws4_request" in
  requestDigest <- sha256 canonicalRequest ;;
  let stringToSign :=
    algorithm ++ LF ++ amzDate ++ LF ++ credentialScope ++ LF ++ toHex requestDigest in
  signingKey <- getSignatureKey (secretAccessKey options) dateStamp
                                (region options) (service options) ;;
  signatureBytes <- hmac signingKey stringToSign ;;
  let signature := toHex signatureBytes in
  let authorizationHeader :=
    algorithm ++ " Credential=" ++ accessKeyId options ++ "/" ++ credentialScope ++
    ", SignedHeaders=" ++ signedHeaders ++ ", Signature=" ++ signature in
  ret (mkLocals host canonicalPath "" amzDate dateStamp payloadHash
                canonicalHeaders signedHeaders canonicalRequest credentialScope
                stringToSign signingKey signature authorizationHeader).

Definition result (l : Locals) : Headers :=
  [("Content-Type", "application/json");
   ("Host", l_host l);
   ("X-Amz-Date", l_amzDate l);
   ("Authorization", l_authorizationHeader l)].

Definition signRequest (options : SignRequestOptions) : Js Headers :=
  l <- signRequest_locals options ;;
  ret (result l).

End ListFoundationModelsSigner.

(** [Array.prototype.sort(comparefn)]: a stable sort; [comparefn a b <= 0]
    keeps [a] before [b]. *)
Fixpoint sort_insert {A} (comparefn : A -> A -> Z) (x : A) (l : list A) : list A :=
  match l with
  | [] => [x]
  | y :: l' =>
      if comparefn x y <=? 0 then x :: y :: l' else y :: sort_insert comparefn x l'
  end.

Fixpoint Array_sort {A} (comparefn : A -> A -> Z) (l : list A) : list A :=
  match l with
  | [] => []
  | x :: l' => sort_insert comparefn x (Array_sort comparefn l')
  end.

(* ------------------------------------------------------------------ *)
(** *** supabase/functions/generate-upload-url/aws-signer.ts
    (the same text is embedded in generate-presigned-url/index.ts) *)
Module GenerateUploadUrlSigner.
Section WithLocale.

(** [String.prototype.localeCompare] of the runtime. *)
Variable localeCompare : string -> string -> Z.

Definition sha256 (data : string) : Js bytes := subtle_digest (encode data).

Definition hmac (key : bytes) (data : string) : Js bytes :=
  cryptoKey <- subtle_importKey key ;;
  subtle_sign cryptoKey (encode data).

Definition getSignatureKey (key dateStamp regionName serviceName : string)
  : Js bytes :=
  kDate <- hmac (encode ("AWS4" ++ key)) dateStamp ;;
  kRegion <- hmac kDate regionName ;;
  kService <- hmac kRegion serviceName ;;
  kSigning <- hmac kService "aws4_request" ;;
  ret kSigning.

Definition canonicalURI (path : string) : string :=
  if String.eqb path "" || String.eqb path "/" then "/"
  else
    let segments := split_on "/" path in
    join "/" (map (fun segment => encodeURIComponent2 segment) segments).

Definition compare_params (a b : string * string) : Z :=
  if String.eqb (fst a) (fst b) then localeCompare (snd a) (snd b)
  else localeCompare (fst a) (fst b).

Definition getCanonicalQueryString (searchParams : list (string * string)) : string :=
  let params :=
    map (fun kv => (encodeURIComponent2 (fst kv), encodeURIComponent2 (snd kv)))
        searchParams in
  let sorted := Array_sort compare_params params in
  join "&" (map (fun kv => fst kv ++ "=" ++ snd kv) sorted).

Definition signRequest_locals (options : SignRequestOptions) : Js Locals :=
  urlObj <- new_URL (url options) ;;
  let host := hostname urlObj in
  let canonicalPath := canonicalURI (pathname urlObj) in
  let canonicalQueryString := getCanonicalQueryString (searchParams urlObj) in
  now <- new_Date ;;
  let amzDate := strip_iso_punct (toISOString now) in
  let dateStamp := slice0 8 amzDate in
  bodyDigest <- sha256 (body options) ;;
  let payloadHash := toHex bodyDigest in
  let canonicalHeaders :=
    "host:" ++ host ++ LF ++ "x-amz-content-sha256:" ++ payloadHash ++ LF ++
    "x-amz-date:" ++ amzDate ++ LF in
  let signedHeaders := "host;x-amz-content-sha256;x-amz-date" in
  let canonicalRequest :=
    method options ++ LF ++ canonicalPath ++ LF ++ canonicalQueryString ++ LF ++
    canonicalHeaders ++ LF ++ signedHeaders ++ LF ++ payloadHash in
  let algorithm := "AWS4-HMAC-SHA256" in
  let credentialScope :=
    dateStamp ++ "/" ++ region options ++ "/" ++ service options ++ "/aws4_request" in
  requestDigest <- sha256 canonicalRequest ;;
  let stringToSign :=
    algorithm ++ LF ++ amzDate ++ LF ++ credentialScope ++ LF ++ toHex requestDigest in
  signingKey <- getSignatureKey (secretAccessKey options) dateStamp
                                (region options) (service options) ;;
  signatureBytes <- hmac signingKey stringToSign ;;
  let signature := toHex signatureBytes in
  let authorizationHeader :=
    algorithm ++ " Credential=" ++ accessKeyId options ++ "/" ++ credentialScope ++
    ", SignedHeaders=" ++ signedHeaders ++ ", Signature=" ++ signature in
  ret (mkLocals host canonicalPath canonicalQueryString amzDate dateStamp payloadHash
                canonicalHeaders signedHeaders canonicalRequest credentialScope
                stringToSign signingKey signature authorizationHeader).

Definition result (l : Locals) : Headers :=
  [("Host", l_host l);
   ("X-Amz-Date", l_amzDate l);
   ("X-Amz-Content-Sha256", l_payloadHash l);
   ("Authorization", l_authorizationHeader l)].

Definition signRequest (options : SignRequestOptions) : Js Headers :=
  l <- signRequest_locals options ;;
  ret (result l).

End WithLocale.
End GenerateUploadUrlSigner.

(* ------------------------------------------------------------------ *)
(** *** supabase/functions/list-repository-files/aws-signer.ts *)
Module ListRepositoryFilesSigner.

Definition hmac (key : bytes) (data : string) : Js bytes :=
  cryptoKey <- subtle_importKey key ;;
  subtle_sign cryptoKey (encode data).

Definition signRequest_locals (params : SignRequestOptions) : Js Locals :=
  urlObj <- new_URL (url params) ;;
  let host := hostname urlObj in
  let canonicalUri := or_else (pathname urlObj) "/" in
  let canonicalQueryString := URLSearchParams_toString (searchParams urlObj) in
  now <- new_Date ;;
  let amzDate := strip_iso_punct (toISOString now) in
  let dateStamp := slice0 8 amzDate in
  hashedPayload <- subtle_digest (encode (body params)) ;;
  let payloadHash := toHex hashedPayload in
  let canonicalHeaders :=
    "host:" ++ host ++ LF ++ "x-amz-date:" ++ amzDate ++ LF in
  let signedHeaders := "host;x-amz-date" in
  let canonicalRequest :=
    join LF [method params; canonicalUri; canonicalQueryString; canonicalHeaders;
             signedHeaders; payloadHash] in
  hashedCanonicalRequest <- subtle_digest (encode canonicalRequest) ;;
  let canonicalRequestHash := toHex hashedCanonicalRequest in
  let credentialScope :=
    dateStamp ++ "/" ++ region params ++ "/" ++ service params ++ "/aws4_request" in
  let stringToSign :=
    join LF ["AWS4-HMAC-SHA256"; amzDate; credentialScope; canonicalRequestHash] in
  kDate <- hmac (encode ("AWS4" ++ secretAccessKey params)) dateStamp ;;
  kRegion <- hmac kDate (region params) ;;
  kService <- hmac kRegion (service params) ;;
  kSigning <- hmac kService "aws4_request" ;;
  signature <- hmac kSigning stringToSign ;;
  let signatureHex := toHex signature in
  let authorizationHeader :=
    "AWS4-HMAC-SHA256 Credential=" ++ accessKeyId params ++ "/" ++ credentialScope ++
    ", SignedHeaders=" ++ signedHeaders ++ ", Signature=" ++ signatureHex in
  ret (mkLocals host canonicalUri canonicalQueryString amzDate dateStamp payloadHash
                canonicalHeaders signedHeaders canonicalRequest credentialScope
                stringToSign kSigning signatureHex authorizationHeader).

Definition result (l : Locals) : Headers :=
  [("Authorization", l_authorizationHeader l);
   ("x-amz-date", l_amzDate l);
   ("x-amz-content-sha256", l_payloadHash l)].

Definition signRequest (params : SignRequestOptions) : Js Headers :=
  l <- signRequest_locals params ;;
  ret (result l).

End ListRepositoryFilesSigner.

(* ------------------------------------------------------------------ *)
(** *** The signer embedded in supabase/functions/list-s3-objects/index.ts *)
Module ListS3ObjectsSigner.

Definition hash (data : string) : Js string :=
  hashBuffer <- subtle_digest (encode data) ;;
  ret (toHex hashBuffer).

Definition hmac (key : bytes) (data : string) : Js string :=
  cryptoKey <- subtle_importKey key ;;
  signature <- subtle_sign cryptoKey (encode data) ;;
  ret (toHex signature).

Definition hmacBinary (key : bytes) (data : string) : Js bytes :=
  cryptoKey <- subtle_importKey key ;;
  subtle_sign cryptoKey (encode data).

Definition getSignatureKey (key dateStamp region service : string) : Js bytes :=
  kDate <- hmacBinary (encode ("AWS4" ++ key)) dateStamp ;;
  kRegion <- hmacBinary kDate region ;;
  kService <- hmacBinary kRegion service ;;
  kSigning <- hmacBinary kService "aws4_request" ;;
  ret kSigning.

Definition signRequest_locals (params : SignRequestOptions) : Js Locals :=
  urlObj <- new_URL (url params) ;;
  let host := hostname urlObj in
  let path := pathname urlObj ++ search urlObj in
  now <- new_Date ;;
  let amzDate := strip_iso_punct (toISOString now) in
  let dateStamp := slice0 8 amzDate in
  payloadHash <- hash (body params) ;;
  let canonicalHeaders :=
    "host:" ++ host ++ LF ++ "x-amz-date:" ++ amzDate ++ LF in
  let signedHeaders := "host;x-amz-date" in
  let canonicalRequest :=
    join LF [method params; path; ""; canonicalHeaders; signedHeaders; payloadHash] in
  let credentialScope :=
    dateStamp ++ "/" ++ region params ++ "/" ++ service params ++ "/aws4_request" in
  canonicalRequestHash <- hash canonicalRequest ;;
  let stringToSign :=
    join LF ["AWS4-HMAC-SHA256"; amzDate; credentialScope; canonicalRequestHash] in
  signingKey <- getSignatureKey (secretAccessKey params) dateStamp
                                (region params) (service params) ;;
  signature <- hmac signingKey stringToSign ;;
  let authorizationHeader :=
    join ", " ["AWS4-HMAC-SHA256 Credential=" ++ accessKeyId params ++ "/" ++ credentialScope;
               "SignedHeaders=" ++ signedHeaders;
               "Signature=" ++ signature] in
  ret (mkLocals host path "" amzDate dateStamp payloadHash
                canonicalHeaders signedHeaders canonicalRequest credentialScope
                stringToSign signingKey signature authorizationHeader).

Definition result (l : Locals) : Headers :=
  [("Authorization", l_authorizationHeader l);
   ("x-amz-date", l_amzDate l);
   ("x-amz-content-sha256", l_payloadHash l)].

Definition signRequest (params : SignRequestOptions) : Js Headers :=
  l <- signRequest_locals params ;;
  ret (result l).

End ListS3ObjectsSigner.

(* ------------------------------------------------------------------ *)
(** *** The signer of src/unnamed/part_001 *)
Module Part001Signer.

Definition sha256 (data : bytes) : Js bytes := subtle_digest data.

Definition hexEncode (buffer : bytes) : string := toHex buffer.

Definition hmac (key : bytes) (data : string) : Js bytes :=
  cryptoKey <- subtle_importKey key ;;
  subtle_sign cryptoKey (encode data).

(** [s.substring(1)] *)
Definition substring1 (s : string) : string :=
  match s with
  | EmptyString => EmptyString
  | String _ rest => rest
  end.

Definition signRequest_locals (params : SignRequestOptions) : Js Locals :=
  let algorithm := "AWS4-HMAC-SHA256" in
  now <- new_Date ;;
  let amzDate := strip_iso_punct (toISOString now) in
  let dateStamp := slice0 8 amzDate in
  urlObj <- new_URL (url params) ;;
  let host := hostname urlObj in
  let canonicalUri := or_else (pathname urlObj) "/" in
  let canonicalQuerystring := substring1 (search urlObj) in
  bodyDigest <- sha256 (encode (body params)) ;;
  let payloadHash := hexEncode bodyDigest in
  let canonicalHeaders :=
    "host:" ++ host ++ LF ++ "x-amz-date:" ++ amzDate ++ LF in
  let signedHeaders := "host;x-amz-date" in
  let canonicalRequest :=
    method params ++ LF ++ canonicalUri ++ LF ++ canonicalQuerystring ++ LF ++
    canonicalHeaders ++ LF ++ signedHeaders ++ LF ++ payloadHash in
  let credentialScope :=
    dateStamp ++ "/" ++ region params ++ "/" ++ service params ++ "/aws4_request" in
  requestDigest <- sha256 (encode canonicalRequest) ;;
  let canonicalRequestHash := hexEncode requestDigest in
  let stringToSign :=
    algorithm ++ LF ++ amzDate ++ LF ++ credentialScope ++ LF ++ canonicalRequestHash in
  kDate <- hmac (encode ("AWS4" ++ secretAccessKey params)) dateStamp ;;
  kRegion <- hmac kDate (region params) ;;
  kService <- hmac kRegion (service params) ;;
  kSigning <- hmac kService "aws4_request" ;;
  signatureBytes <- hmac kSigning stringToSign ;;
  let signature := hexEncode signatureBytes in
  let authorizationHeader :=
    algorithm ++ " Credential=" ++ accessKeyId params ++ "/" ++ credentialScope ++
    ", SignedHeaders=" ++ signedHeaders ++ ", Signature=" ++ signature in
  ret (mkLocals host canonicalUri canonicalQuerystring amzDate dateStamp payloadHash
                canonicalHeaders signedHeaders canonicalRequest credentialScope
                stringToSign kSigning signature authorizationHeader).

Definition result (l : Locals) : Headers :=
  [("Authorization", l_authorizationHeader l);
   ("x-amz-date", l_amzDate l);
   ("x-amz-content-sha256", l_payloadHash l)].

Definition signRequest (params : SignRequestOptions) : Js Headers :=
  l <- signRequest_locals params ;;
  ret (result l).

End Part001Signer.

(* ================================================================== *)
(** ** Reference definitions, following the SigV4 description *)

(** The [Authorization] value: algorithm, credential, signed header names
    and signature. *)
Definition Authorization_value (credential signedHeaders signature : string) : string :=
  "AWS4-HMAC-SHA256 Credential=" ++ credential ++ ", SignedHeaders=" ++ signedHeaders ++
  ", Signature=" ++ signature.

(** Sixty-four characters of [0-9a-f]. *)
Definition hex64 (s : string) : Prop :=
  String.length s = 64%nat /\ string_forallb is_lower_hex s = true.

(** The SigV4 signing key: four chained HMAC-SHA256 operations, each keyed
    by the previous result. *)
Definition kSigning_chain (secretKey dateStamp region service : string) : bytes :=
  let kDate := Hmac.sign (encode ("AWS4" ++ secretKey)) (encode dateStamp) in
  let kRegion := Hmac.sign kDate (encode region) in
  let kService := Hmac.sign kRegion (encode service) in
  Hmac.sign kService (encode "aws4_request").

(** A byte renders as two characters of [0-9a-f]. *)
Definition byte_hex_ok (b : Z) : bool :=
  let s := padStart0 2 (toString16 b) in
  Nat.eqb (String.length s) 2 && string_forallb is_lower_hex s.

(** No "/" occurs in the string. *)
Definition no_slash (s : string) : bool :=
  string_forallb (fun c => negb (Ascii.eqb c "/")) s.

(** The world after [reads] clock readings and [calls] WebCrypto calls. *)
Definition advance (reads calls : nat) (w : World) : World :=
  mkWorld (URL_parse w) (clock w) (reads + clock_reads w) (calls + subtle_calls w).

Definition EMPTY_SHA256 : string :=
  "e3b0c44298fc1c149afbf4c8996fb92427ae41e4649b934ca495991b7852b855".

(** The basic ISO 8601 rendering of an instant, digit by digit. *)
Definition digit_char (d : Z) : ascii := char_of_code (48 + d).

Definition two_digits (x : Z) : string :=
  String (digit_char (x / 10)) (String (digit_char (x mod 10)) "").

Definition three_digits (x : Z) : string :=
  String (digit_char (x / 100)) (two_digits (x mod 100)).

Definition four_digits (x : Z) : string := two_digits (x / 100) ++ two_digits (x mod 100).

(** YYYYMMDD *)
Definition date_stamp_format (d : Date) : string :=
  four_digits (year d) ++ two_digits (month d) ++ two_digits (day d).

(** YYYYMMDDTHHMMSSZ *)
Definition basic_format (d : Date) : string :=
  four_digits (year d) ++ two_digits (month d) ++ two_digits (day d) ++ "T" ++
  two_digits (hours d) ++ two_digits (minutes d) ++ two_digits (seconds d) ++ "Z".

(** The target of a bedrock-llm signing call resolves to a host and a path:
    a non-empty [url] that parses, or else non-empty [host] and [path]. *)
Definition target_resolves (p : BedrockLlmSigner.SignRequestParams) (w : World) : bool :=
  if BedrockLlmSigner.truthy (BedrockLlmSigner.url p) then
    match URL_parse w (BedrockLlmSigner.the (BedrockLlmSigner.url p)) with
    | Some _ => true
    | None => false
    end
  else BedrockLlmSigner.truthy (BedrockLlmSigner.host p) &&
       BedrockLlmSigner.truthy (BedrockLlmSigner.path p).

(** RFC 3986 unreserved characters: letters, digits, "-", ".", "_", "~". *)
Definition is_unreserved (c : ascii) : bool := is_alnum c || char_in "-._~" c.

(** One pass of percent-encoding: unreserved characters stay, every other
    byte becomes "%XX". *)
Definition uri_encode_once (s : string) : string :=
  flat_map_string (fun c => if is_unreserved c then String c "" else percent_byte c) s.

(** A comparison function is consistent when "comes no later than"
    ([comparefn a b <= 0]) is a total order. *)
Record consistent_order {A : Type} (comparefn : A -> A -> Z) : Prop := {
  order_total : forall a b, comparefn a b <= 0 \/ comparefn b a <= 0;
  order_antisym : forall a b, comparefn a b <= 0 -> comparefn b a <= 0 -> a = b;
  order_trans : forall a b c,
      comparefn a b <= 0 -> comparefn b c <= 0 -> comparefn a c <= 0 }.

(** Comparison of strings by code units, byte by byte. *)
Definition code_unit_compare (a b : string) : Z :=
  match String.compare a b with
  | Lt => -1
  | Eq => 0
  | Gt => 1
  end.

(* ================================================================== *)
(** ** Sample inputs *)

Module Samples.

(** 2013-05-24T00:00:00.000Z *)
Definition may_24_2013 : Date := mkDate 2013 5 24 0 0 0 0.

Definition repo_host : string := "repo.s3.us-east-1.amazonaws.com".

Definition url_test_txt : string := "https://examplebucket.s3.amazonaws.com/test.txt".

(** The listing URL list-repository-files/index.ts builds when a continuation
    token is present: list-type, max-keys, then continuation-token. *)
Definition url_listing : string :=
  "https://repo.s3.us-east-1.amazonaws.com/?list-type=2&max-keys=1000&continuation-token=abc".

(** The same parameters, supplied in sorted order. *)
Definition url_listing_sorted : string :=
  "https://repo.s3.us-east-1.amazonaws.com/?continuation-token=abc&list-type=2&max-keys=1000".

(** What [new URL] yields on the sample URLs; it throws on "not a url". *)
Definition URL_parse (s : string) : option URL :=
  if String.eqb s url_test_txt then
    Some (mkURL "examplebucket.s3.amazonaws.com" "/test.txt" "" [])
  else if String.eqb s url_listing then
    Some (mkURL repo_host "/" "list-type=2&max-keys=1000&continuation-token=abc"
                [("list-type", "2"); ("max-keys", "1000"); ("continuation-token", "abc")])
  else if String.eqb s url_listing_sorted then
    Some (mkURL repo_host "/" "continuation-token=abc&list-type=2&max-keys=1000"
                [("continuation-token", "abc"); ("list-type", "2"); ("max-keys", "1000")])
  else None.

(** A world whose clock stands at 2013-05-24T00:00:00Z. *)
Definition world : World := mkWorld URL_parse (fun _ => may_24_2013) 0 0.

Definition secret : string := "wJalrXUtnFEMI/K7MDENG/bPxRfiCYEXAMPLEKEY".

(** The GET of the scenario, given by host and path. *)
Definition get_test_txt : BedrockLlmSigner.SignRequestParams :=
  BedrockLlmSigner.mkParams "GET" None (Some "examplebucket.s3.amazonaws.com")
    (Some "/test.txt") "" "us-east-1" "s3" "AKIDEXAMPLE" secret.

(** The same request with both credentials empty. *)
Definition get_without_credentials : BedrockLlmSigner.SignRequestParams :=
  BedrockLlmSigner.mkParams "GET" None (Some "examplebucket.s3.amazonaws.com")
    (Some "/test.txt") "" "us-east-1" "s3" "" "".





Definition get_url (u : string) : SignRequestOptions :=
  mkOptions "GET" u "" "us-east-1" "s3" "AKIDEXAMPLE" secret.

End Samples.

(* ================================================================== *)
(** ** More of the platform: [decodeURIComponent] *)

(** The value of one hexadecimal digit, in either case. *)
Definition hex_value (c : ascii) : option Z :=
  let n := code_of_char c in
  if (48 <=? n) && (n <=? 57) then Some (n - 48)
  else if (65 <=? n) && (n <=? 70) then Some (n - 55)
  else if (97 <=? n) && (n <=? 102) then Some (n - 87)
  else None.

(** What [decodeURIComponent] reads: a character taken as it is, or the byte
    of a "%XX" escape. *)
Inductive uri_token :=
| Raw (c : ascii)
| Escaped (b : Z).

(** First pass: every "%" must start an escape of two hexadecimal digits. *)
Fixpoint uri_tokens (s : string) : option (list uri_token) :=
  match s with
  | EmptyString => Some []
  | String c rest =>
      if Ascii.eqb c "%" then
        match rest with
        | String h (String l rest') =>
            match hex_value h, hex_value l, uri_tokens rest' with
            | Some a, Some b, Some ts => Some (Escaped (16 * a + b) :: ts)
            | _, _, _ => None
            end
        | _ => None
        end
      else option_map (cons (Raw c)) (uri_tokens rest)
  end.

Definition continuation (b : Z) : bool := (128 <=? b) && (b <=? 191).

(** The well-formed UTF-8 sequences of two, three and four bytes
    (Unicode, table 3-7): no overlong form, no surrogate, nothing above
    U+10FFFF. *)
Definition utf8_two (a b : Z) : bool :=
  (194 <=? a) && (a <=? 223) && continuation b.

Definition utf8_three (a b c : Z) : bool :=
  ((a =? 224) && (160 <=? b) && (b <=? 191)
   || (225 <=? a) && (a <=? 236) && continuation b
   || (a =? 237) && (128 <=? b) && (b <=? 159)
   || (238 <=? a) && (a <=? 239) && continuation b)
  && continuation c.

Definition utf8_four (a b c d : Z) : bool :=
  ((a =? 240) && (144 <=? b) && (b <=? 191)
   || (241 <=? a) && (a <=? 243) && continuation b
   || (a =? 244) && (128 <=? b) && (b <=? 143))
  && continuation c && continuation d.

(** Second pass: an escaped byte below 0x80 is that character; an escaped
    lead byte must be followed by escaped continuation bytes that complete a
    well-formed UTF-8 sequence.  [None] stands for a URIError. *)
Fixpoint uri_decode_tokens (ts : list uri_token) : option string :=
  match ts with
  | [] => Some ""
  | Raw c :: rest => option_map (String c) (uri_decode_tokens rest)
  | Escaped a :: rest =>
      if a <? 128 then
        option_map (String (char_of_code a)) (uri_decode_tokens rest)
      else if a <? 192 then None
      else if a <? 224 then
        match rest with
        | Escaped b :: rest' =>
            if utf8_two a b then
              option_map (fun s => String (char_of_code a) (String (char_of_code b) s))
                         (uri_decode_tokens rest')
            else None
        | _ => None
        end
      else if a <? 240 then
        match rest with
        | Escaped b :: Escaped c :: rest' =>
            if utf8_three a b c then
              option_map (fun s => String (char_of_code a) (String (char_of_code b)
                                     (String (char_of_code c) s)))
                         (uri_decode_tokens rest')
            else None
        | _ => None
        end
      else if a <? 248 then
        match rest with
        | Escaped b :: Escaped c :: Escaped d :: rest' =>
            if utf8_four a b c d then
              option_map (fun s => String (char_of_code a) (String (char_of_code b)
                                     (String (char_of_code c) (String (char_of_code d) s))))
                         (uri_decode_tokens rest')
            else None
        | _ => None
        end
      else None
  end.

(** [decodeURIComponent]; [None] when it throws a URIError.  The standard
    decodes in one pass; an error found in either pass here is an error
    there, and conversely, since a "%" never lies inside another escape. *)
Definition decodeURIComponent (s : string) : option string :=
  match uri_tokens s with
  | Some ts => uri_decode_tokens ts
  | None => None
  end.

(** A URIError.  It is an [Error] object; [JsError] does not tell the two
    classes apart. *)
Definition URIError (msg : string) : JsError := Error msg.

(** [Array.prototype.map] with a callback that may throw. *)
Fixpoint Array_map_js {A B} (f : A -> Js B) (l : list A) : Js (list B) :=
  match l with
  | [] => ret []
  | x :: rest =>
      y <- f x ;;
      ys <- Array_map_js f rest ;;
      ret (y :: ys)
  end.

(* ------------------------------------------------------------------ *)
(** *** The signer of supabase/functions/bedrock-llm/index.ts *)
Module BedrockLlmIndexSigner.

Definition sha256 (message : string) : Js string :=
  hashBuffer <- subtle_digest (encode message) ;;
  ret (toHex hashBuffer).

Definition hmacSha256 (key : bytes) (message : string) : Js bytes :=
  cryptoKey <- subtle_importKey key ;;
  subtle_sign cryptoKey (encode message).

Definition getSignatureKey (key dateStamp regionName serviceName : string)
  : Js bytes :=
  kDate <- hmacSha256 (encode ("AWS4" ++ key)) dateStamp ;;
  kRegion <- hmacSha256 kDate regionName ;;
  kService <- hmacSha256 kRegion serviceName ;;
  kSigning <- hmacSha256 kService "aws4_request" ;;
  ret kSigning.

(** [segment => encodeURIComponent(decodeURIComponent(segment))] *)
Definition normalize_segment (segment : string) : Js string :=
  match decodeURIComponent segment with
  | Some decoded => ret (encodeURIComponent decoded)
  | None => throw (URIError "URI malformed")
  end.

Definition signRequest_locals (options : SignRequestOptions) : Js Locals :=
  urlObj <- new_URL (url options) ;;
  let host := hostname urlObj in
  segments <- Array_map_js normalize_segment (split_on "/" (pathname urlObj)) ;;
  let path := join "/" segments in
  now <- new_Date ;;
  let amzDate := strip_iso_punct (toISOString now) in
  let dateStamp := slice0 8 amzDate in
  payloadHash <- sha256 (body options) ;;
  let canonicalHeaders :=
    "host:" ++ host ++ LF ++ "x-amz-date:" ++ amzDate ++ LF in
  let signedHeaders := "host;x-amz-date" in
  let canonicalRequest :=
    method options ++ LF ++ path ++ LF ++ LF ++ canonicalHeaders ++ LF ++
    signedHeaders ++ LF ++ payloadHash in
  canonicalRequestHash <- sha256 canonicalRequest ;;
  let credentialScope :=
    dateStamp ++ "/" ++ region options ++ "/" ++ service options ++ "/aws4_request" in
  let stringToSign :=
    "AWS4-HMAC-SHA256" ++ LF ++ amzDate ++ LF ++ credentialScope ++ LF ++
    canonicalRequestHash in
  signingKey <- getSignatureKey (secretAccessKey options) dateStamp
                                (region options) (service options) ;;
  signatureBytes <- hmacSha256 signingKey stringToSign ;;
  let signature := toHex signatureBytes in
  let authorizationHeader :=
    "AWS4-HMAC-SHA256 Credential=" ++ accessKeyId options ++ "/" ++ credentialScope ++
    ", SignedHeaders=" ++ signedHeaders ++ ", Signature=" ++ signature in
  ret (mkLocals host path "" amzDate dateStamp payloadHash
                canonicalHeaders signedHeaders canonicalRequest credentialScope
                stringToSign signingKey signature authorizationHeader).

Definition result (l : Locals) : Headers :=
  [("Host", l_host l);
   ("X-Amz-Date", l_amzDate l);
   ("Authorization", l_authorizationHeader l);
   ("Content-Type", "application/json")].

(** The source takes its seven arguments one by one; they are gathered in
    the options record here. *)
Definition signRequest (options : SignRequestOptions) : Js Headers :=
  l <- signRequest_locals options ;;
  ret (result l).

End BedrockLlmIndexSigner.

(* ================================================================== *)
(** ** String methods used by the request handlers *)

(** [s.substring(n)] *)
Fixpoint drop (n : nat) (s : string) : string :=
  match n, s with
  | O, _ => s
  | S n', String _ rest => drop n' rest
  | S _, EmptyString => EmptyString
  end.

(** [s.indexOf(c)] for a one-character needle; [None] stands for -1. *)
Fixpoint indexOf (c : ascii) (s : string) : option nat :=
  match s with
  | EmptyString => None
  | String x rest => if Ascii.eqb x c then Some O else option_map S (indexOf c rest)
  end.

(** [s.endsWith(c)] for a one-character suffix. *)
Fixpoint endsWith (c : ascii) (s : string) : bool :=
  match s with
  | EmptyString => false
  | String x EmptyString => Ascii.eqb x c
  | String _ rest => endsWith c rest
  end.

(** [s.includes(sub)] *)
Fixpoint includes (sub s : string) : bool :=
  prefix sub s ||
  match s with
  | EmptyString => false
  | String _ rest => includes sub rest
  end.

(** [s.split(sep)] for a non-empty separator: occurrences are taken from the
    left and do not overlap.  [skip] counts the characters of a separator
    just found that are still to be passed. *)
Fixpoint split_str (sep : string) (skip : nat) (s : string) : list string :=
  match s with
  | EmptyString => [""]
  | String c rest =>
      match skip with
      | S k => split_str sep k rest
      | O =>
          if prefix sep s then "" :: split_str sep (String.length sep - 1) rest
          else match split_str sep 0 rest with
               | [] => [String c ""]
               | x :: xs => String c x :: xs
               end
      end
  end.

Definition nonempty (s : string) : bool := negb (String.eqb s "").

(* ------------------------------------------------------------------ *)
(** *** supabase/functions/bedrock-llm/index.ts: which model is called *)
Module BedrockLlmHandler.

Definition DEFAULT_MODEL : string := "anthropic.claude-3-5-sonnet-20240620-v1:0".

(** The model of the converse call (lines 263-274).  [split(...)[1]] past
    the end would be [undefined], which the endpoint template prints as
    "undefined". *)
Definition extractedModelId (inferenceProfileId modelArn : option string) : string :=
  if BedrockLlmSigner.truthy inferenceProfileId then BedrockLlmSigner.the inferenceProfileId
  else
    let modelId :=
      if BedrockLlmSigner.truthy modelArn then BedrockLlmSigner.the modelArn
      else DEFAULT_MODEL in
    if includes "foundation-model/" modelId
    then nth 1 (split_str "foundation-model/" 0 modelId) "undefined"
    else modelId.

(** The model of the title call (lines 360-368). *)
Definition titleModelId (inferenceProfileId modelArn : option string) : string :=
  if BedrockLlmSigner.truthy inferenceProfileId then BedrockLlmSigner.the inferenceProfileId
  else if BedrockLlmSigner.truthy modelArn then
    let arn := BedrockLlmSigner.the modelArn in
    if includes "foundation-model/" arn
    then nth 1 (split_str "foundation-model/" 0 arn) "undefined"
    else arn
  else DEFAULT_MODEL.

(** The model ARN of the knowledge-base call (lines 181-189). *)
Definition finalModelArn (awsRegion : string) (inferenceProfileId modelArn : option string)
  : string :=
  if BedrockLlmSigner.truthy inferenceProfileId then BedrockLlmSigner.the inferenceProfileId
  else if BedrockLlmSigner.truthy modelArn then BedrockLlmSigner.the modelArn
  else "arn:aws:bedrock:" ++ awsRegion ++ "::foundation-model/" ++ DEFAULT_MODEL.

Definition converse_endpoint (awsRegion modelId : string) : string :=
  "https://bedrock-runtime." ++ awsRegion ++ ".amazonaws.com/model/" ++ modelId ++ "/converse".

End BedrockLlmHandler.

(** The part of a data source's [s3Configuration] the handlers read. *)
Record S3Configuration := mkS3Configuration {
  bucketArn : option string;
  inclusionPrefixes : option (list string) }.

(* ------------------------------------------------------------------ *)
(** *** supabase/functions/list-s3-objects/index.ts: bucket and prefix of a
    knowledge base (lines 141-168; the same text is in part_001 and
    part_002) *)
Module ListS3ObjectsHandler.

Definition resolve_bucket (s3Config : S3Configuration)
           (bucketName : option string) (prefix : string) : option string * string :=
  let from_arn :=
    if BedrockLlmSigner.truthy (bucketArn s3Config) then
      let arnParts := split_str ":::" 0 (BedrockLlmSigner.the (bucketArn s3Config)) in
      if (1 <? List.length arnParts)%nat then
        let pathPart := nth 1 arnParts "" in
        match indexOf "/" pathPart with
        | Some slashIndex =>
            let prefix' := drop (slashIndex + 1) pathPart in
            (Some (substring 0 slashIndex pathPart),
             if nonempty prefix' && negb (endsWith "/" prefix')
             then prefix' ++ "/" else prefix')
        | None => (Some pathPart, prefix)
        end
      else (bucketName, prefix)
    else (bucketName, prefix) in
  match inclusionPrefixes s3Config with
  | Some (first :: _) => (fst from_arn, first)
  | _ => from_arn
  end.

End ListS3ObjectsHandler.

(* ------------------------------------------------------------------ *)
(** *** supabase/functions/copy-repository-files/index.ts: where a file is
    copied to (lines 235-284) *)
Module CopyRepositoryFilesHandler.

(** [destinationBucket] and [destinationPrefix]; the handler has returned
    before when the configuration has no [bucketArn]. *)
Definition destination (s3Config : S3Configuration) : string * string :=
  let arnParts := split_str ":::" 0 (BedrockLlmSigner.the (bucketArn s3Config)) in
  let from_arn :=
    if (1 <? List.length arnParts)%nat then
      let pathPart := nth 1 arnParts "" in
      match indexOf "/" pathPart with
      | Some slashIndex =>
          let destinationPrefix := drop (slashIndex + 1) pathPart in
          (substring 0 slashIndex pathPart,
           if nonempty destinationPrefix && negb (endsWith "/" destinationPrefix)
           then destinationPrefix ++ "/" else destinationPrefix)
      | None => (pathPart, "")
      end
    else ("", "") in
  match inclusionPrefixes s3Config with
  | Some (first :: _) =>
      (fst from_arn, if negb (endsWith "/" first) then first ++ "/" else first)
  | _ => from_arn
  end.

(** [fileKey.split('/').pop()] *)
Definition fileName (fileKey : string) : string := last (split_on "/" fileKey) "".

Definition destinationKey (destinationPrefix fileKey : string) : string :=
  destinationPrefix ++ fileName fileKey.

Definition copySource (repositoryBucket fileKey : string) : string :=
  "/" ++ repositoryBucket ++ "/" ++ fileKey.

Definition copyUrl (destinationBucket awsRegion destinationKey : string) : string :=
  "https://" ++ destinationBucket ++ ".s3." ++ awsRegion ++ ".amazonaws.com/" ++
  destinationKey.

End CopyRepositoryFilesHandler.

(* ------------------------------------------------------------------ *)
(** *** supabase/functions/generate-presigned-url/index.ts: the bucket and
    the key of the object, read from an S3 URI or given (lines 269-328) *)
Module GeneratePresignedUrlHandler.

(** The bytes of U+2028 or U+2029 at the head of the string. *)
Definition starts_with_separator (s : string) : bool :=
  match s with
  | String a (String b (String c _)) =>
      (code_of_char a =? 226) && (code_of_char b =? 128) &&
      ((code_of_char c =? 168) || (code_of_char c =? 169))
  | _ => false
  end.

(** A line terminator occurs: line feed, carriage return, U+2028 or U+2029,
    the characters the dot of a regular expression does not match. *)
Fixpoint has_line_terminator (s : string) : bool :=
  match s with
  | EmptyString => false
  | String c rest =>
      (code_of_char c =? 10) || (code_of_char c =? 13) || starts_with_separator s ||
      has_line_terminator rest
  end.

(** [s3Uri.match(/^s3:\/\/([^\/]+)\/(.+)$/)]: the two groups. *)
Definition s3Uri_match (s3Uri : string) : option (string * string) :=
  if prefix "s3://" s3Uri then
    let rest := drop 5 s3Uri in
    match indexOf "/" rest with
    | Some i =>
        let bucket := substring 0 i rest in
        let key := drop (i + 1) rest in
        if nonempty bucket && nonempty key && negb (has_line_terminator key)
        then Some (bucket, key) else None
    | None => None
    end
  else None.

(** How the handler ends up with a bucket and a key, or answers with an
    error. *)
Inductive ObjectOutcome :=
| MustStartWithS3        (* 400, "Invalid S3 URI - must start with s3://" *)
| InvalidFormat          (* 400, "Invalid S3 URI format" *)
| BucketNotConfigured    (* 500, "Bucket name not configured" *)
| UriOrKeyRequired       (* 400, "Either s3Uri or key must be provided" *)
| BucketAndKey (bucket key : string).

(** Truthiness of an optional string: present and non-empty. *)
Definition truthy (o : option string) : bool :=
  match o with
  | Some s => nonempty s
  | None => false
  end.

(** The string held by a property known to be present. *)
Definition the (o : option string) : string :=
  match o with Some s => s | None => "" end.

(** [if (s3Uri) { ... } else if (requestKey) { ... } else { ... }]:
    [s3Uri] and [requestKey] come from the request body, [bucketName] from
    the environment or the knowledge base. *)
Definition bucket_and_key (s3Uri requestKey bucketName : option string) : ObjectOutcome :=
  if truthy s3Uri then
    if negb (prefix "s3://" (the s3Uri)) then MustStartWithS3
    else match s3Uri_match (the s3Uri) with
         | None => InvalidFormat
         | Some (bucket, key) => BucketAndKey bucket key
         end
  else if truthy requestKey then
    if negb (truthy bucketName) then BucketNotConfigured
    else BucketAndKey (the bucketName) (the requestKey)
  else UriOrKeyRequired.

End GeneratePresignedUrlHandler.

(* ================================================================== *)
(** ** Reference definitions for the properties below *)

(** Canonical headers: "name:value" and a line feed for each signed header. *)
Fixpoint render_canonical_headers (hs : list (string * string)) : string :=
  match hs with
  | [] => ""
  | (name, value) :: rest => name ++ ":" ++ value ++ LF ++ render_canonical_headers rest
  end.

(** The service key: the chain of the signing key without its last step. *)
Definition kService_chain (secretKey dateStamp region service : string) : bytes :=
  let kDate := Hmac.sign (encode ("AWS4" ++ secretKey)) (encode dateStamp) in
  let kRegion := Hmac.sign kDate (encode region) in
  Hmac.sign kRegion (encode service).

(** Only unreserved characters and "/". *)
Definition plain_path (s : string) : bool :=
  string_forallb (fun c => is_unreserved c || Ascii.eqb c "/") s.

(** Only unreserved characters, "%" and "/". *)
Definition canonical_chars (s : string) : bool :=
  string_forallb (fun c => is_unreserved c || Ascii.eqb c "%" || Ascii.eqb c "/") s.

Definition no_percent (s : string) : bool :=
  string_forallb (fun c => negb (Ascii.eqb c "%")) s.

(** Well-formed UTF-8, the byte strings that stand for JavaScript strings
    without lone surrogates. *)
Fixpoint well_formed_utf8 (s : string) : bool :=
  match s with
  | EmptyString => true
  | String a r1 =>
      if code_of_char a <? 128 then well_formed_utf8 r1
      else
        match r1 with
        | String b r2 =>
            if utf8_two (code_of_char a) (code_of_char b) then well_formed_utf8 r2
            else
              match r2 with
              | String c r3 =>
                  if utf8_three (code_of_char a) (code_of_char b) (code_of_char c)
                  then well_formed_utf8 r3
                  else
                    match r3 with
                    | String d r4 =>
                        utf8_four (code_of_char a) (code_of_char b)
                                  (code_of_char c) (code_of_char d)
                        && well_formed_utf8 r4
                    | EmptyString => false
                    end
              | EmptyString => false
              end
        | EmptyString => false
        end
  end.

(** [segment => encodeURIComponent(decodeURIComponent(segment))] over all
    segments; [None] when one of them is malformed. *)
Fixpoint normalize_segments (segments : list string) : option (list string) :=
  match segments with
  | [] => Some []
  | segment :: rest =>
      match decodeURIComponent segment, normalize_segments rest with
      | Some decoded, Some rest' => Some (encodeURIComponent decoded :: rest')
      | _, _ => None
      end
  end.

(** The canonical path of bedrock-llm/index.ts, when no segment is
    malformed. *)
Definition normalized_path (pathname : string) : option string :=
  option_map (join "/") (normalize_segments (split_on "/" pathname)).

(** The signed header names are the lower-case forms of [names], which are
    headers of the returned mapping, and the canonical headers give each of
    them the value the mapping holds. *)
Definition signed_and_returned (l : Locals) (returned : Headers) (names : list string)
  : Prop :=
  l_signedHeaders l = join ";" (map toLowerCase names) /\
  exists values,
    map (fun name => header_get name returned) names = map Some values /\
    l_canonicalHeaders l =
      render_canonical_headers (combine (map toLowerCase names) values).

(** How the values of a Signature Version 4 computation hang together, from
    the payload hash to the Authorization value, once the canonical URI,
    query string and headers are chosen. *)
Definition sigv4_locals (options : SignRequestOptions) (now : Date) (l : Locals) : Prop :=
  l_amzDate l = strip_iso_punct (toISOString now) /\
  l_dateStamp l = slice0 8 (l_amzDate l) /\
  l_payloadHash l = toHex (Sha256.digest (encode (body options))) /\
  l_canonicalRequest l =
    method options ++ LF ++ l_canonicalUri l ++ LF ++ l_canonicalQueryString l ++ LF ++
    l_canonicalHeaders l ++ LF ++ l_signedHeaders l ++ LF ++ l_payloadHash l /\
  l_credentialScope l =
    l_dateStamp l ++ "/" ++ region options ++ "/" ++ service options ++ "/aws4_request" /\
  l_stringToSign l =
    "AWS4-HMAC-SHA256" ++ LF ++ l_amzDate l ++ LF ++ l_credentialScope l ++ LF ++
    toHex (Sha256.digest (encode (l_canonicalRequest l))) /\
  l_signingKey l =
    kSigning_chain (secretAccessKey options) (l_dateStamp l)
                   (region options) (service options) /\
  l_signature l = toHex (Hmac.sign (l_signingKey l) (encode (l_stringToSign l))) /\
  l_authorizationHeader l =
    Authorization_value (accessKeyId options ++ "/" ++ l_credentialScope l)
                        (l_signedHeaders l) (l_signature l).

(** The canonical and the signed headers are what is signed: they stand in
    the canonical request, the hash of the canonical request stands in the
    string to sign, the signature is the HMAC-SHA256 tag of the string to
    sign under the signing key, and the Authorization value names the signed
    headers next to that signature. *)
Definition headers_are_signed (method : string) (l : Locals) : Prop :=
  l_canonicalRequest l =
    method ++ LF ++ l_canonicalUri l ++ LF ++ l_canonicalQueryString l ++ LF ++
    l_canonicalHeaders l ++ LF ++ l_signedHeaders l ++ LF ++ l_payloadHash l /\
  l_stringToSign l =
    "AWS4-HMAC-SHA256" ++ LF ++ l_amzDate l ++ LF ++ l_credentialScope l ++ LF ++
    toHex (Sha256.digest (encode (l_canonicalRequest l))) /\
  l_signature l = toHex (Hmac.sign (l_signingKey l) (encode (l_stringToSign l))) /\
  exists credential,
    l_authorizationHeader l =
      Authorization_value credential (l_signedHeaders l) (l_signature l).

(** A comparison function is consistent on a set of values when, among
    them, "comes no later than" ([comparefn a b <= 0]) is a total order. *)
Record consistent_order_on {A : Type} (P : A -> Prop) (comparefn : A -> A -> Z)
  : Prop := {
  order_on_total : forall a b, P a -> P b -> comparefn a b <= 0 \/ comparefn b a <= 0;
  order_on_antisym : forall a b,
      P a -> P b -> comparefn a b <= 0 -> comparefn b a <= 0 -> a = b;
  order_on_trans : forall a b c,
      P a -> P b -> P c ->
      comparefn a b <= 0 -> comparefn b c <= 0 -> comparefn a c <= 0 }.

(** The strings [encodeURIComponent2] yields: ASCII letters, digits, "-",
    "_", ".", "~" and escapes "%XX". *)
Definition percent_encoded (s : string) : Prop := exists t, s = encodeURIComponent2 t.

(** A query parameter with its key and its value percent-encoded. *)
Definition encoded_param (kv : string * string) : Prop :=
  percent_encoded (fst kv) /\ percent_encoded (snd kv).

(** Sample calls of the Bedrock endpoints. *)
Module BedrockSamples.

(** The endpoint bedrock-llm/index.ts builds for the default model. *)
Definition converse : string :=
  BedrockLlmHandler.converse_endpoint "us-east-1" BedrockLlmHandler.DEFAULT_MODEL.

Definition converse_encoded : string :=
  "https://bedrock-runtime.us-east-1.amazonaws.com/model/anthropic.claude-3-5-sonnet-20240620-v1%3A0/converse".

Definition converse_malformed : string :=
  "https://bedrock-runtime.us-east-1.amazonaws.com/model/100%/converse".

Definition foundation_models : string :=
  "https://bedrock.us-east-1.amazonaws.com/foundation-models".

Definition foundation_models_by_provider : string :=
  "https://bedrock.us-east-1.amazonaws.com/foundation-models?byProvider=anthropic".

Definition runtime_host : string := "bedrock-runtime.us-east-1.amazonaws.com".

(** What [new URL] yields on the sample URLs. *)
Definition URL_parse (s : string) : option URL :=
  if String.eqb s converse then
    Some (mkURL runtime_host "/model/anthropic.claude-3-5-sonnet-20240620-v1:0/converse" "" [])
  else if String.eqb s converse_encoded then
    Some (mkURL runtime_host "/model/anthropic.claude-3-5-sonnet-20240620-v1%3A0/converse"
                "" [])
  else if String.eqb s converse_malformed then
    Some (mkURL runtime_host "/model/100%/converse" "" [])
  else if String.eqb s foundation_models then
    Some (mkURL "bedrock.us-east-1.amazonaws.com" "/foundation-models" "" [])
  else if String.eqb s foundation_models_by_provider then
    Some (mkURL "bedrock.us-east-1.amazonaws.com" "/foundation-models"
                "byProvider=anthropic" [("byProvider", "anthropic")])
  else None.

Definition world : World := mkWorld URL_parse (fun _ => Samples.may_24_2013) 0 0.

Definition call (method url body : string) : SignRequestOptions :=
  mkOptions method url body "us-east-1" "bedrock" "AKIDEXAMPLE" Samples.secret.

End BedrockSamples.

(** The options of a call with another URL. *)
Definition with_url (options : SignRequestOptions) (url' : string) : SignRequestOptions :=
  mkOptions (method options) url' (body options) (region options) (service options)
            (accessKeyId options) (secretAccessKey options).

(** Percent-encoding of a path, byte by byte: "/" and the unreserved
    characters stay, every other byte becomes "%XX". *)
Definition uri_encode_path (path : string) : string :=
  flat_map_string
    (fun c => if Ascii.eqb c "/" then "/"
              else if is_unreserved c then String c "" else percent_byte c)
    path.

(** No occurrence of the character [c]. *)
Definition without (c : ascii) (s : string) : bool :=
  string_forallb (fun x => negb (Ascii.eqb x c)) s.

(** What [decodeURIComponent] reads of the [encodeURIComponent] encoding of
    one byte: the byte as it is when it is kept, else its escape. *)
Definition token_of (c : ascii) : uri_token :=
  if is_alnum c || char_in "-_.!~*'()" c then Raw c else Escaped (code_of_char c).

(** A prefix with a "/" at its end, unless it is empty. *)
Definition as_folder (prefix : string) : string :=
  if String.eqb prefix "" || endsWith "/" prefix then prefix else prefix ++ "/".

(* ------------------------------------------------------------------ *)
(** *** supabase/functions/list-repository-files/index.ts: the query of the
    listing URL (lines 113-122; list-s3-objects/index.ts builds the same
    query, lines 210-218) *)
Module ListRepositoryFilesHandler.

(** The parameters set on the URL, in the order of the calls of
    [searchParams.set]; the keys differ, so each call adds a pair. *)
Definition listing_params (maxKeys prefix continuationToken : string)
  : list (string * string) :=
  ([("list-type", "2"); ("max-keys", maxKeys)] ++
   (if nonempty prefix then [("prefix", prefix)] else []) ++
   (if nonempty continuationToken then [("continuation-token", continuationToken)]
    else []))%list.

End ListRepositoryFilesHandler.

(* ------------------------------------------------------------------ *)
(** *** src/components/ModelSelector.tsx: the name shown for an object *)
Module S3BucketBrowser.

(** [parts[parts.length - 1] || key] *)
Definition getFileName (key : string) : string :=
  let parts := split_on "/" key in
  or_else (last parts "") key.

End S3BucketBrowser.

(* ------------------------------------------------------------------ *)
(** *** [Map] and [Set] of JavaScript, with string keys *)

(** A [Map] with string keys: the entries in insertion order. *)
Definition Map (V : Type) : Type := list (string * V).

Fixpoint Map_has {V} (key : string) (m : Map V) : bool :=
  match m with
  | [] => false
  | (k, _) :: rest => String.eqb k key || Map_has key rest
  end.

(** [m.set(key, value)]: the value of a key that is present is replaced
    where it stands, a new key is added at the end. *)
Fixpoint Map_set {V} (key : string) (value : V) (m : Map V) : Map V :=
  match m with
  | [] => [(key, value)]
  | (k, v) :: rest =>
      if String.eqb k key then (k, value) :: rest
      else (k, v) :: Map_set key value rest
  end.

Definition Map_values {V} (m : Map V) : list V := map snd m.

(** [m.get(key)]; [None] stands for [undefined]. *)
Fixpoint Map_get {V} (key : string) (m : Map V) : option V :=
  match m with
  | [] => None
  | (k, v) :: rest => if String.eqb k key then Some v else Map_get key rest
  end.

(** A [Set] of strings: its elements in insertion order, none twice. *)
Definition StringSet : Type := list string.

Definition Set_has (key : string) (s : StringSet) : bool := existsb (String.eqb key) s.

Definition Set_add (key : string) (s : StringSet) : StringSet :=
  if Set_has key s then s else (s ++ [key])%list.

Definition Set_delete (key : string) (s : StringSet) : StringSet :=
  filter (fun x => negb (String.eqb x key)) s.

(* ------------------------------------------------------------------ *)
(** *** supabase/functions/list-foundation-models/index.ts: the models that
    are returned (lines 152-198) *)
Module ListFoundationModelsHandler.

Record FoundationModel := mkFoundationModel {
  modelArn : string;
  modelId : string;
  modelName : string;
  providerName : string;
  inputModalities : list string;
  outputModalities : list string;
  responseStreamingSupported : bool;
  inferenceProfileId : option string;
  inferenceProfileName : option string;
  inferenceProfileArn : option string }.

(** An inference profile of the second listing; [models] holds the
    [modelArn] of each of its entries. *)
Module Profile.
Record InferenceProfile := mkInferenceProfile {
  inferenceProfileArn : string;
  inferenceProfileId : string;
  inferenceProfileName : string;
  models : list string;
  status : string;
  type : string }.
End Profile.

(** The values of [profileMap]. *)
Record ProfileEntry := mkProfileEntry {
  id : string;
  name : string;
  arn : string }.

(** The two nested [forEach] that fill [profileMap] (lines 175-183). *)
Definition add_profile (profileMap : Map ProfileEntry) (profile : Profile.InferenceProfile)
  : Map ProfileEntry :=
  fold_left
    (fun m model =>
       Map_set model
               (mkProfileEntry (Profile.inferenceProfileId profile)
                               (Profile.inferenceProfileName profile)
                               (Profile.inferenceProfileArn profile))
               m)
    (Profile.models profile) profileMap.

(** [profileMap]; it stays empty when the listing of the profiles failed. *)
Definition profileMap (profilesOk : bool) (profiles : list Profile.InferenceProfile)
  : Map ProfileEntry :=
  if profilesOk then fold_left add_profile profiles [] else [].

(** [{...model, inferenceProfileId: profile?.id, ...}] *)
Definition with_profile (m : Map ProfileEntry) (model : FoundationModel) : FoundationModel :=
  let profile := Map_get (modelArn model) m in
  mkFoundationModel (modelArn model) (modelId model) (modelName model)
                    (providerName model) (inputModalities model) (outputModalities model)
                    (responseStreamingSupported model)
                    (option_map id profile) (option_map name profile)
                    (option_map arn profile).

(** The models of the response: [modelsWithProfiles], then
    [streamingModels]. *)
Definition streamingModels (profilesOk : bool) (profiles : list Profile.InferenceProfile)
           (models : list FoundationModel) : list FoundationModel :=
  let modelsWithProfiles := map (with_profile (profileMap profilesOk profiles)) models in
  filter (fun model =>
            responseStreamingSupported model &&
            BedrockLlmSigner.truthy (inferenceProfileId model) &&
            BedrockLlmSigner.truthy (inferenceProfileName model))
         modelsWithProfiles.

End ListFoundationModelsHandler.

(** The last profile of a listing that names a model. *)
Fixpoint last_profile_for (modelArn : string)
         (profiles : list ListFoundationModelsHandler.Profile.InferenceProfile)
  : option ListFoundationModelsHandler.Profile.InferenceProfile :=
  match profiles with
  | [] => None
  | profile :: rest =>
      match last_profile_for modelArn rest with
      | Some later => Some later
      | None =>
          if existsb (String.eqb modelArn)
                     (ListFoundationModelsHandler.Profile.models profile)
          then Some profile else None
      end
  end.

(* ------------------------------------------------------------------ *)
(** *** src/components/RepositoryBrowser.tsx: the items of a folder *)
Module RepositoryBrowser.

Record S3Object := mkS3Object {
  Key : string;
  Size : Z;
  LastModified : string }.

Record FolderItem := mkFolderItem {
  name : string;
  path : string;
  isFolder : bool;
  size : option Z;
  lastModified : option string }.

(** [loadRepositoryFiles] keeps the objects of the listing that have a
    size (lines 60-63). *)
Definition fileObjects (contents : list S3Object) : list S3Object :=
  filter (fun obj => 0 <? Size obj) contents.

(** The body of the [forEach] of [getCurrentFolderItems] (lines 76-99). *)
Definition add_file (prefix : string) (items : Map FolderItem) (file : S3Object)
  : Map FolderItem :=
  if negb (String.prefix prefix (Key file)) then items
  else
    let relativePath := drop (String.length prefix) (Key file) in
    match indexOf "/" relativePath with
    | None =>
        Map_set (Key file)
                (mkFolderItem relativePath (Key file) false
                              (Some (Size file)) (Some (LastModified file)))
                items
    | Some slashIndex =>
        let folderName := substring 0 slashIndex relativePath in
        let folderPath := prefix ++ folderName in
        if negb (Map_has folderPath items)
        then Map_set folderPath (mkFolderItem folderName folderPath true None None) items
        else items
    end.

(** Folders first, then by name. *)
Definition compare_items (localeCompare : string -> string -> Z) (a b : FolderItem) : Z :=
  if isFolder a && negb (isFolder b) then -1
  else if negb (isFolder a) && isFolder b then 1
  else localeCompare (name a) (name b).

(** [currentPath ? `${currentPath}/` : ''] *)
Definition current_prefix (currentPath : string) : string :=
  if nonempty currentPath then currentPath ++ "/" else "".

Definition getCurrentFolderItems (localeCompare : string -> string -> Z)
           (currentPath : string) (allFiles : list S3Object) : list FolderItem :=
  let prefix := current_prefix currentPath in
  let items := fold_left (add_file prefix) allFiles [] in
  Array_sort (compare_items localeCompare) (Map_values items).

(** The state of the browser that the handlers below read and set; the
    listing, loaded once, is a parameter. *)
Record State := mkState {
  currentPath : string;
  selectedFiles : StringSet }.

Definition initial : State := mkState "" [].

Definition toggleFileSelection (fileKey : string) (st : State) : State :=
  let prev := selectedFiles st in
  mkState (currentPath st)
          (if Set_has fileKey prev then Set_delete fileKey prev else Set_add fileKey prev).

Definition visibleFiles (localeCompare : string -> string -> Z)
           (allFiles : list S3Object) (st : State) : list FolderItem :=
  filter (fun item => negb (isFolder item))
         (getCurrentFolderItems localeCompare (currentPath st) allFiles).

Definition toggleSelectAll (localeCompare : string -> string -> Z)
           (allFiles : list S3Object) (st : State) : State :=
  let filePaths := map path (visibleFiles localeCompare allFiles st) in
  if forallb (fun p => Set_has p (selectedFiles st)) filePaths
  then mkState (currentPath st)
               (fold_left (fun newSet p => Set_delete p newSet) filePaths (selectedFiles st))
  else mkState (currentPath st)
               (fold_left (fun newSet p => Set_add p newSet) filePaths (selectedFiles st)).

Definition navigateToPath (p : string) (st : State) : State :=
  mkState p (selectedFiles st).

Definition handleItemClick (item : FolderItem) (st : State) : State :=
  if isFolder item then navigateToPath (path item) st
  else toggleFileSelection (path item) st.

Definition getPathSegments (st : State) : list string :=
  if nonempty (currentPath st) then split_on "/" (currentPath st) else [].

(** What a user can do in the browser: click a shown item, go to the root
    or to a segment of the breadcrumb, select or deselect all. *)
Inductive step (localeCompare : string -> string -> Z) (allFiles : list S3Object)
  : State -> State -> Prop :=
| step_click st item :
    In item (getCurrentFolderItems localeCompare (currentPath st) allFiles) ->
    step localeCompare allFiles st (handleItemClick item st)
| step_root st :
    step localeCompare allFiles st (navigateToPath "" st)
| step_breadcrumb st index :
    (index < List.length (getPathSegments st))%nat ->
    step localeCompare allFiles st
         (navigateToPath (join "/" (firstn (index + 1) (getPathSegments st))) st)
| step_select_all st :
    step localeCompare allFiles st (toggleSelectAll localeCompare allFiles st).

Inductive reachable (localeCompare : string -> string -> Z) (allFiles : list S3Object)
  : State -> Prop :=
| reachable_initial : reachable localeCompare allFiles initial
| reachable_step st st' :
    reachable localeCompare allFiles st -> step localeCompare allFiles st st' ->
    reachable localeCompare allFiles st'.

End RepositoryBrowser.

(** The key of an object of the listing. *)
Definition listed (allFiles : list RepositoryBrowser.S3Object) (key : string) : Prop :=
  exists file, In file allFiles /\ RepositoryBrowser.Key file = key.

(** An item is a direct child of the folder with the given prefix. *)
Definition child_of_folder (prefix : string) (item : RepositoryBrowser.FolderItem) : Prop :=
  RepositoryBrowser.path item = prefix ++ RepositoryBrowser.name item /\
  no_slash (RepositoryBrowser.name item) = true.

(** An item stands for files of the listing: a file item for the object of
    its path, whose size and date it holds, a folder item for an object
    under its path. *)
Definition stands_for (allFiles : list RepositoryBrowser.S3Object)
           (item : RepositoryBrowser.FolderItem) : Prop :=
  exists file,
    In file allFiles /\
    if RepositoryBrowser.isFolder item
    then String.prefix (RepositoryBrowser.path item ++ "/") (RepositoryBrowser.Key file) = true
    else RepositoryBrowser.Key file = RepositoryBrowser.path item /\
         RepositoryBrowser.size item = Some (RepositoryBrowser.Size file) /\
         RepositoryBrowser.lastModified item = Some (RepositoryBrowser.LastModified file).

(** An entry of the map of [getCurrentFolderItems]: keyed by its path. *)
Definition entry_ok (prefix : string) (allFiles : list RepositoryBrowser.S3Object)
           (kv : string * RepositoryBrowser.FolderItem) : Prop :=
  RepositoryBrowser.path (snd kv) = fst kv /\
  child_of_folder prefix (snd kv) /\ stands_for allFiles (snd kv).

(** A file under the prefix is shown, as itself or by a folder above it. *)
Definition covered (prefix : string) (paths : list string)
           (file : RepositoryBrowser.S3Object) : Prop :=
  String.prefix prefix (RepositoryBrowser.Key file) = true ->
  exists k,
    In k paths /\
    (k = RepositoryBrowser.Key file \/
     String.prefix (k ++ "/") (RepositoryBrowser.Key file) = true).

(** No folder of the map of [getCurrentFolderItems] has the key of an
    object met so far. *)
Definition folders_apart (done : list RepositoryBrowser.S3Object)
           (m : Map RepositoryBrowser.FolderItem) : Prop :=
  forall kv, In kv m -> RepositoryBrowser.isFolder (snd kv) = true ->
  forall file, In file done -> RepositoryBrowser.Key file <> fst kv.

(** A folder never stands after a file. *)
Definition folder_before (a b : RepositoryBrowser.FolderItem) : Prop :=
  RepositoryBrowser.isFolder b = true -> RepositoryBrowser.isFolder a = true.

(** Characters both the form serializer of [URLSearchParams] and the
    percent-encoding of generate-upload-url treat alike: all but the space,
    "*" and "~". *)
Definition form_stable (s : string) : bool :=
  string_forallb (fun c => negb (char_in " *~" c)) s.

(* ================================================================== *)
(** * Properties *)

(** ** The primitives agree with the published test vectors *)

Example sha256_empty :
  toHex (Sha256.digest []) =
  "e3b0c44298fc1c149afbf4c8996fb92427ae41e4649b934ca495991b7852b855".
Proof. vm_compute. reflexivity. Qed.

Example sha256_abc :
  toHex (Sha256.digest (TextEncoder_encode "abc")) =
  "ba7816bf8f01cfea414140de5dae2223b00361a396177a9cb410ff61f20015ad".
Proof. vm_compute. reflexivity. Qed.

Example sha256_two_blocks :
  toHex (Sha256.digest (TextEncoder_encode
    "abcdbcdecdefdefgefghfghighijhijkijkljklmklmnlmnomnopnopq")) =
  "248d6a61d20638b8e5c026930c3e6039a33ce45964ff2167f6ecedd419db06c1".
Proof. vm_compute. reflexivity. Qed.

Example hmac_rfc4231_case2 :
  toHex (Hmac.sign (TextEncoder_encode "Jefe")
                   (TextEncoder_encode "what do ya want for nothing?")) =
  "5bdcc146bf60754e6a042426089575c75a003f089d2739839dec58b964ec3843".
Proof. vm_compute. reflexivity. Qed.

(** ** Generic facts on strings, bytes and hexadecimal rendering *)

Lemma range_check (P : Z -> bool) (N : Z) :
  forallb P (map Z.of_nat (seq 0 (Z.to_nat N))) = true ->
  forall x, 0 <= x < N -> P x = true.
Proof.
  intros H x Hx. rewrite forallb_forall in H. apply H.
  apply in_map_iff. exists (Z.to_nat x). split; [lia|].
  apply in_seq. lia.
Qed.

Lemma append_empty_r (s : string) : s ++ "" = s.
Proof. induction s as [|c s IH]; simpl; [reflexivity | now rewrite IH]. Qed.

Lemma append_assoc (a b c : string) : (a ++ b) ++ c = a ++ b ++ c.
Proof. induction a as [|x a IH]; simpl; [reflexivity | now rewrite IH]. Qed.

Lemma length_append (a b : string) :
  String.length (a ++ b) = (String.length a + String.length b)%nat.
Proof. induction a as [|x a IH]; simpl; [reflexivity | now rewrite IH]. Qed.

Lemma string_forallb_append (p : ascii -> bool) (a b : string) :
  string_forallb p (a ++ b) = string_forallb p a && string_forallb p b.
Proof.
  induction a as [|x a IH]; simpl; [reflexivity|].
  now rewrite IH, andb_assoc.
Qed.

Lemma join_empty_cons (x : string) (l : list string) :
  join "" (x :: l) = x ++ join "" l.
Proof.
  destruct l as [|y l]; simpl; [now rewrite append_empty_r | reflexivity].
Qed.

Lemma byte_hex_two_digits (b : Z) : is_byte b -> byte_hex_ok b = true.
Proof.
  intros Hb. apply (range_check byte_hex_ok 256); [vm_compute; reflexivity | exact Hb].
Qed.

Lemma toHex_cons (b : Z) (bs : bytes) :
  toHex (b :: bs) = padStart0 2 (toString16 b) ++ toHex bs.
Proof. unfold toHex. cbn [map]. apply join_empty_cons. Qed.

Lemma toHex_shape (bs : bytes) :
  Forall is_byte bs ->
  String.length (toHex bs) = (2 * List.length bs)%nat /\
  string_forallb is_lower_hex (toHex bs) = true.
Proof.
  induction 1 as [|b bs Hb _ [IHlen IHhex]]; [split; reflexivity|].
  rewrite toHex_cons, length_append, string_forallb_append, IHlen, IHhex.
  apply byte_hex_two_digits in Hb. unfold byte_hex_ok in Hb.
  apply andb_true_iff in Hb as [Hlen Hhex]. apply Nat.eqb_eq in Hlen.
  rewrite Hlen, Hhex. cbn [List.length]. split; [lia | reflexivity].
Qed.

Lemma be_bytes_shape (n : nat) (x : Z) :
  List.length (Sha256.be_bytes n x) = n /\ Forall is_byte (Sha256.be_bytes n x).
Proof.
  unfold Sha256.be_bytes. split.
  - now rewrite length_map, length_rev, length_seq.
  - apply Forall_map, Forall_forall. intros i _. unfold is_byte.
    apply Z.mod_pos_bound. lia.
Qed.

(** A SHA-256 digest is 32 bytes, whatever the message. *)
Lemma digest_shape (msg : bytes) :
  List.length (Sha256.digest msg) = 32%nat /\ Forall is_byte (Sha256.digest msg).
Proof.
  unfold Sha256.digest, Sha256.output.
  set (s := Sha256.blocks _ _ _). split.
  - rewrite !length_app.
    now rewrite !(proj1 (be_bytes_shape 4 _)).
  - repeat (apply Forall_app; split); apply be_bytes_shape.
Qed.

Lemma hmac_shape (key data : bytes) :
  List.length (Hmac.sign key data) = 32%nat /\ Forall is_byte (Hmac.sign key data).
Proof. unfold Hmac.sign. apply digest_shape. Qed.

(** The hexadecimal rendering of an HMAC-SHA256 tag: 64 characters of
    [0-9a-f]. *)
Lemma hmac_hex_shape (key data : bytes) :
  String.length (toHex (Hmac.sign key data)) = 64%nat /\
  string_forallb is_lower_hex (toHex (Hmac.sign key data)) = true.
Proof.
  destruct (hmac_shape key data) as [Hlen Hall].
  destruct (toHex_shape _ Hall) as [H1 H2]. rewrite Hlen in H1. now split.
Qed.

(** ** Running the signers *)

Lemma importKey_AWS4 (key : string) (w : World) :
  subtle_importKey (encode ("AWS4" ++ key)) w =
  (Normal (HmacKey (encode ("AWS4" ++ key))), tick_subtle w).
Proof. reflexivity. Qed.

Lemma importKey_hmac (key data : bytes) (w : World) :
  subtle_importKey (Hmac.sign key data) w =
  (Normal (HmacKey (Hmac.sign key data)), tick_subtle w).
Proof.
  unfold subtle_importKey. pose proof (proj1 (hmac_shape key data)) as Hlen.
  destruct (Hmac.sign key data); [discriminate Hlen | reflexivity].
Qed.

Ltac js_reduce :=
  cbv beta iota zeta delta
    [bind ret throw new_URL new_Date subtle_digest subtle_sign
     tick_subtle key_bytes fst snd advance
     URL_parse clock clock_reads subtle_calls].

(** Reduce a run up to the next key import, import the key (never empty:
    it starts with "AWS4" or is an HMAC tag), and go on. *)
Ltac js_step :=
  repeat (js_reduce; first [rewrite importKey_AWS4 | rewrite importKey_hmac]);
  js_reduce.

Ltac unfold_signers :=
  unfold BedrockLlmSigner.signRequest_locals, BedrockLlmSigner.resolve_target,
         BedrockLlmSigner.getSignatureKey,
         ListFoundationModelsSigner.signRequest_locals,
         ListFoundationModelsSigner.getSignatureKey,
         ListFoundationModelsSigner.hmac, ListFoundationModelsSigner.sha256,
         GenerateUploadUrlSigner.signRequest_locals,
         GenerateUploadUrlSigner.getSignatureKey,
         GenerateUploadUrlSigner.hmac, GenerateUploadUrlSigner.sha256,
         ListRepositoryFilesSigner.signRequest_locals, ListRepositoryFilesSigner.hmac,
         ListS3ObjectsSigner.signRequest_locals, ListS3ObjectsSigner.getSignatureKey,
         ListS3ObjectsSigner.hmac, ListS3ObjectsSigner.hmacBinary,
         ListS3ObjectsSigner.hash,
         Part001Signer.signRequest_locals, Part001Signer.hmac, Part001Signer.sha256,
         Part001Signer.hexEncode.

(** A signer that takes a URL, run in a world where the URL parses. *)
Ltac run_with_url Hparse :=
  unfold_signers;
  match type of Hparse with
  | URL_parse ?w ?s = Some ?u =>
      destruct w as [parse clk reads calls]; cbn [URL_parse] in Hparse;
      unfold bind at 1; unfold new_URL at 1; cbn [URL_parse];
      try rewrite Hparse; js_step; try rewrite Hparse
  end.

Lemma Normal_pair_inv {A} (a b : A) (w w' : World) :
  (Normal a, w) = (Normal b, w') -> a = b /\ w = w'.
Proof. intros H. injection H as Ha Hw. now split. Qed.

Ltac project_locals :=
  cbv beta iota delta
    [l_host l_canonicalUri l_canonicalQueryString l_amzDate l_dateStamp
     l_payloadHash l_canonicalHeaders l_signedHeaders l_canonicalRequest
     l_credentialScope l_stringToSign l_signingKey l_signature
     l_authorizationHeader].

(** From a completed run to the locals it computed. *)
Ltac finish_run H :=
  first [ discriminate H
        | apply Normal_pair_inv in H; destruct H as [<- <-]; project_locals ].

Lemma Authorization_value_join (c sh sig : string) :
  join ", " ["AWS4-HMAC-SHA256 Credential=" ++ c; "SignedHeaders=" ++ sh;
             "Signature=" ++ sig] =
  Authorization_value c sh sig.
Proof.
  unfold Authorization_value. cbn [join].
  rewrite !append_assoc. reflexivity.
Qed.

Lemma Authorization_value_template (key scope sh sig : string) :
  "AWS4-HMAC-SHA256" ++ " Credential=" ++ key ++ "/" ++ scope ++
  ", SignedHeaders=" ++ sh ++ ", Signature=" ++ sig =
  Authorization_value (key ++ "/" ++ scope) sh sig.
Proof.
  unfold Authorization_value. rewrite !append_assoc. reflexivity.
Qed.

Lemma Authorization_value_literal (key scope sh sig : string) :
  "AWS4-HMAC-SHA256 Credential=" ++ key ++ "/" ++ scope ++
  ", SignedHeaders=" ++ sh ++ ", Signature=" ++ sig =
  Authorization_value (key ++ "/" ++ scope) sh sig.
Proof.
  unfold Authorization_value. rewrite !append_assoc. reflexivity.
Qed.

Lemma BedrockLlm_signRequest_inv p w h w' :
  BedrockLlmSigner.signRequest p w = (Normal h, w') ->
  exists l, BedrockLlmSigner.signRequest_locals p w = (Normal l, w') /\
            h = BedrockLlmSigner.result l.
Proof.
  unfold BedrockLlmSigner.signRequest, bind, ret.
  destruct (BedrockLlmSigner.signRequest_locals p w) as [[l|e] w1]; intros H;
    [injection H as <- <- | discriminate H].
  now exists l.
Qed.

Lemma ListS3Objects_signRequest_inv p w h w' :
  ListS3ObjectsSigner.signRequest p w = (Normal h, w') ->
  exists l, ListS3ObjectsSigner.signRequest_locals p w = (Normal l, w') /\
            h = ListS3ObjectsSigner.result l.
Proof.
  unfold ListS3ObjectsSigner.signRequest, bind, ret.
  destruct (ListS3ObjectsSigner.signRequest_locals p w) as [[l|e] w1]; intros H;
    [injection H as <- <- | discriminate H].
  now exists l.
Qed.

Lemma BedrockLlm_locals_signature p w l w' :
  BedrockLlmSigner.signRequest_locals p w = (Normal l, w') ->
  l_signature l = toHex (Hmac.sign (l_signingKey l) (encode (l_stringToSign l))) /\
  l_authorizationHeader l =
    Authorization_value (BedrockLlmSigner.accessKeyId p ++ "/" ++ l_credentialScope l)
                        "host;x-amz-date" (l_signature l).
Proof.
  destruct w as [parse clk reads calls]. unfold_signers.
  destruct (BedrockLlmSigner.truthy (BedrockLlmSigner.url p)).
  - unfold bind at 1. unfold bind at 1. unfold new_URL at 1. cbn [URL_parse].
    destruct (parse _) as [u|]; js_step; intros H; finish_run H.
    split; [reflexivity | apply Authorization_value_join].
  - destruct (BedrockLlmSigner.truthy (BedrockLlmSigner.host p) &&
              BedrockLlmSigner.truthy (BedrockLlmSigner.path p));
      js_step; intros H; finish_run H.
    split; [reflexivity | apply Authorization_value_join].
Qed.

Lemma ListS3Objects_locals_signature p w l w' :
  ListS3ObjectsSigner.signRequest_locals p w = (Normal l, w') ->
  l_signature l = toHex (Hmac.sign (l_signingKey l) (encode (l_stringToSign l))) /\
  l_authorizationHeader l =
    Authorization_value (accessKeyId p ++ "/" ++ l_credentialScope l)
                        "host;x-amz-date" (l_signature l).
Proof.
  destruct w as [parse clk reads calls]. unfold_signers.
  unfold bind at 1. unfold new_URL at 1. cbn [URL_parse].
  destruct (parse _) as [u|]; js_step; intros H; finish_run H.
  split; [reflexivity | apply Authorization_value_join].
Qed.

Lemma sha256_empty_string : toHex (Sha256.digest (encode "")) = EMPTY_SHA256.
Proof. vm_compute. reflexivity. Qed.

Lemma search_nonempty (u : URL) : query u <> "" -> search u = "?" ++ query u.
Proof.
  intros Hq. unfold search.
  destruct (String.eqb_spec (query u) ""); [contradiction | reflexivity].
Qed.

Lemma BedrockLlm_result_Authorization l :
  header_get "Authorization" (BedrockLlmSigner.result l) = Some (l_authorizationHeader l).
Proof. reflexivity. Qed.

Lemma ListFoundationModels_result_Authorization l :
  header_get "Authorization" (ListFoundationModelsSigner.result l) =
  Some (l_authorizationHeader l).
Proof. reflexivity. Qed.

Lemma ListRepositoryFiles_result_Authorization l :
  header_get "Authorization" (ListRepositoryFilesSigner.result l) =
  Some (l_authorizationHeader l).
Proof. reflexivity. Qed.

Lemma ListS3Objects_result_Authorization l :
  header_get "Authorization" (ListS3ObjectsSigner.result l) =
  Some (l_authorizationHeader l).
Proof. reflexivity. Qed.

Lemma BedrockLlm_run_resolved p w :
  target_resolves p w = true ->
  exists l, BedrockLlmSigner.signRequest_locals p w = (Normal l, advance 1 10 w).
Proof.
  destruct w as [parse clk reads calls]. unfold target_resolves. cbn [URL_parse].
  unfold_signers.
  destruct (BedrockLlmSigner.truthy (BedrockLlmSigner.url p)).
  - unfold bind at 1. unfold bind at 1. unfold new_URL at 1. cbn [URL_parse].
    destruct (parse _) as [u|]; intros H; [|discriminate H].
    js_step. eexists. reflexivity.
  - intros ->. js_step. eexists. reflexivity.
Qed.

Lemma BedrockLlm_run_unresolved p w :
  target_resolves p w = false ->
  exists e, BedrockLlmSigner.signRequest_locals p w = (Throw e, w).
Proof.
  destruct w as [parse clk reads calls]. unfold target_resolves. cbn [URL_parse].
  unfold_signers.
  destruct (BedrockLlmSigner.truthy (BedrockLlmSigner.url p)).
  - unfold bind at 1. unfold bind at 1. unfold new_URL at 1. cbn [URL_parse].
    destruct (parse _) as [u|]; intros H; [discriminate H|].
    js_step. eexists. reflexivity.
  - intros ->. js_step. eexists. reflexivity.
Qed.

Lemma BedrockLlm_signRequest_resolved p w :
  target_resolves p w = true ->
  exists l,
    BedrockLlmSigner.signRequest_locals p w = (Normal l, advance 1 10 w) /\
    BedrockLlmSigner.signRequest p w =
      (Normal (BedrockLlmSigner.result l), advance 1 10 w).
Proof.
  intros Ht. destruct (BedrockLlm_run_resolved p w Ht) as [l Hl].
  exists l. split; [exact Hl|].
  unfold BedrockLlmSigner.signRequest, bind. now rewrite Hl.
Qed.

(** ** Signature shape *)

(** C10. Whenever [signRequest] (bedrock-llm/aws-signer.ts, and the signer
    embedded in list-s3-objects/index.ts) returns, the Signature component of
    its Authorization header is exactly 64 characters of [0-9a-f]; the [hmac]
    helper of list-s3-objects renders the tag under any non-empty key that
    way. *)
Theorem signature_is_64_lowercase_hex :
  (forall p w h w',
     BedrockLlmSigner.signRequest p w = (Normal h, w') ->
     exists credential signature,
       header_get "Authorization" h =
         Some (Authorization_value credential "host;x-amz-date" signature) /\
       hex64 signature) /\
  (forall p w h w',
     ListS3ObjectsSigner.signRequest p w = (Normal h, w') ->
     exists credential signature,
       header_get "Authorization" h =
         Some (Authorization_value credential "host;x-amz-date" signature) /\
       hex64 signature) /\
  (forall key data w,
     key <> [] ->
     exists signature,
       ListS3ObjectsSigner.hmac key data w = (Normal signature, advance 0 2 w) /\
       hex64 signature).
Proof.
  split; [|split].
  - intros p w h w' H.
    apply BedrockLlm_signRequest_inv in H as (l & Hl & ->).
    apply BedrockLlm_locals_signature in Hl as [Hsig Hauth].
    exists (BedrockLlmSigner.accessKeyId p ++ "/" ++ l_credentialScope l), (l_signature l).
    split.
    + rewrite BedrockLlm_result_Authorization. now rewrite Hauth.
    + rewrite Hsig. apply hmac_hex_shape.
  - intros p w h w' H.
    apply ListS3Objects_signRequest_inv in H as (l & Hl & ->).
    apply ListS3Objects_locals_signature in Hl as [Hsig Hauth].
    exists (accessKeyId p ++ "/" ++ l_credentialScope l), (l_signature l).
    split.
    + rewrite ListS3Objects_result_Authorization. now rewrite Hauth.
    + rewrite Hsig. apply hmac_hex_shape.
  - intros key data [parse clk reads calls] Hkey.
    exists (toHex (Hmac.sign key (encode data))). split.
    + destruct key as [|b key]; [contradiction | reflexivity].
    + apply hmac_hex_shape.
Qed.

Lemma signature_is_64_lowercase_hex_witness :
  exists h w',
    BedrockLlmSigner.signRequest Samples.get_test_txt Samples.world = (Normal h, w') /\
    exists credential signature,
      header_get "Authorization" h =
        Some (Authorization_value credential "host;x-amz-date" signature) /\
      hex64 signature.
Proof.
  destruct (BedrockLlm_signRequest_resolved Samples.get_test_txt Samples.world eq_refl)
    as (l & _ & Hrun).
  eexists. eexists. split; [exact Hrun|].
  exact (proj1 signature_is_64_lowercase_hex _ _ _ _ Hrun).
Defined.

(** ** Signing key and signature *)

(** C6. The signing key is the result of four chained HMAC-SHA256
    operations, each keyed by the previous result, starting from
    "AWS4" + secretAccessKey over the date stamp, then region, service and
    "aws4_request" ([getSignatureKey] of list-foundation-models, and the
    in-line chain of list-repository-files); the signature placed in the
    Authorization header is the lower-case hexadecimal HMAC-SHA256 of the
    string to sign under that key. *)
Theorem signing_key_is_four_chained_hmacs :
  (forall key dateStamp regionName serviceName w,
     ListFoundationModelsSigner.getSignatureKey key dateStamp regionName serviceName w =
       (Normal (kSigning_chain key dateStamp regionName serviceName), advance 0 8 w)) /\
  (forall p w u,
     URL_parse w (url p) = Some u ->
     exists l,
       ListFoundationModelsSigner.signRequest_locals p w = (Normal l, advance 1 12 w) /\
       l_signingKey l =
         kSigning_chain (secretAccessKey p) (l_dateStamp l) (region p) (service p) /\
       l_signature l = toHex (Hmac.sign (l_signingKey l) (encode (l_stringToSign l))) /\
       header_get "Authorization" (ListFoundationModelsSigner.result l) =
         Some (Authorization_value (accessKeyId p ++ "/" ++ l_credentialScope l)
                                   "content-type;host;x-amz-date" (l_signature l))) /\
  (forall p w u,
     URL_parse w (url p) = Some u ->
     exists l,
       ListRepositoryFilesSigner.signRequest_locals p w = (Normal l, advance 1 12 w) /\
       l_signingKey l =
         kSigning_chain (secretAccessKey p) (l_dateStamp l) (region p) (service p) /\
       l_signature l = toHex (Hmac.sign (l_signingKey l) (encode (l_stringToSign l))) /\
       header_get "Authorization" (ListRepositoryFilesSigner.result l) =
         Some (Authorization_value (accessKeyId p ++ "/" ++ l_credentialScope l)
                                   "host;x-amz-date" (l_signature l))).
Proof.
  split; [|split].
  - intros key dateStamp regionName serviceName [parse clk reads calls].
    unfold_signers. js_step. reflexivity.
  - intros p w u Hparse. run_with_url Hparse.
    eexists. split; [reflexivity|]. project_locals.
    split; [reflexivity|]. split; [reflexivity|].
    rewrite ListFoundationModels_result_Authorization. project_locals.
    f_equal. apply Authorization_value_template.
  - intros p w u Hparse. run_with_url Hparse.
    eexists. split; [reflexivity|]. project_locals.
    split; [reflexivity|]. split; [reflexivity|].
    rewrite ListRepositoryFiles_result_Authorization. project_locals.
    f_equal. apply Authorization_value_literal.
Qed.

Lemma signing_key_is_four_chained_hmacs_witness :
  exists l,
    ListRepositoryFilesSigner.signRequest_locals
      (Samples.get_url Samples.url_listing) Samples.world =
      (Normal l, advance 1 12 Samples.world) /\
    l_signingKey l =
      kSigning_chain Samples.secret (l_dateStamp l) "us-east-1" "s3" /\
    l_signature l = toHex (Hmac.sign (l_signingKey l) (encode (l_stringToSign l))) /\
    header_get "Authorization" (ListRepositoryFilesSigner.result l) =
      Some (Authorization_value ("AKIDEXAMPLE" ++ "/" ++ l_credentialScope l)
                                "host;x-amz-date" (l_signature l)).
Proof.
  apply (proj2 (proj2 signing_key_is_four_chained_hmacs)
           (Samples.get_url Samples.url_listing) Samples.world
           (mkURL Samples.repo_host "/" "list-type=2&max-keys=1000&continuation-token=abc"
              [("list-type", "2"); ("max-keys", "1000"); ("continuation-token", "abc")])).
  reflexivity.
Defined.

(** ** Payload hash *)

Lemma BedrockLlm_locals_payload p w l w' :
  BedrockLlmSigner.signRequest_locals p w = (Normal l, w') ->
  l_payloadHash l = toHex (Sha256.digest (encode (BedrockLlmSigner.body p))) /\
  l_canonicalRequest l =
    BedrockLlmSigner.method p ++ LF ++ l_canonicalUri l ++ LF ++ LF ++
    l_canonicalHeaders l ++ LF ++ l_signedHeaders l ++ LF ++ l_payloadHash l /\
  l_stringToSign l =
    join LF ["AWS4-HMAC-SHA256"; l_amzDate l; l_credentialScope l;
             toHex (Sha256.digest (encode (l_canonicalRequest l)))].
Proof.
  destruct w as [parse clk reads calls]. unfold_signers.
  destruct (BedrockLlmSigner.truthy (BedrockLlmSigner.url p)).
  - unfold bind at 1. unfold bind at 1. unfold new_URL at 1. cbn [URL_parse].
    destruct (parse _) as [u|]; js_step; intros H; finish_run H.
    repeat split; reflexivity.
  - destruct (BedrockLlmSigner.truthy (BedrockLlmSigner.host p) &&
              BedrockLlmSigner.truthy (BedrockLlmSigner.path p));
      js_step; intros H; finish_run H.
    repeat split; reflexivity.
Qed.

Lemma ListS3Objects_locals_payload p w l w' :
  ListS3ObjectsSigner.signRequest_locals p w = (Normal l, w') ->
  l_payloadHash l = toHex (Sha256.digest (encode (body p))) /\
  l_canonicalRequest l =
    join LF [method p; l_canonicalUri l; ""; l_canonicalHeaders l;
             l_signedHeaders l; l_payloadHash l] /\
  l_stringToSign l =
    join LF ["AWS4-HMAC-SHA256"; l_amzDate l; l_credentialScope l;
             toHex (Sha256.digest (encode (l_canonicalRequest l)))].
Proof.
  destruct w as [parse clk reads calls]. unfold_signers.
  unfold bind at 1. unfold new_URL at 1. cbn [URL_parse].
  destruct (parse _) as [u|]; js_step; intros H; finish_run H.
  repeat split; reflexivity.
Qed.

(** C7. When the body is the empty string, the payload hash that
    [signRequest] computes and signs (last line of the canonical request,
    whose digest enters the string to sign) is the SHA-256 digest of the
    empty string, in lower-case hexadecimal. *)
Theorem empty_body_payload_hash :
  (forall w,
     ListS3ObjectsSigner.hash "" w = (Normal EMPTY_SHA256, advance 0 1 w)) /\
  (forall p w l w',
     BedrockLlmSigner.body p = "" ->
     BedrockLlmSigner.signRequest_locals p w = (Normal l, w') ->
     l_payloadHash l = EMPTY_SHA256 /\
     l_canonicalRequest l =
       BedrockLlmSigner.method p ++ LF ++ l_canonicalUri l ++ LF ++ LF ++
       l_canonicalHeaders l ++ LF ++ l_signedHeaders l ++ LF ++ EMPTY_SHA256 /\
     l_stringToSign l =
       join LF ["AWS4-HMAC-SHA256"; l_amzDate l; l_credentialScope l;
                toHex (Sha256.digest (encode (l_canonicalRequest l)))] /\
     l_signature l = toHex (Hmac.sign (l_signingKey l) (encode (l_stringToSign l)))) /\
  (forall p w l w',
     body p = "" ->
     ListS3ObjectsSigner.signRequest_locals p w = (Normal l, w') ->
     l_payloadHash l = EMPTY_SHA256 /\
     l_canonicalRequest l =
       join LF [method p; l_canonicalUri l; ""; l_canonicalHeaders l;
                l_signedHeaders l; EMPTY_SHA256] /\
     l_stringToSign l =
       join LF ["AWS4-HMAC-SHA256"; l_amzDate l; l_credentialScope l;
                toHex (Sha256.digest (encode (l_canonicalRequest l)))] /\
     l_signature l = toHex (Hmac.sign (l_signingKey l) (encode (l_stringToSign l))) /\
     header_get "x-amz-content-sha256" (ListS3ObjectsSigner.result l) =
       Some EMPTY_SHA256).
Proof.
  split; [|split].
  - intros [parse clk reads calls].
    unfold ListS3ObjectsSigner.hash. js_step. now rewrite sha256_empty_string.
  - intros p w l w' Hbody Hrun.
    destruct (BedrockLlm_locals_payload _ _ _ _ Hrun) as (Hp & Hc & Hs).
    destruct (BedrockLlm_locals_signature _ _ _ _ Hrun) as (Hsig & _).
    rewrite Hbody, sha256_empty_string in Hp. rewrite Hp in Hc. tauto.
  - intros p w l w' Hbody Hrun.
    destruct (ListS3Objects_locals_payload _ _ _ _ Hrun) as (Hp & Hc & Hs).
    destruct (ListS3Objects_locals_signature _ _ _ _ Hrun) as (Hsig & _).
    rewrite Hbody, sha256_empty_string in Hp. rewrite Hp in Hc.
    repeat split; try assumption.
    change (header_get "x-amz-content-sha256" (ListS3ObjectsSigner.result l))
      with (Some (l_payloadHash l)).
    now rewrite Hp.
Qed.

Lemma empty_body_payload_hash_witness :
  exists l w',
    BedrockLlmSigner.signRequest_locals Samples.get_test_txt Samples.world =
      (Normal l, w') /\
    l_payloadHash l = EMPTY_SHA256.
Proof.
  destruct (BedrockLlm_run_resolved Samples.get_test_txt Samples.world eq_refl)
    as (l & Hrun).
  exists l. eexists. split; [exact Hrun|].
  exact (proj1 (proj1 (proj2 empty_body_payload_hash)
                  Samples.get_test_txt Samples.world _ _ eq_refl Hrun)).
Defined.

(** ** Canonical request of the list-s3-objects signer *)

(** C9. In the signer embedded in list-s3-objects/index.ts, for a URL whose
    query string is non-empty the canonical request carries the raw
    concatenation of the path and "?" + query on its second line and the
    empty string on its third line; neither is encoded or sorted. *)
Theorem list_s3_objects_query_in_uri_position :
  forall p w u,
    URL_parse w (url p) = Some u ->
    query u <> "" ->
    exists l,
      ListS3ObjectsSigner.signRequest_locals p w = (Normal l, advance 1 12 w) /\
      l_canonicalRequest l =
        join LF [method p; pathname u ++ "?" ++ query u; "";
                 l_canonicalHeaders l; l_signedHeaders l; l_payloadHash l] /\
      l_canonicalUri l = pathname u ++ "?" ++ query u /\
      l_canonicalQueryString l = "".
Proof.
  intros p w u Hparse Hq. run_with_url Hparse.
  rewrite (search_nonempty u Hq).
  eexists. split; [reflexivity|]. project_locals.
  repeat split; reflexivity.
Qed.

Lemma list_s3_objects_query_in_uri_position_witness :
  exists l,
    ListS3ObjectsSigner.signRequest_locals
      (Samples.get_url Samples.url_listing) Samples.world =
      (Normal l, advance 1 12 Samples.world) /\
    l_canonicalRequest l =
      join LF ["GET"; "/" ++ "?" ++ "list-type=2&max-keys=1000&continuation-token=abc"; "";
               l_canonicalHeaders l; l_signedHeaders l; l_payloadHash l] /\
    l_canonicalUri l = "/" ++ "?" ++ "list-type=2&max-keys=1000&continuation-token=abc" /\
    l_canonicalQueryString l = "".
Proof.
  apply (list_s3_objects_query_in_uri_position
           (Samples.get_url Samples.url_listing) Samples.world
           (mkURL Samples.repo_host "/" "list-type=2&max-keys=1000&continuation-token=abc"
              [("list-type", "2"); ("max-keys", "1000"); ("continuation-token", "abc")])).
  - reflexivity.
  - discriminate.
Defined.

(** ** The basic format of [toISOString] *)

Lemma pad_num_2 (x : Z) : 0 <= x < 100 -> pad_num 2 x = two_digits x.
Proof.
  intros Hx. apply String.eqb_eq.
  apply (range_check (fun x => String.eqb (pad_num 2 x) (two_digits x)) 100);
    [vm_compute; reflexivity | exact Hx].
Qed.

Lemma pad_num_3 (x : Z) : 0 <= x < 1000 -> pad_num 3 x = three_digits x.
Proof.
  intros Hx. apply String.eqb_eq.
  apply (range_check (fun x => String.eqb (pad_num 3 x) (three_digits x)) 1000);
    [vm_compute; reflexivity | exact Hx].
Qed.

Lemma radix_last (base : Z) (digit : Z -> ascii) (fuel : nat) (n : Z) (acc : string) :
  0 <= n < base -> radix base digit fuel n acc = String (digit n) acc.
Proof.
  intros Hn. destruct fuel; cbn [radix].
  - now rewrite Z.mod_small.
  - now rewrite (proj2 (Z.ltb_lt n base)).
Qed.

Lemma radix_next (base : Z) (digit : Z -> ascii) (fuel : nat) (n : Z) (acc : string) :
  base <= n ->
  radix base digit (S fuel) n acc =
  radix base digit fuel (n / base) (String (digit (n mod base)) acc).
Proof.
  intros Hn. cbn [radix]. now rewrite (proj2 (Z.ltb_ge n base)).
Qed.

Lemma hex_digit_decimal (d : Z) : 0 <= d < 10 -> hex_digit d = digit_char d.
Proof.
  intros Hd. unfold hex_digit, digit_char. now rewrite (proj2 (Z.ltb_lt d 10)).
Qed.

Lemma log2_fuel (x : Z) : 8 <= x -> exists f, Z.to_nat (Z.log2 x) = S (S (S f)).
Proof.
  intros Hx. pose proof (Z.log2_le_mono 8 x Hx) as H. change (Z.log2 8) with 3 in H.
  exists (Z.to_nat (Z.log2 x) - 3)%nat. lia.
Qed.

Ltac digits_agree Z0 D :=
  f_equal; [|f_equal; [|f_equal; [|f_equal]]];
  first [apply Z0 | apply D]; Z.div_mod_to_equations; lia.

Lemma pad_num_4 (x : Z) : 0 <= x < 10000 -> pad_num 4 x = four_digits x.
Proof.
  intros Hx. unfold pad_num, toString10, four_digits, two_digits. cbn [append].
  assert (D : forall a b, 0 <= a < 10 -> a = b -> hex_digit a = digit_char b)
    by (intros a b Ha <-; now apply hex_digit_decimal).
  assert (Z0 : forall b, 0 = b -> "0"%char = digit_char b) by (intros b <-; reflexivity).
  destruct (Z_lt_le_dec x 10) as [H1|H1].
  - rewrite radix_last by lia. cbn. digits_agree Z0 D.
  - destruct (log2_fuel x ltac:(lia)) as [f ->].
    rewrite radix_next by lia.
    destruct (Z_lt_le_dec x 100) as [H2|H2].
    + rewrite radix_last by (Z.div_mod_to_equations; lia). cbn. digits_agree Z0 D.
    + rewrite radix_next by (Z.div_mod_to_equations; lia).
      destruct (Z_lt_le_dec x 1000) as [H3|H3].
      * rewrite radix_last by (Z.div_mod_to_equations; lia). cbn. digits_agree Z0 D.
      * rewrite radix_next by (Z.div_mod_to_equations; lia).
        rewrite radix_last by (Z.div_mod_to_equations; lia). cbn. digits_agree Z0 D.
Qed.

Lemma is_digit_digit_char (d : Z) : 0 <= d < 10 -> is_digit (digit_char d) = true.
Proof.
  intros Hd.
  apply (range_check (fun d => is_digit (digit_char d)) 10);
    [vm_compute; reflexivity | exact Hd].
Qed.

Lemma strip_digit (c : ascii) (rest : string) :
  is_digit c = true ->
  strip_iso_punct (String c rest) = String c (strip_iso_punct rest).
Proof.
  destruct c as [[] [] [] [] [] [] [] []]; intros H;
    first [discriminate H | reflexivity].
Qed.

Lemma strip_two (x : Z) (rest : string) :
  0 <= x < 100 ->
  strip_iso_punct (two_digits x ++ rest) = two_digits x ++ strip_iso_punct rest.
Proof.
  intros Hx. unfold two_digits. cbn [append].
  rewrite !strip_digit; [reflexivity | |];
    apply is_digit_digit_char;
    [apply Z.mod_pos_bound; lia
    | split; [apply Z.div_pos; lia | apply Z.div_lt_upper_bound; lia]].
Qed.

Lemma strip_four (x : Z) (rest : string) :
  0 <= x < 10000 ->
  strip_iso_punct (four_digits x ++ rest) = four_digits x ++ strip_iso_punct rest.
Proof.
  intros Hx. unfold four_digits. rewrite !append_assoc.
  rewrite !strip_two; [reflexivity | |].
  - apply Z.mod_pos_bound; lia.
  - split; [apply Z.div_pos; lia | apply Z.div_lt_upper_bound; lia].
Qed.

Lemma strip_fraction (x : Z) :
  0 <= x < 1000 -> strip_iso_punct (String "." (three_digits x ++ "Z")) = "Z".
Proof.
  intros Hx. unfold three_digits, two_digits. cbn [append].
  assert (H1 : is_digit (digit_char (x / 100)) = true).
  { apply is_digit_digit_char.
    split; [apply Z.div_pos; lia | apply Z.div_lt_upper_bound; lia]. }
  assert (Hm : 0 <= x mod 100 < 100) by (apply Z.mod_pos_bound; lia).
  assert (H2 : is_digit (digit_char (x mod 100 / 10)) = true).
  { apply is_digit_digit_char.
    split; [apply Z.div_pos; lia | apply Z.div_lt_upper_bound; lia]. }
  assert (H3 : is_digit (digit_char ((x mod 100) mod 10)) = true).
  { apply is_digit_digit_char. apply Z.mod_pos_bound; lia. }
  cbn [strip_iso_punct]. rewrite H1, H2, H3. reflexivity.
Qed.

Lemma strip_dash (rest : string) :
  strip_iso_punct (String "-" rest) = strip_iso_punct rest.
Proof. reflexivity. Qed.

Lemma strip_colon (rest : string) :
  strip_iso_punct (String ":" rest) = strip_iso_punct rest.
Proof. reflexivity. Qed.

Lemma strip_T (rest : string) :
  strip_iso_punct (String "T" rest) = String "T" (strip_iso_punct rest).
Proof. reflexivity. Qed.

(** Removing the punctuation of [toISOString] leaves [YYYYMMDDTHHMMSSZ]. *)
Lemma amzDate_basic_format (d : Date) :
  Date_wf d -> 0 <= year d <= 9999 ->
  strip_iso_punct (toISOString d) = basic_format d.
Proof.
  intros (Hmo & Hd & Hh & Hmi & Hs & Hms) Hy.
  unfold toISOString, iso_year, basic_format.
  replace ((0 <=? year d) && (year d <=? 9999)) with true
    by (symmetry; apply andb_true_iff; split; apply Z.leb_le; lia).
  rewrite pad_num_4, !pad_num_2, pad_num_3 by lia.
  cbn [append].
  rewrite strip_four by lia. f_equal.
  rewrite strip_dash, strip_two by lia. f_equal.
  rewrite strip_dash, strip_two by lia. f_equal.
  rewrite strip_T. f_equal.
  rewrite strip_two by lia. f_equal.
  rewrite strip_colon, strip_two by lia. f_equal.
  rewrite strip_colon, strip_two by lia. f_equal.
  apply strip_fraction. lia.
Qed.

Lemma basic_format_length (d : Date) : String.length (basic_format d) = 16%nat.
Proof. reflexivity. Qed.

Lemma substring_prefix (s t : string) :
  substring 0 (String.length s) (s ++ t) = s.
Proof.
  induction s as [|c s IH]; cbn.
  - destruct t; reflexivity.
  - now rewrite IH.
Qed.

Lemma dateStamp_of_basic_format (d : Date) :
  slice0 8 (basic_format d) = date_stamp_format d.
Proof.
  unfold slice0, basic_format.
  change 8%nat with (String.length (date_stamp_format d)).
  unfold date_stamp_format at 2.
  rewrite <- (append_assoc (two_digits (month d))).
  rewrite <- (append_assoc (four_digits (year d))).
  apply substring_prefix.
Qed.

(** ** Errors *)

(** C5, as stated, fails: with both credentials empty and a target given by
    host and path, [signRequest] of bedrock-llm/aws-signer.ts raises no
    error and returns headers. *)
Lemma empty_credentials_are_signed :
  BedrockLlmSigner.accessKeyId Samples.get_without_credentials = "" /\
  BedrockLlmSigner.secretAccessKey Samples.get_without_credentials = "" /\
  exists l,
    BedrockLlmSigner.signRequest Samples.get_without_credentials Samples.world =
      (Normal (BedrockLlmSigner.result l), advance 1 10 Samples.world) /\
    header_get "Authorization" (BedrockLlmSigner.result l) =
      Some (Authorization_value ("" ++ "/" ++ l_credentialScope l) "host;x-amz-date"
              (l_signature l)).
Proof.
  split; [reflexivity|]. split; [reflexivity|].
  destruct (BedrockLlm_signRequest_resolved
              Samples.get_without_credentials Samples.world eq_refl)
    as (l & Hl & Hrun).
  exists l. split; [exact Hrun|].
  rewrite BedrockLlm_result_Authorization.
  now rewrite (proj2 (BedrockLlm_locals_signature _ _ _ _ Hl)).
Qed.

(** C5, amended. [signRequest] raises an error exactly when the target does
    not resolve: a non-empty [url] that does not parse, or no [url] and an
    absent or empty [host] or [path].  The error is raised before the clock
    is read and before any WebCrypto call.  Credentials are not inspected:
    on every other input headers are returned. *)
Theorem signRequest_errors_exactly_on_unresolved_target :
  forall p w,
    if target_resolves p w
    then exists h, BedrockLlmSigner.signRequest p w = (Normal h, advance 1 10 w)
    else exists e, BedrockLlmSigner.signRequest p w = (Throw e, w).
Proof.
  intros p w. unfold BedrockLlmSigner.signRequest.
  destruct (target_resolves p w) eqn:Ht.
  - destruct (BedrockLlm_run_resolved p w Ht) as [l Hl].
    exists (BedrockLlmSigner.result l). unfold bind. now rewrite Hl.
  - destruct (BedrockLlm_run_unresolved p w Ht) as [e He].
    exists e. unfold bind. now rewrite He.
Qed.

(** ** Canonical URI *)

Lemma flat_map_string_append (f : ascii -> string) (a b : string) :
  flat_map_string f (a ++ b) = flat_map_string f a ++ flat_map_string f b.
Proof.
  induction a as [|c a IH]; cbn [flat_map_string append]; [reflexivity|].
  now rewrite IH, append_assoc.
Qed.

Lemma encodeURIComponent2_char (c : ascii) :
  encodeURIComponent2 (String c "") = uri_encode_once (String c "").
Proof.
  destruct c as [[] [] [] [] [] [] [] []]; vm_compute; reflexivity.
Qed.

(** [encodeURIComponent2] is one pass of percent-encoding that leaves only
    letters, digits, "-", ".", "_" and "~" unescaped. *)
Lemma encodeURIComponent2_spec (s : string) :
  encodeURIComponent2 s = uri_encode_once s.
Proof.
  induction s as [|c s IH]; [reflexivity|].
  change (String c s) with (String c "" ++ s).
  unfold encodeURIComponent2, encodeURIComponent, uri_encode_once in *.
  rewrite !flat_map_string_append. rewrite IH. f_equal.
  apply encodeURIComponent2_char.
Qed.

Lemma uri_encode_once_char_no_slash (c : ascii) :
  no_slash (uri_encode_once (String c "")) = true.
Proof.
  destruct c as [[] [] [] [] [] [] [] []]; vm_compute; reflexivity.
Qed.

Lemma uri_encode_once_no_slash (s : string) : no_slash (uri_encode_once s) = true.
Proof.
  induction s as [|c s IH]; [reflexivity|].
  change (String c s) with (String c "" ++ s).
  pose proof (uri_encode_once_char_no_slash c) as Hc.
  unfold no_slash, uri_encode_once in *.
  rewrite flat_map_string_append, string_forallb_append, IH, Hc. reflexivity.
Qed.

Lemma split_on_no_slash (t : string) : no_slash t = true -> split_on "/" t = [t].
Proof.
  induction t as [|c t IH]; [reflexivity|].
  unfold no_slash. cbn [string_forallb split_on].
  intros H. apply andb_true_iff in H as [Hc Ht].
  apply negb_true_iff in Hc. rewrite Hc, (IH Ht). reflexivity.
Qed.

Lemma ListFoundationModels_canonicalURI_segments (path : string) :
  ListFoundationModelsSigner.canonicalURI path =
  join "/" (map uri_encode_once (split_on "/" path)).
Proof.
  unfold ListFoundationModelsSigner.canonicalURI. f_equal.
  apply map_ext. exact encodeURIComponent2_spec.
Qed.

Lemma GenerateUploadUrl_canonicalURI_segments (path : string) :
  GenerateUploadUrlSigner.canonicalURI path =
  if String.eqb path "" || String.eqb path "/" then "/"
  else join "/" (map uri_encode_once (split_on "/" path)).
Proof.
  unfold GenerateUploadUrlSigner.canonicalURI.
  destruct (String.eqb path "" || String.eqb path "/"); [reflexivity|].
  f_equal. apply map_ext. exact encodeURIComponent2_spec.
Qed.

Lemma segments_of_encoded (s : string) :
  join "/" (map uri_encode_once (split_on "/" ("/" ++ uri_encode_once s))) =
  "/" ++ uri_encode_once (uri_encode_once s).
Proof.
  change (split_on "/" ("/" ++ uri_encode_once s))
    with ("" :: split_on "/" (uri_encode_once s)).
  rewrite (split_on_no_slash _ (uri_encode_once_no_slash s)). reflexivity.
Qed.

(** C3, as stated, fails: the segment "v2:1" and its percent-encoded form
    "v2%3A1" get different canonical URIs, the encoded form being encoded a
    second time. *)
Lemma encoded_segment_is_encoded_again :
  uri_encode_once "v2:1" = "v2%3A1" /\
  ListFoundationModelsSigner.canonicalURI "/v2:1" = "/v2%3A1" /\
  ListFoundationModelsSigner.canonicalURI "/v2%3A1" = "/v2%253A1" /\
  GenerateUploadUrlSigner.canonicalURI "/v2:1" = "/v2%3A1" /\
  GenerateUploadUrlSigner.canonicalURI "/v2%3A1" = "/v2%253A1" /\
  ListFoundationModelsSigner.canonicalURI ("/" ++ uri_encode_once "v2:1") <>
    ListFoundationModelsSigner.canonicalURI ("/" ++ "v2:1") /\
  GenerateUploadUrlSigner.canonicalURI ("/" ++ uri_encode_once "v2:1") <>
    GenerateUploadUrlSigner.canonicalURI ("/" ++ "v2:1").
Proof.
  repeat split; try (vm_compute; reflexivity); vm_compute; discriminate.
Qed.

(** C3, amended. [canonicalURI] splits the path at "/" and percent-encodes
    each segment exactly once, without decoding it first: letters, digits,
    "-", ".", "_" and "~" stay and every other byte, "%" included (and "!",
    "'", "(", ")", "*"), becomes "%XX".  The root path encodes as "/".  A
    segment that is already percent-encoded is therefore encoded a second
    time. *)
Theorem canonicalURI_encodes_each_segment_once_without_decoding :
  (forall s, encodeURIComponent2 s = uri_encode_once s) /\
  (forall path,
     ListFoundationModelsSigner.canonicalURI path =
     join "/" (map uri_encode_once (split_on "/" path))) /\
  (forall path,
     GenerateUploadUrlSigner.canonicalURI path =
     if String.eqb path "" || String.eqb path "/" then "/"
     else join "/" (map uri_encode_once (split_on "/" path))) /\
  ListFoundationModelsSigner.canonicalURI "/" = "/" /\
  GenerateUploadUrlSigner.canonicalURI "/" = "/" /\
  (forall s, uri_encode_once (String "%" s) = "%25" ++ uri_encode_once s) /\
  (forall s,
     ListFoundationModelsSigner.canonicalURI ("/" ++ uri_encode_once s) =
     "/" ++ uri_encode_once (uri_encode_once s)) /\
  (forall s,
     GenerateUploadUrlSigner.canonicalURI ("/" ++ uri_encode_once s) =
     "/" ++ uri_encode_once (uri_encode_once s)).
Proof.
  split; [exact encodeURIComponent2_spec|].
  split; [exact ListFoundationModels_canonicalURI_segments|].
  split; [exact GenerateUploadUrl_canonicalURI_segments|].
  split; [reflexivity|]. split; [reflexivity|]. split; [reflexivity|].
  split; intros s.
  - rewrite ListFoundationModels_canonicalURI_segments. apply segments_of_encoded.
  - rewrite GenerateUploadUrl_canonicalURI_segments.
    destruct (uri_encode_once s) as [|c t] eqn:E.
    + reflexivity.
    + change (String.eqb ("/" ++ String c t) "") with false.
      change (String.eqb ("/" ++ String c t) "/") with false.
      cbn [orb]. rewrite <- E. apply segments_of_encoded.
Qed.

(** ** Canonical query string *)

Section SortedPermutation.

Context {A : Type} (comparefn : A -> A -> Z).
Hypothesis Hord : consistent_order comparefn.

Let before (a b : A) : Prop := comparefn a b <= 0.

Lemma sort_insert_Permutation (x : A) (l : list A) :
  Permutation (sort_insert comparefn x l) (x :: l).
Proof.
  induction l as [|y l IH]; cbn [sort_insert]; [reflexivity|].
  destruct (comparefn x y <=? 0); [reflexivity|].
  rewrite IH. apply perm_swap.
Qed.

Lemma Array_sort_Permutation (l : list A) : Permutation (Array_sort comparefn l) l.
Proof.
  induction l as [|x l IH]; cbn [Array_sort]; [reflexivity|].
  rewrite sort_insert_Permutation. now apply perm_skip.
Qed.

Lemma sort_insert_sorted (x : A) (l : list A) :
  StronglySorted before l -> StronglySorted before (sort_insert comparefn x l).
Proof.
  induction 1 as [|y l Hl IH Hy]; cbn [sort_insert].
  - constructor; constructor.
  - destruct (Z.leb_spec (comparefn x y) 0) as [Hxy|Hxy].
    + constructor; [constructor; assumption|].
      constructor; [exact Hxy|].
      eapply Forall_impl; [|exact Hy].
      intros z Hz. exact (order_trans _ Hord x y z Hxy Hz).
    + constructor; [exact IH|].
      eapply Permutation_Forall; [symmetry; apply sort_insert_Permutation|].
      constructor; [|exact Hy].
      destruct (order_total _ Hord x y) as [H|H]; [unfold before; lia | exact H].
Qed.

Lemma Array_sort_sorted (l : list A) : StronglySorted before (Array_sort comparefn l).
Proof.
  induction l as [|x l IH]; cbn [Array_sort]; [constructor|].
  now apply sort_insert_sorted.
Qed.

Lemma sorted_Permutation_eq (l1 l2 : list A) :
  StronglySorted before l1 -> StronglySorted before l2 ->
  Permutation l1 l2 -> l1 = l2.
Proof.
  intros H1. revert l2. induction H1 as [|x l1 Hl1 IH Hx]; intros l2 H2 Hp.
  - now apply Permutation_nil in Hp.
  - destruct H2 as [|y l2 Hl2 Hy].
    + apply Permutation_sym, Permutation_nil in Hp. discriminate Hp.
    + assert (Hxy : x = y).
      { assert (Hin1 : In x (y :: l2)) by (eapply Permutation_in; [exact Hp | now left]).
        assert (Hin2 : In y (x :: l1))
          by (eapply Permutation_in; [symmetry; exact Hp | now left]).
        destruct Hin1 as [->|Hin1]; [reflexivity|].
        destruct Hin2 as [->|Hin2]; [reflexivity|].
        rewrite Forall_forall in Hx, Hy.
        apply (order_antisym _ Hord); [apply Hx, Hin2 | apply Hy, Hin1]. }
      subst y. f_equal. apply IH; [exact Hl2|].
      eapply Permutation_cons_inv. exact Hp.
Qed.

(** Sorting with a consistent comparison function forgets the input order. *)
Lemma Array_sort_order_invariant (l1 l2 : list A) :
  Permutation l1 l2 -> Array_sort comparefn l1 = Array_sort comparefn l2.
Proof.
  intros Hp. apply sorted_Permutation_eq; try apply Array_sort_sorted.
  rewrite !Array_sort_Permutation. exact Hp.
Qed.

End SortedPermutation.

Lemma compare_params_consistent (localeCompare : string -> string -> Z) :
  consistent_order localeCompare ->
  consistent_order (GenerateUploadUrlSigner.compare_params localeCompare).
Proof.
  intros [Htot Hanti Htrans].
  unfold GenerateUploadUrlSigner.compare_params. split.
  - intros [k1 v1] [k2 v2]. cbn [fst snd]. rewrite (String.eqb_sym k2 k1).
    destruct (String.eqb k1 k2); apply Htot.
  - intros [k1 v1] [k2 v2]. cbn [fst snd]. rewrite (String.eqb_sym k2 k1).
    destruct (String.eqb_spec k1 k2) as [->|Hne]; intros H1 H2.
    + f_equal. now apply Hanti.
    + exfalso. apply Hne. now apply Hanti.
  - intros [k1 v1] [k2 v2] [k3 v3]. cbn [fst snd].
    destruct (String.eqb_spec k1 k2) as [E12|N12];
      destruct (String.eqb_spec k2 k3) as [E23|N23];
      destruct (String.eqb_spec k1 k3) as [E13|N13];
      intros Ha Hb; subst; try congruence.
    + eapply Htrans; eassumption.
    + exfalso. apply N12. now apply Hanti.
    + eapply Htrans; eassumption.
Qed.

(** In generate-upload-url the canonical query string does not depend on the
    order in which the parameters are supplied, as long as [localeCompare]
    is a consistent order. *)
Lemma getCanonicalQueryString_order_invariant
      (localeCompare : string -> string -> Z) (ps qs : list (string * string)) :
  consistent_order localeCompare ->
  Permutation ps qs ->
  GenerateUploadUrlSigner.getCanonicalQueryString localeCompare ps =
  GenerateUploadUrlSigner.getCanonicalQueryString localeCompare qs.
Proof.
  intros Hord Hp. unfold GenerateUploadUrlSigner.getCanonicalQueryString.
  do 2 f_equal.
  apply Array_sort_order_invariant;
    [now apply compare_params_consistent | now apply Permutation_map].
Qed.

Lemma getCanonicalQueryString_empty (localeCompare : string -> string -> Z) :
  GenerateUploadUrlSigner.getCanonicalQueryString localeCompare [] = "".
Proof. reflexivity. Qed.

(** Hence two generate-upload-url requests that differ only in the order of
    their query parameters get the same locals, signature included. *)
Lemma GenerateUploadUrl_query_order_invariant
      (localeCompare : string -> string -> Z) (p1 p2 : SignRequestOptions)
      (w : World) (u1 u2 : URL) :
  consistent_order localeCompare ->
  URL_parse w (url p1) = Some u1 ->
  URL_parse w (url p2) = Some u2 ->
  hostname u1 = hostname u2 ->
  pathname u1 = pathname u2 ->
  Permutation (searchParams u1) (searchParams u2) ->
  method p1 = method p2 -> body p1 = body p2 -> region p1 = region p2 ->
  service p1 = service p2 -> accessKeyId p1 = accessKeyId p2 ->
  secretAccessKey p1 = secretAccessKey p2 ->
  exists l,
    GenerateUploadUrlSigner.signRequest_locals localeCompare p1 w =
      (Normal l, advance 1 12 w) /\
    GenerateUploadUrlSigner.signRequest_locals localeCompare p2 w =
      (Normal l, advance 1 12 w).
Proof.
  intros Hord H1 H2 Hh Hp Hperm Hm Hb Hr Hs Ha Hk.
  destruct w as [parse clk reads calls]. cbn [URL_parse] in H1, H2.
  unfold_signers. js_step. rewrite H1, H2. js_step.
  eexists. split; [reflexivity|].
  rewrite <- Hh, <- Hp, <- Hm, <- Hb, <- Hr, <- Hs, <- Ha, <- Hk.
  rewrite <- (getCanonicalQueryString_order_invariant localeCompare _ _ Hord Hperm).
  reflexivity.
Qed.

Lemma Ascii_compare_N (a b : ascii) :
  Ascii.compare a b = N.compare (N_of_ascii a) (N_of_ascii b).
Proof. reflexivity. Qed.

Lemma String_compare_not_Gt_trans (a b c : string) :
  String.compare a b <> Gt -> String.compare b c <> Gt -> String.compare a c <> Gt.
Proof.
  revert b c. induction a as [|x a IH]; intros [|y b] [|z c]; cbn [String.compare];
    try congruence.
  rewrite !Ascii_compare_N.
  destruct (N.compare_spec (N_of_ascii x) (N_of_ascii y)) as [Exy|Lxy|Gxy];
    destruct (N.compare_spec (N_of_ascii y) (N_of_ascii z)) as [Eyz|Lyz|Gyz];
    try congruence; intros Hab Hbc.
  - rewrite <- Eyz, Exy. rewrite N.compare_refl. eapply IH; eassumption.
  - rewrite Exy. now rewrite (proj2 (N.compare_lt_iff _ _) Lyz).
  - rewrite <- Eyz. now rewrite (proj2 (N.compare_lt_iff _ _) Lxy).
  - now rewrite (proj2 (N.compare_lt_iff _ _) (N.lt_trans _ _ _ Lxy Lyz)).
Qed.

(** Comparison by code units is a consistent order, so the hypothesis made
    on [localeCompare] is satisfiable. *)
Lemma code_unit_compare_consistent : consistent_order code_unit_compare.
Proof.
  unfold code_unit_compare. split.
  - intros a b. rewrite (String.compare_antisym a b).
    destruct (String.compare b a); cbn; lia.
  - intros a b Hab Hba. apply String.compare_eq_iff.
    rewrite (String.compare_antisym a b) in *.
    destruct (String.compare b a); cbn in *; try reflexivity; lia.
  - intros a b c Hab Hbc.
    assert (H : String.compare a c <> Gt).
    { apply (String_compare_not_Gt_trans a b c).
      - destruct (String.compare a b); [discriminate | discriminate | lia].
      - destruct (String.compare b c); [discriminate | discriminate | lia]. }
    destruct (String.compare a c); [lia | lia | congruence].
Qed.

Example getCanonicalQueryString_sorts :
  GenerateUploadUrlSigner.getCanonicalQueryString code_unit_compare
    [("list-type", "2"); ("max-keys", "1000"); ("continuation-token", "a b*")] =
  "continuation-token=a%20b%2A&list-type=2&max-keys=1000" /\
  GenerateUploadUrlSigner.getCanonicalQueryString code_unit_compare
    [("k", "b"); ("k", "a"); ("j", "z")] = "j=z&k=a&k=b".
Proof. split; vm_compute; reflexivity. Qed.

Lemma sample_listings_differ_in_order_only :
  Permutation
    [("list-type", "2"); ("max-keys", "1000"); ("continuation-token", "abc")]
    [("continuation-token", "abc"); ("list-type", "2"); ("max-keys", "1000")].
Proof.
  apply Permutation_sym. apply (Permutation_cons_app [_; _] []). reflexivity.
Qed.

(** C4 at its failing input.  The listing URL that
    list-repository-files/index.ts builds when a continuation token is
    present, and the same URL with its parameters in sorted order, differ
    only in the order of their query parameters; the list-repository-files
    signer puts [searchParams.toString()], unsorted, in the canonical
    request, and the two signatures differ. *)
Theorem list_repository_files_signature_depends_on_query_order :
  exists u1 u2 l1 l2 w1 w2,
    URL_parse Samples.world Samples.url_listing = Some u1 /\
    URL_parse Samples.world Samples.url_listing_sorted = Some u2 /\
    hostname u1 = hostname u2 /\ pathname u1 = pathname u2 /\
    Permutation (searchParams u1) (searchParams u2) /\
    ListRepositoryFilesSigner.signRequest_locals
      (Samples.get_url Samples.url_listing) Samples.world = (Normal l1, w1) /\
    ListRepositoryFilesSigner.signRequest_locals
      (Samples.get_url Samples.url_listing_sorted) Samples.world = (Normal l2, w2) /\
    l_canonicalQueryString l1 = "list-type=2&max-keys=1000&continuation-token=abc" /\
    l_canonicalQueryString l2 = "continuation-token=abc&list-type=2&max-keys=1000" /\
    l_signature l1 <> l_signature l2.
Proof.
  do 6 eexists.
  split; [reflexivity|]. split; [reflexivity|].
  split; [reflexivity|]. split; [reflexivity|].
  split; [exact sample_listings_differ_in_order_only|].
  split; [vm_compute; reflexivity|]. split; [vm_compute; reflexivity|].
  split; [reflexivity|]. split; [reflexivity|].
  vm_compute. discriminate.
Qed.

(** On the same two inputs the generate-upload-url signer, which sorts,
    computes one and the same signature. *)
Example generate_upload_url_same_signature_on_sample_listings :
  exists l,
    GenerateUploadUrlSigner.signRequest_locals code_unit_compare
      (Samples.get_url Samples.url_listing) Samples.world =
      (Normal l, advance 1 12 Samples.world) /\
    GenerateUploadUrlSigner.signRequest_locals code_unit_compare
      (Samples.get_url Samples.url_listing_sorted) Samples.world =
      (Normal l, advance 1 12 Samples.world).
Proof.
  eapply (GenerateUploadUrl_query_order_invariant code_unit_compare
            (Samples.get_url Samples.url_listing)
            (Samples.get_url Samples.url_listing_sorted) Samples.world);
    try reflexivity.
  - exact code_unit_compare_consistent.
  - exact sample_listings_differ_in_order_only.
Qed.

(** ** The signing key of bedrock-llm/aws-signer.ts *)

(** [getSignatureKey] of bedrock-llm/aws-signer.ts imports the result of the
    third HMAC as the signing key: the key it returns is the service key. *)
Remark BedrockLlm_getSignatureKey_value key dateStamp regionName serviceName w :
  BedrockLlmSigner.getSignatureKey key dateStamp regionName serviceName w =
  (Normal (HmacKey (Hmac.sign (Hmac.sign (Hmac.sign (encode ("AWS4" ++ key))
                                                    (encode dateStamp))
                                         (encode regionName))
                              (encode serviceName))),
   advance 0 7 w).
Proof.
  destruct w as [parse clk reads calls]. unfold_signers. js_step. reflexivity.
Qed.

(* ================================================================== *)
(** * Further properties *)

(** ** What each signer computes *)

Ltac unfold_index_signer :=
  unfold BedrockLlmIndexSigner.signRequest_locals,
         BedrockLlmIndexSigner.getSignatureKey,
         BedrockLlmIndexSigner.hmacSha256, BedrockLlmIndexSigner.sha256.

Lemma Array_map_normalize (segments : list string) (w : World) :
  Array_map_js BedrockLlmIndexSigner.normalize_segment segments w =
  match normalize_segments segments with
  | Some l => (Normal l, w)
  | None => (Throw (URIError "URI malformed"), w)
  end.
Proof.
  induction segments as [|s rest IH]; [reflexivity|].
  cbn [Array_map_js normalize_segments]. unfold bind at 1.
  unfold BedrockLlmIndexSigner.normalize_segment at 1.
  destruct (decodeURIComponent s) as [d|]; [|reflexivity].
  unfold ret at 1. unfold bind at 1. rewrite IH.
  destruct (normalize_segments rest); reflexivity.
Qed.

Lemma join_4 (sep a b c d : string) :
  join sep [a; b; c; d] = a ++ sep ++ b ++ sep ++ c ++ sep ++ d.
Proof. reflexivity. Qed.

Lemma join_6 (sep a b c d e f : string) :
  join sep [a; b; c; d; e; f] =
  a ++ sep ++ b ++ sep ++ c ++ sep ++ d ++ sep ++ e ++ sep ++ f.
Proof. reflexivity. Qed.

Lemma append_empty_l (s : string) : "" ++ s = s.
Proof. reflexivity. Qed.

Lemma sigv4_locals_intro (p : SignRequestOptions) (now : Date) (l : Locals) :
  l_amzDate l = strip_iso_punct (toISOString now) ->
  l_dateStamp l = slice0 8 (l_amzDate l) ->
  l_payloadHash l = toHex (Sha256.digest (encode (body p))) ->
  l_canonicalRequest l =
    method p ++ LF ++ l_canonicalUri l ++ LF ++ l_canonicalQueryString l ++ LF ++
    l_canonicalHeaders l ++ LF ++ l_signedHeaders l ++ LF ++ l_payloadHash l ->
  l_credentialScope l =
    l_dateStamp l ++ "/" ++ region p ++ "/" ++ service p ++ "/aws4_request" ->
  l_stringToSign l =
    "AWS4-HMAC-SHA256" ++ LF ++ l_amzDate l ++ LF ++ l_credentialScope l ++ LF ++
    toHex (Sha256.digest (encode (l_canonicalRequest l))) ->
  l_signingKey l =
    kSigning_chain (secretAccessKey p) (l_dateStamp l) (region p) (service p) ->
  l_signature l = toHex (Hmac.sign (l_signingKey l) (encode (l_stringToSign l))) ->
  l_authorizationHeader l =
    Authorization_value (accessKeyId p ++ "/" ++ l_credentialScope l)
                        (l_signedHeaders l) (l_signature l) ->
  sigv4_locals p now l.
Proof. unfold sigv4_locals. tauto. Qed.

Ltac sigv4_fields authorization :=
  apply sigv4_locals_intro; project_locals;
  [ reflexivity | reflexivity | reflexivity
  | rewrite ?join_6, ?append_empty_l; reflexivity
  | reflexivity
  | rewrite ?join_4; reflexivity
  | reflexivity | reflexivity
  | apply authorization ].

Lemma ListFoundationModels_sigv4 p w u :
  URL_parse w (url p) = Some u ->
  exists l,
    ListFoundationModelsSigner.signRequest_locals p w = (Normal l, advance 1 12 w) /\
    l_host l = hostname u /\
    l_canonicalUri l = ListFoundationModelsSigner.canonicalURI (pathname u) /\
    l_canonicalQueryString l = "" /\
    l_canonicalHeaders l =
      "content-type:application/json" ++ LF ++ "host:" ++ l_host l ++ LF ++
      "x-amz-date:" ++ l_amzDate l ++ LF /\
    l_signedHeaders l = "content-type;host;x-amz-date" /\
    sigv4_locals p (clock w (clock_reads w)) l.
Proof.
  intros Hparse. run_with_url Hparse.
  eexists. split; [reflexivity|]. project_locals.
  do 5 (split; [reflexivity|]). sigv4_fields Authorization_value_template.
Qed.

Lemma GenerateUploadUrl_sigv4 localeCompare p w u :
  URL_parse w (url p) = Some u ->
  exists l,
    GenerateUploadUrlSigner.signRequest_locals localeCompare p w =
      (Normal l, advance 1 12 w) /\
    l_host l = hostname u /\
    l_canonicalUri l = GenerateUploadUrlSigner.canonicalURI (pathname u) /\
    l_canonicalQueryString l =
      GenerateUploadUrlSigner.getCanonicalQueryString localeCompare (searchParams u) /\
    l_canonicalHeaders l =
      "host:" ++ l_host l ++ LF ++ "x-amz-content-sha256:" ++ l_payloadHash l ++ LF ++
      "x-amz-date:" ++ l_amzDate l ++ LF /\
    l_signedHeaders l = "host;x-amz-content-sha256;x-amz-date" /\
    sigv4_locals p (clock w (clock_reads w)) l.
Proof.
  intros Hparse. run_with_url Hparse.
  eexists. split; [reflexivity|]. project_locals.
  do 5 (split; [reflexivity|]). sigv4_fields Authorization_value_template.
Qed.

Lemma ListRepositoryFiles_sigv4 p w u :
  URL_parse w (url p) = Some u ->
  exists l,
    ListRepositoryFilesSigner.signRequest_locals p w = (Normal l, advance 1 12 w) /\
    l_host l = hostname u /\
    l_canonicalUri l = or_else (pathname u) "/" /\
    l_canonicalQueryString l = URLSearchParams_toString (searchParams u) /\
    l_canonicalHeaders l =
      "host:" ++ l_host l ++ LF ++ "x-amz-date:" ++ l_amzDate l ++ LF /\
    l_signedHeaders l = "host;x-amz-date" /\
    sigv4_locals p (clock w (clock_reads w)) l.
Proof.
  intros Hparse. run_with_url Hparse.
  eexists. split; [reflexivity|]. project_locals.
  do 5 (split; [reflexivity|]). sigv4_fields Authorization_value_literal.
Qed.

Lemma ListS3Objects_sigv4 p w u :
  URL_parse w (url p) = Some u ->
  exists l,
    ListS3ObjectsSigner.signRequest_locals p w = (Normal l, advance 1 12 w) /\
    l_host l = hostname u /\
    l_canonicalUri l = pathname u ++ search u /\
    l_canonicalQueryString l = "" /\
    l_canonicalHeaders l =
      "host:" ++ l_host l ++ LF ++ "x-amz-date:" ++ l_amzDate l ++ LF /\
    l_signedHeaders l = "host;x-amz-date" /\
    sigv4_locals p (clock w (clock_reads w)) l.
Proof.
  intros Hparse. run_with_url Hparse.
  eexists. split; [reflexivity|]. project_locals.
  do 5 (split; [reflexivity|]). sigv4_fields Authorization_value_join.
Qed.

Lemma Part001_sigv4 p w u :
  URL_parse w (url p) = Some u ->
  exists l,
    Part001Signer.signRequest_locals p w = (Normal l, advance 1 12 w) /\
    l_host l = hostname u /\
    l_canonicalUri l = or_else (pathname u) "/" /\
    l_canonicalQueryString l = Part001Signer.substring1 (search u) /\
    l_canonicalHeaders l =
      "host:" ++ l_host l ++ LF ++ "x-amz-date:" ++ l_amzDate l ++ LF /\
    l_signedHeaders l = "host;x-amz-date" /\
    sigv4_locals p (clock w (clock_reads w)) l.
Proof.
  intros Hparse. destruct w as [parse clk reads calls]. cbn [URL_parse] in Hparse.
  unfold_signers. js_step. rewrite Hparse. js_step.
  eexists. split; [reflexivity|]. project_locals.
  do 5 (split; [reflexivity|]). sigv4_fields Authorization_value_template.
Qed.

Lemma BedrockLlmIndex_sigv4 p w u path :
  URL_parse w (url p) = Some u ->
  normalized_path (pathname u) = Some path ->
  exists l,
    BedrockLlmIndexSigner.signRequest_locals p w = (Normal l, advance 1 12 w) /\
    l_host l = hostname u /\
    l_canonicalUri l = path /\
    l_canonicalQueryString l = "" /\
    l_canonicalHeaders l =
      "host:" ++ l_host l ++ LF ++ "x-amz-date:" ++ l_amzDate l ++ LF /\
    l_signedHeaders l = "host;x-amz-date" /\
    sigv4_locals p (clock w (clock_reads w)) l.
Proof.
  intros Hparse Hpath. unfold normalized_path in Hpath.
  destruct (normalize_segments (split_on "/" (pathname u))) as [segs|] eqn:Hsegs;
    [|discriminate Hpath].
  injection Hpath as <-.
  destruct w as [parse clk reads calls]. cbn [URL_parse] in Hparse.
  unfold_index_signer. unfold bind at 1. unfold new_URL at 1. cbn [URL_parse].
  rewrite Hparse. unfold bind at 1. rewrite Array_map_normalize, Hsegs.
  js_step. eexists. split; [reflexivity|]. project_locals.
  do 5 (split; [reflexivity|]). sigv4_fields Authorization_value_literal.
Qed.

Lemma BedrockLlmIndex_run_malformed p w u :
  URL_parse w (url p) = Some u ->
  normalized_path (pathname u) = None ->
  BedrockLlmIndexSigner.signRequest_locals p w = (Throw (URIError "URI malformed"), w).
Proof.
  intros Hparse Hpath. unfold normalized_path in Hpath.
  destruct (normalize_segments (split_on "/" (pathname u))) as [segs|] eqn:Hsegs;
    [discriminate Hpath|].
  destruct w as [parse clk reads calls]. cbn [URL_parse] in Hparse.
  unfold_index_signer. unfold bind at 1. unfold new_URL at 1. cbn [URL_parse].
  rewrite Hparse. unfold bind at 1. rewrite Array_map_normalize, Hsegs. reflexivity.
Qed.

Lemma BedrockLlm_run_full p w :
  target_resolves p w = true ->
  exists l,
    BedrockLlmSigner.signRequest_locals p w = (Normal l, advance 1 10 w) /\
    l_amzDate l = strip_iso_punct (toISOString (clock w (clock_reads w))) /\
    l_dateStamp l = slice0 8 (l_amzDate l) /\
    l_canonicalHeaders l =
      "host:" ++ l_host l ++ LF ++ "x-amz-date:" ++ l_amzDate l ++ LF /\
    l_signedHeaders l = "host;x-amz-date" /\
    l_credentialScope l =
      l_dateStamp l ++ "/" ++ BedrockLlmSigner.region p ++ "/" ++
      BedrockLlmSigner.service p ++ "/aws4_request" /\
    l_signingKey l =
      kService_chain (BedrockLlmSigner.secretAccessKey p) (l_dateStamp l)
                     (BedrockLlmSigner.region p) (BedrockLlmSigner.service p) /\
    l_signature l = toHex (Hmac.sign (l_signingKey l) (encode (l_stringToSign l))) /\
    l_authorizationHeader l =
      Authorization_value (BedrockLlmSigner.accessKeyId p ++ "/" ++ l_credentialScope l)
                          (l_signedHeaders l) (l_signature l).
Proof.
  destruct w as [parse clk reads calls]. unfold target_resolves. cbn [URL_parse].
  unfold_signers.
  destruct (BedrockLlmSigner.truthy (BedrockLlmSigner.url p)).
  - unfold bind at 1. unfold bind at 1. unfold new_URL at 1. cbn [URL_parse].
    destruct (parse _) as [u|]; intros H; [|discriminate H].
    js_step. eexists. split; [reflexivity|]. project_locals.
    do 7 (split; [reflexivity|]). apply Authorization_value_join.
  - intros ->. js_step. eexists. split; [reflexivity|]. project_locals.
    do 7 (split; [reflexivity|]). apply Authorization_value_join.
Qed.

(** A signing call whose URL does not parse throws the TypeError of
    [new URL] and leaves the world as it was. *)
Lemma new_URL_throws {A} (s : string) (k : URL -> Js A) (w : World) :
  URL_parse w s = None ->
  bind (new_URL s) k w = (Throw (TypeError "Invalid URL"), w).
Proof. intros H. unfold bind, new_URL. now rewrite H. Qed.

(** ** Signed and returned headers *)

Ltac unfold_signRequest :=
  cbv beta delta
    [BedrockLlmSigner.signRequest ListFoundationModelsSigner.signRequest
     GenerateUploadUrlSigner.signRequest ListRepositoryFilesSigner.signRequest
     ListS3ObjectsSigner.signRequest Part001Signer.signRequest
     BedrockLlmIndexSigner.signRequest bind].

Ltac returned_run Hrun := unfold_signRequest; rewrite Hrun; reflexivity.

Lemma headers_are_signed_intro (method : string) (l : Locals) (credential : string) :
  l_canonicalRequest l =
    method ++ LF ++ l_canonicalUri l ++ LF ++ l_canonicalQueryString l ++ LF ++
    l_canonicalHeaders l ++ LF ++ l_signedHeaders l ++ LF ++ l_payloadHash l ->
  l_stringToSign l =
    "AWS4-HMAC-SHA256" ++ LF ++ l_amzDate l ++ LF ++ l_credentialScope l ++ LF ++
    toHex (Sha256.digest (encode (l_canonicalRequest l))) ->
  l_signature l = toHex (Hmac.sign (l_signingKey l) (encode (l_stringToSign l))) ->
  l_authorizationHeader l =
    Authorization_value credential (l_signedHeaders l) (l_signature l) ->
  headers_are_signed method l.
Proof. unfold headers_are_signed. intros H1 H2 H3 H4. repeat split; eauto. Qed.

Lemma sigv4_headers_are_signed p now l :
  sigv4_locals p now l -> headers_are_signed (method p) l.
Proof.
  intros (_ & _ & _ & Hc & _ & Hs & _ & Hsig & Ha).
  now apply (headers_are_signed_intro _ _ _ Hc Hs Hsig Ha).
Qed.

Lemma BedrockLlm_headers_are_signed p w l w' :
  BedrockLlmSigner.signRequest_locals p w = (Normal l, w') ->
  l_canonicalQueryString l = "" /\
  headers_are_signed (BedrockLlmSigner.method p) l.
Proof.
  destruct w as [parse clk reads calls]. unfold_signers.
  destruct (BedrockLlmSigner.truthy (BedrockLlmSigner.url p)).
  - unfold bind at 1. unfold bind at 1. unfold new_URL at 1. cbn [URL_parse].
    destruct (parse _) as [u|]; js_step; intros H; finish_run H.
    split; [reflexivity|].
    eapply headers_are_signed_intro; project_locals;
      [ reflexivity | rewrite join_4; reflexivity | reflexivity
      | apply Authorization_value_join ].
  - destruct (BedrockLlmSigner.truthy (BedrockLlmSigner.host p) &&
              BedrockLlmSigner.truthy (BedrockLlmSigner.path p));
      js_step; intros H; finish_run H.
    split; [reflexivity|].
    eapply headers_are_signed_intro; project_locals;
      [ reflexivity | rewrite join_4; reflexivity | reflexivity
      | apply Authorization_value_join ].
Qed.

(** X1. In the signers of bedrock-llm/aws-signer.ts, list-foundation-models,
    generate-upload-url (whose text generate-presigned-url repeats) and
    bedrock-llm/index.ts, every signed header is returned.  For the values
    [l] a call computes: the returned mapping holds the Authorization value
    of [l]; the signed header names and canonical headers of [l] are what
    is signed (they stand in the canonical request, whose hash stands in the
    string to sign, whose HMAC tag is the signature in the Authorization
    value, next to the signed header names); the signed header names are
    the lower-case forms of headers of the returned mapping, and the
    canonical headers give each of them the value the mapping holds. *)
Theorem signed_headers_are_returned :
  (forall p w,
     target_resolves p w = true ->
     exists l,
       BedrockLlmSigner.signRequest_locals p w = (Normal l, advance 1 10 w) /\
       BedrockLlmSigner.signRequest p w =
         (Normal (BedrockLlmSigner.result l), advance 1 10 w) /\
       header_get "Authorization" (BedrockLlmSigner.result l) =
         Some (l_authorizationHeader l) /\
       headers_are_signed (BedrockLlmSigner.method p) l /\
       signed_and_returned l (BedrockLlmSigner.result l) ["Host"; "X-Amz-Date"]) /\
  (forall p w u,
     URL_parse w (url p) = Some u ->
     exists l,
       ListFoundationModelsSigner.signRequest_locals p w = (Normal l, advance 1 12 w) /\
       ListFoundationModelsSigner.signRequest p w =
         (Normal (ListFoundationModelsSigner.result l), advance 1 12 w) /\
       header_get "Authorization" (ListFoundationModelsSigner.result l) =
         Some (l_authorizationHeader l) /\
       headers_are_signed (method p) l /\
       signed_and_returned l (ListFoundationModelsSigner.result l)
                           ["Content-Type"; "Host"; "X-Amz-Date"]) /\
  (forall localeCompare p w u,
     URL_parse w (url p) = Some u ->
     exists l,
       GenerateUploadUrlSigner.signRequest_locals localeCompare p w =
         (Normal l, advance 1 12 w) /\
       GenerateUploadUrlSigner.signRequest localeCompare p w =
         (Normal (GenerateUploadUrlSigner.result l), advance 1 12 w) /\
       header_get "Authorization" (GenerateUploadUrlSigner.result l) =
         Some (l_authorizationHeader l) /\
       headers_are_signed (method p) l /\
       signed_and_returned l (GenerateUploadUrlSigner.result l)
                           ["Host"; "X-Amz-Content-Sha256"; "X-Amz-Date"]) /\
  (forall p w u path,
     URL_parse w (url p) = Some u ->
     normalized_path (pathname u) = Some path ->
     exists l,
       BedrockLlmIndexSigner.signRequest_locals p w = (Normal l, advance 1 12 w) /\
       BedrockLlmIndexSigner.signRequest p w =
         (Normal (BedrockLlmIndexSigner.result l), advance 1 12 w) /\
       header_get "Authorization" (BedrockLlmIndexSigner.result l) =
         Some (l_authorizationHeader l) /\
       headers_are_signed (method p) l /\
       signed_and_returned l (BedrockLlmIndexSigner.result l) ["Host"; "X-Amz-Date"]).
Proof.
  split; [|split; [|split]].
  - intros p w H.
    destruct (BedrockLlm_run_full p w H) as (l & Hrun & _ & _ & Hch & Hsh & _).
    exists l. split; [exact Hrun|]. split; [returned_run Hrun|].
    split; [reflexivity|].
    split; [exact (proj2 (BedrockLlm_headers_are_signed _ _ _ _ Hrun))|].
    split; [rewrite Hsh; reflexivity|].
    exists [l_host l; l_amzDate l]. split; [reflexivity | rewrite Hch; reflexivity].
  - intros p w u H.
    destruct (ListFoundationModels_sigv4 p w u H) as (l & Hrun & _ & _ & _ & Hch & Hsh & Hs).
    exists l. split; [exact Hrun|]. split; [returned_run Hrun|].
    split; [reflexivity|]. split; [exact (sigv4_headers_are_signed _ _ _ Hs)|].
    split; [rewrite Hsh; reflexivity|].
    exists ["application/json"; l_host l; l_amzDate l].
    split; [reflexivity | rewrite Hch; reflexivity].
  - intros lc p w u H.
    destruct (GenerateUploadUrl_sigv4 lc p w u H) as (l & Hrun & _ & _ & _ & Hch & Hsh & Hs).
    exists l. split; [exact Hrun|]. split; [returned_run Hrun|].
    split; [reflexivity|]. split; [exact (sigv4_headers_are_signed _ _ _ Hs)|].
    split; [rewrite Hsh; reflexivity|].
    exists [l_host l; l_payloadHash l; l_amzDate l].
    split; [reflexivity | rewrite Hch; reflexivity].
  - intros p w u path H Hpath.
    destruct (BedrockLlmIndex_sigv4 p w u path H Hpath)
      as (l & Hrun & _ & _ & _ & Hch & Hsh & Hs).
    exists l. split; [exact Hrun|]. split; [returned_run Hrun|].
    split; [reflexivity|]. split; [exact (sigv4_headers_are_signed _ _ _ Hs)|].
    split; [rewrite Hsh; reflexivity|].
    exists [l_host l; l_amzDate l]. split; [reflexivity | rewrite Hch; reflexivity].
Qed.

Lemma signed_headers_are_returned_witness :
  exists l,
    ListFoundationModelsSigner.signRequest_locals
      (BedrockSamples.call "GET" BedrockSamples.foundation_models "") BedrockSamples.world =
      (Normal l, advance 1 12 BedrockSamples.world) /\
    header_get "Authorization" (ListFoundationModelsSigner.result l) =
      Some (l_authorizationHeader l) /\
    headers_are_signed "GET" l /\
    signed_and_returned l (ListFoundationModelsSigner.result l)
                        ["Content-Type"; "Host"; "X-Amz-Date"].
Proof.
  destruct (proj1 (proj2 signed_headers_are_returned)
              (BedrockSamples.call "GET" BedrockSamples.foundation_models "")
              BedrockSamples.world
              (mkURL "bedrock.us-east-1.amazonaws.com" "/foundation-models" "" [])
              eq_refl)
    as (l & Hrun & _ & Ha & Hs & Hr).
  exists l. split; [exact Hrun|]. split; [exact Ha|]. split; [exact Hs | exact Hr].
Defined.

Lemma ListRepositoryFiles_run p w u :
  URL_parse w (url p) = Some u ->
  exists l,
    ListRepositoryFilesSigner.signRequest_locals p w = (Normal l, advance 1 12 w) /\
    l_signedHeaders l = "host;x-amz-date" /\
    l_canonicalHeaders l =
      "host:" ++ hostname u ++ LF ++ "x-amz-date:" ++ l_amzDate l ++ LF /\
    l_canonicalRequest l =
      join LF [method p; l_canonicalUri l; l_canonicalQueryString l;
               l_canonicalHeaders l; l_signedHeaders l; l_payloadHash l] /\
    l_canonicalQueryString l = URLSearchParams_toString (searchParams u).
Proof.
  intros Hparse. run_with_url Hparse.
  eexists. split; [reflexivity|]. project_locals. repeat split; reflexivity.
Qed.

(** C2, as stated, fails: the list-repository-files signer signs [host] but
    the mapping it returns holds no header named host, in any letter case. *)
Lemma signed_host_is_not_returned :
  exists l,
    ListRepositoryFilesSigner.signRequest_locals
      (Samples.get_url Samples.url_listing) Samples.world =
      (Normal l, advance 1 12 Samples.world) /\
    In "host" (split_on ";" (l_signedHeaders l)) /\
    map fst (ListRepositoryFilesSigner.result l) =
      ["Authorization"; "x-amz-date"; "x-amz-content-sha256"] /\
    header_get "host" (ListRepositoryFilesSigner.result l) = None.
Proof.
  destruct (ListRepositoryFiles_run (Samples.get_url Samples.url_listing) Samples.world
              _ eq_refl) as (l & Hrun & Hsh & _).
  exists l. split; [exact Hrun|]. rewrite Hsh.
  split; [left; reflexivity|]. split; reflexivity.
Qed.

(** C2, amended. In the signers of list-repository-files and list-s3-objects
    the SignedHeaders component names host and x-amz-date.  For the values
    [l] a call computes: the returned mapping holds the Authorization value
    of [l], whose SignedHeaders component and signature are those of the
    canonical request with these canonical headers; x-amz-date is present
    in the returned mapping with the value that was signed; host is signed
    with the hostname of the URL and is not part of the returned mapping,
    which holds Authorization, x-amz-date and x-amz-content-sha256: the Host
    header is left to the caller and the HTTP client. *)
Theorem signed_headers_against_returned_headers :
  (forall p w u,
     URL_parse w (url p) = Some u ->
     exists l,
       ListRepositoryFilesSigner.signRequest_locals p w = (Normal l, advance 1 12 w) /\
       ListRepositoryFilesSigner.signRequest p w =
         (Normal (ListRepositoryFilesSigner.result l), advance 1 12 w) /\
       header_get "Authorization" (ListRepositoryFilesSigner.result l) =
         Some (l_authorizationHeader l) /\
       headers_are_signed (method p) l /\
       split_on ";" (l_signedHeaders l) = ["host"; "x-amz-date"] /\
       l_canonicalHeaders l =
         "host:" ++ hostname u ++ LF ++ "x-amz-date:" ++ l_amzDate l ++ LF /\
       header_get "x-amz-date" (ListRepositoryFilesSigner.result l) = Some (l_amzDate l) /\
       header_get "host" (ListRepositoryFilesSigner.result l) = None /\
       map fst (ListRepositoryFilesSigner.result l) =
         ["Authorization"; "x-amz-date"; "x-amz-content-sha256"]) /\
  (forall p w u,
     URL_parse w (url p) = Some u ->
     exists l,
       ListS3ObjectsSigner.signRequest_locals p w = (Normal l, advance 1 12 w) /\
       ListS3ObjectsSigner.signRequest p w =
         (Normal (ListS3ObjectsSigner.result l), advance 1 12 w) /\
       header_get "Authorization" (ListS3ObjectsSigner.result l) =
         Some (l_authorizationHeader l) /\
       headers_are_signed (method p) l /\
       split_on ";" (l_signedHeaders l) = ["host"; "x-amz-date"] /\
       l_canonicalHeaders l =
         "host:" ++ hostname u ++ LF ++ "x-amz-date:" ++ l_amzDate l ++ LF /\
       header_get "x-amz-date" (ListS3ObjectsSigner.result l) = Some (l_amzDate l) /\
       header_get "host" (ListS3ObjectsSigner.result l) = None /\
       map fst (ListS3ObjectsSigner.result l) =
         ["Authorization"; "x-amz-date"; "x-amz-content-sha256"]).
Proof.
  split; intros p w u Hparse.
  - destruct (ListRepositoryFiles_sigv4 p w u Hparse)
      as (l & Hrun & Hh & _ & _ & Hch & Hsh & Hs).
    exists l. split; [exact Hrun|]. split; [returned_run Hrun|].
    split; [reflexivity|]. split; [exact (sigv4_headers_are_signed _ _ _ Hs)|].
    split; [rewrite Hsh; reflexivity|].
    split; [rewrite Hch, Hh; reflexivity|].
    split; [reflexivity|]. split; reflexivity.
  - destruct (ListS3Objects_sigv4 p w u Hparse)
      as (l & Hrun & Hh & _ & _ & Hch & Hsh & Hs).
    exists l. split; [exact Hrun|]. split; [returned_run Hrun|].
    split; [reflexivity|]. split; [exact (sigv4_headers_are_signed _ _ _ Hs)|].
    split; [rewrite Hsh; reflexivity|].
    split; [rewrite Hch, Hh; reflexivity|].
    split; [reflexivity|]. split; reflexivity.
Qed.

Lemma signed_headers_against_returned_headers_witness :
  exists l,
    ListRepositoryFilesSigner.signRequest_locals
      (Samples.get_url Samples.url_listing) Samples.world =
      (Normal l, advance 1 12 Samples.world) /\
    ListRepositoryFilesSigner.signRequest
      (Samples.get_url Samples.url_listing) Samples.world =
      (Normal (ListRepositoryFilesSigner.result l), advance 1 12 Samples.world) /\
    headers_are_signed "GET" l /\
    split_on ";" (l_signedHeaders l) = ["host"; "x-amz-date"] /\
    header_get "x-amz-date" (ListRepositoryFilesSigner.result l) = Some (l_amzDate l) /\
    header_get "host" (ListRepositoryFilesSigner.result l) = None.
Proof.
  destruct (proj1 signed_headers_against_returned_headers
              (Samples.get_url Samples.url_listing) Samples.world
              (mkURL Samples.repo_host "/" "list-type=2&max-keys=1000&continuation-token=abc"
                 [("list-type", "2"); ("max-keys", "1000"); ("continuation-token", "abc")])
              eq_refl)
    as (l & Hl & Hrun & _ & Hs & Hsh & _ & Hd & Hh & _).
  exists l. split; [exact Hl|]. split; [exact Hrun|]. split; [exact Hs|].
  split; [exact Hsh|]. split; [exact Hd | exact Hh].
Defined.

(** ** Signing keys *)

(** X2. [signRequest] of bedrock-llm/aws-signer.ts signs under the service
    key: its key is the chain of three HMACs over date stamp, region and
    service, the fourth step over "aws4_request" is never applied (the
    Signature Version 4 signing key is one more HMAC away), although the
    credential scope it sends ends in "aws4_request". *)
Theorem bedrock_llm_signs_under_the_service_key :
  forall p w,
    target_resolves p w = true ->
    exists l,
      BedrockLlmSigner.signRequest_locals p w = (Normal l, advance 1 10 w) /\
      l_signingKey l =
        kService_chain (BedrockLlmSigner.secretAccessKey p) (l_dateStamp l)
                       (BedrockLlmSigner.region p) (BedrockLlmSigner.service p) /\
      kSigning_chain (BedrockLlmSigner.secretAccessKey p) (l_dateStamp l)
                     (BedrockLlmSigner.region p) (BedrockLlmSigner.service p) =
        Hmac.sign (l_signingKey l) (encode "aws4_request") /\
      l_signature l = toHex (Hmac.sign (l_signingKey l) (encode (l_stringToSign l))) /\
      l_credentialScope l =
        l_dateStamp l ++ "/" ++ BedrockLlmSigner.region p ++ "/" ++
        BedrockLlmSigner.service p ++ "/aws4_request" /\
      header_get "Authorization" (BedrockLlmSigner.result l) =
        Some (Authorization_value
                (BedrockLlmSigner.accessKeyId p ++ "/" ++ l_credentialScope l)
                "host;x-amz-date" (l_signature l)).
Proof.
  intros p w H.
  destruct (BedrockLlm_run_full p w H)
    as (l & Hrun & _ & _ & _ & Hsh & Hscope & Hkey & Hsig & Hauth).
  exists l. split; [exact Hrun|]. split; [exact Hkey|].
  split; [rewrite Hkey; reflexivity|]. split; [exact Hsig|]. split; [exact Hscope|].
  cbn [BedrockLlmSigner.result header_get String.eqb Ascii.eqb Bool.eqb].
  rewrite Hauth, Hsh. reflexivity.
Qed.

Lemma bedrock_llm_signs_under_the_service_key_witness :
  exists l,
    BedrockLlmSigner.signRequest_locals Samples.get_test_txt Samples.world =
      (Normal l, advance 1 10 Samples.world) /\
    l_signingKey l = kService_chain Samples.secret (l_dateStamp l) "us-east-1" "s3".
Proof.
  destruct (bedrock_llm_signs_under_the_service_key Samples.get_test_txt Samples.world
              eq_refl) as (l & Hrun & Hkey & _).
  exists l. split; [exact Hrun | exact Hkey].
Defined.

Lemma sigv4_signature_hex64 p now l : sigv4_locals p now l -> hex64 (l_signature l).
Proof.
  intros (_ & _ & _ & _ & _ & _ & _ & Hsig & _). rewrite Hsig. apply hmac_hex_shape.
Qed.

(** X3. The signers of generate-upload-url, list-s3-objects/index.ts,
    part_001 and bedrock-llm/index.ts derive their values as Signature
    Version 4 prescribes: payload hash, canonical request, credential scope
    and string to sign are assembled from the parts in the prescribed order,
    the signing key is the chain of four HMACs, and the signature, 64
    lower-case hexadecimal characters, is the HMAC of the string to sign
    under that key, placed in the Authorization value. *)
Theorem remaining_signers_derive_the_four_step_key :
  (forall localeCompare p w u,
     URL_parse w (url p) = Some u ->
     exists l,
       GenerateUploadUrlSigner.signRequest_locals localeCompare p w =
         (Normal l, advance 1 12 w) /\
       sigv4_locals p (clock w (clock_reads w)) l /\ hex64 (l_signature l)) /\
  (forall p w u,
     URL_parse w (url p) = Some u ->
     exists l,
       ListS3ObjectsSigner.signRequest_locals p w = (Normal l, advance 1 12 w) /\
       sigv4_locals p (clock w (clock_reads w)) l /\ hex64 (l_signature l)) /\
  (forall p w u,
     URL_parse w (url p) = Some u ->
     exists l,
       Part001Signer.signRequest_locals p w = (Normal l, advance 1 12 w) /\
       sigv4_locals p (clock w (clock_reads w)) l /\ hex64 (l_signature l)) /\
  (forall p w u path,
     URL_parse w (url p) = Some u ->
     normalized_path (pathname u) = Some path ->
     exists l,
       BedrockLlmIndexSigner.signRequest_locals p w = (Normal l, advance 1 12 w) /\
       sigv4_locals p (clock w (clock_reads w)) l /\ hex64 (l_signature l)).
Proof.
  split; [|split; [|split]].
  - intros lc p w u H.
    destruct (GenerateUploadUrl_sigv4 lc p w u H) as (l & Hrun & _ & _ & _ & _ & _ & Hs).
    exists l. split; [exact Hrun|]. split; [exact Hs | exact (sigv4_signature_hex64 _ _ _ Hs)].
  - intros p w u H.
    destruct (ListS3Objects_sigv4 p w u H) as (l & Hrun & _ & _ & _ & _ & _ & Hs).
    exists l. split; [exact Hrun|]. split; [exact Hs | exact (sigv4_signature_hex64 _ _ _ Hs)].
  - intros p w u H.
    destruct (Part001_sigv4 p w u H) as (l & Hrun & _ & _ & _ & _ & _ & Hs).
    exists l. split; [exact Hrun|]. split; [exact Hs | exact (sigv4_signature_hex64 _ _ _ Hs)].
  - intros p w u path H Hpath.
    destruct (BedrockLlmIndex_sigv4 p w u path H Hpath)
      as (l & Hrun & _ & _ & _ & _ & _ & Hs).
    exists l. split; [exact Hrun|]. split; [exact Hs | exact (sigv4_signature_hex64 _ _ _ Hs)].
Qed.

Lemma remaining_signers_derive_the_four_step_key_witness :
  exists l,
    ListS3ObjectsSigner.signRequest_locals
      (Samples.get_url Samples.url_listing) Samples.world =
      (Normal l, advance 1 12 Samples.world) /\
    l_signingKey l = kSigning_chain Samples.secret (l_dateStamp l) "us-east-1" "s3" /\
    hex64 (l_signature l).
Proof.
  destruct (proj1 (proj2 remaining_signers_derive_the_four_step_key)
              (Samples.get_url Samples.url_listing) Samples.world
              (mkURL Samples.repo_host "/" "list-type=2&max-keys=1000&continuation-token=abc"
                 [("list-type", "2"); ("max-keys", "1000"); ("continuation-token", "abc")])
              eq_refl)
    as (l & Hrun & (_ & _ & _ & _ & _ & _ & Hkey & _) & Hhex).
  exists l. split; [exact Hrun|]. split; [exact Hkey | exact Hhex].
Defined.
(** ** The scenario of the specification *)










(** ** What the signature depends on *)

Lemma sigv4_locals_agree p1 p2 now l1 l2 :
  sigv4_locals p1 now l1 -> sigv4_locals p2 now l2 ->
  method p1 = method p2 -> body p1 = body p2 ->
  region p1 = region p2 -> service p1 = service p2 ->
  accessKeyId p1 = accessKeyId p2 -> secretAccessKey p1 = secretAccessKey p2 ->
  l_canonicalUri l1 = l_canonicalUri l2 ->
  l_canonicalQueryString l1 = l_canonicalQueryString l2 ->
  l_canonicalHeaders l1 = l_canonicalHeaders l2 ->
  l_signedHeaders l1 = l_signedHeaders l2 ->
  l_amzDate l1 = l_amzDate l2 /\ l_payloadHash l1 = l_payloadHash l2 /\
  l_authorizationHeader l1 = l_authorizationHeader l2.
Proof.
  intros (A1 & A2 & A3 & A4 & A5 & A6 & A7 & A8 & A9)
         (B1 & B2 & B3 & B4 & B5 & B6 & B7 & B8 & B9) Hm Hb Hr Hs Hak Hsk Hu Hq Hh Hsh.
  assert (Hd : l_amzDate l1 = l_amzDate l2) by congruence.
  assert (Hds : l_dateStamp l1 = l_dateStamp l2) by congruence.
  assert (Hp : l_payloadHash l1 = l_payloadHash l2) by congruence.
  assert (Hcr : l_canonicalRequest l1 = l_canonicalRequest l2) by congruence.
  assert (Hsc : l_credentialScope l1 = l_credentialScope l2) by congruence.
  assert (Hsts : l_stringToSign l1 = l_stringToSign l2) by congruence.
  assert (Hk : l_signingKey l1 = l_signingKey l2) by congruence.
  assert (Hsig : l_signature l1 = l_signature l2) by congruence.
  split; [exact Hd|]. split; [exact Hp|]. congruence.
Qed.

(** X4. The signers of list-foundation-models and of bedrock-llm/index.ts
    leave the query of the URL out of what they sign: two URLs with the same
    host name and path, whatever their queries, get the same headers (or,
    in bedrock-llm/index.ts, the same error), signature included. *)
Theorem query_is_left_out_of_the_signature :
  (forall p url' w u u',
     URL_parse w (url p) = Some u -> URL_parse w url' = Some u' ->
     hostname u = hostname u' -> pathname u = pathname u' ->
     ListFoundationModelsSigner.signRequest (with_url p url') w =
     ListFoundationModelsSigner.signRequest p w) /\
  (forall p url' w u u',
     URL_parse w (url p) = Some u -> URL_parse w url' = Some u' ->
     hostname u = hostname u' -> pathname u = pathname u' ->
     BedrockLlmIndexSigner.signRequest (with_url p url') w =
     BedrockLlmIndexSigner.signRequest p w).
Proof.
  split; intros p url' w u u' H H' Hh Hp.
  - destruct (ListFoundationModels_sigv4 p w u H)
      as (l & Hrun & Hhost & Huri & Hq & Hch & Hsh & Hs).
    destruct (ListFoundationModels_sigv4 (with_url p url') w u' H')
      as (l' & Hrun' & Hhost' & Huri' & Hq' & Hch' & Hsh' & Hs').
    unfold_signRequest. rewrite Hrun, Hrun'.
    assert (E : l_host l' = l_host l) by congruence.
    destruct (sigv4_locals_agree _ _ _ _ _ Hs' Hs) as (Ed & _ & Ea);
      try reflexivity; try congruence.
    { rewrite Hch, Hch', E.
      destruct Hs as (-> & _), Hs' as (-> & _). reflexivity. }
    unfold ListFoundationModelsSigner.result, ret. rewrite E, Ed, Ea. reflexivity.
  - destruct (normalized_path (pathname u)) as [path|] eqn:Hpath.
    + destruct (BedrockLlmIndex_sigv4 p w u path H Hpath)
        as (l & Hrun & Hhost & Huri & Hq & Hch & Hsh & Hs).
      rewrite Hp in Hpath.
      destruct (BedrockLlmIndex_sigv4 (with_url p url') w u' path H' Hpath)
        as (l' & Hrun' & Hhost' & Huri' & Hq' & Hch' & Hsh' & Hs').
      unfold_signRequest. rewrite Hrun, Hrun'.
      assert (E : l_host l' = l_host l) by congruence.
      destruct (sigv4_locals_agree _ _ _ _ _ Hs' Hs) as (Ed & _ & Ea);
        try reflexivity; try congruence.
      { rewrite Hch, Hch', E.
        destruct Hs as (-> & _), Hs' as (-> & _). reflexivity. }
      unfold BedrockLlmIndexSigner.result, ret. rewrite E, Ed, Ea. reflexivity.
    + unfold_signRequest.
      rewrite (BedrockLlmIndex_run_malformed p w u H Hpath).
      rewrite Hp in Hpath.
      rewrite (BedrockLlmIndex_run_malformed (with_url p url') w u' H' Hpath).
      reflexivity.
Qed.

Lemma query_is_left_out_of_the_signature_witness :
  ListFoundationModelsSigner.signRequest
    (with_url (BedrockSamples.call "GET" BedrockSamples.foundation_models "")
              BedrockSamples.foundation_models_by_provider)
    BedrockSamples.world =
  ListFoundationModelsSigner.signRequest
    (BedrockSamples.call "GET" BedrockSamples.foundation_models "") BedrockSamples.world.
Proof.
  apply (proj1 query_is_left_out_of_the_signature
           (BedrockSamples.call "GET" BedrockSamples.foundation_models "")
           BedrockSamples.foundation_models_by_provider BedrockSamples.world
           (mkURL "bedrock.us-east-1.amazonaws.com" "/foundation-models" "" [])
           (mkURL "bedrock.us-east-1.amazonaws.com" "/foundation-models"
                  "byProvider=anthropic" [("byProvider", "anthropic")]));
    reflexivity.
Defined.

Lemma substring1_search (u : URL) : Part001Signer.substring1 (search u) = query u.
Proof.
  unfold search. destruct (String.eqb (query u) "") eqn:E.
  - apply String.eqb_eq in E. now rewrite E.
  - reflexivity.
Qed.

(** X5. The three signers of the S3 listing calls return the same headers
    where their readings of the URL meet: list-repository-files and part_001
    agree on every URL whose query is what its parameters serialise to, and
    list-s3-objects agrees with part_001 on every URL with a non-empty path
    and no query. *)
Theorem listing_signers_agree :
  (forall p w u,
     URL_parse w (url p) = Some u ->
     URLSearchParams_toString (searchParams u) = query u ->
     ListRepositoryFilesSigner.signRequest p w = Part001Signer.signRequest p w) /\
  (forall p w u,
     URL_parse w (url p) = Some u ->
     query u = "" -> pathname u <> "" ->
     ListS3ObjectsSigner.signRequest p w = Part001Signer.signRequest p w).
Proof.
  split.
  - intros p w u H Hq.
    destruct (ListRepositoryFiles_sigv4 p w u H)
      as (l & Hrun & Hhost & Huri & Hquery & Hch & Hsh & Hs).
    destruct (Part001_sigv4 p w u H)
      as (l' & Hrun' & Hhost' & Huri' & Hquery' & Hch' & Hsh' & Hs').
    unfold_signRequest. rewrite Hrun, Hrun'.
    rewrite substring1_search in Hquery'.
    destruct (sigv4_locals_agree _ _ _ _ _ Hs Hs') as (Ed & Ep & Ea);
      try reflexivity; try congruence.
    { rewrite Hch, Hch', Hhost, Hhost'.
      destruct Hs as (-> & _), Hs' as (-> & _). reflexivity. }
    unfold ListRepositoryFilesSigner.result, Part001Signer.result, ret.
    rewrite Ed, Ep, Ea. reflexivity.
  - intros p w u H Hq Hpath.
    destruct (ListS3Objects_sigv4 p w u H)
      as (l & Hrun & Hhost & Huri & Hquery & Hch & Hsh & Hs).
    destruct (Part001_sigv4 p w u H)
      as (l' & Hrun' & Hhost' & Huri' & Hquery' & Hch' & Hsh' & Hs').
    unfold_signRequest. rewrite Hrun, Hrun'.
    rewrite substring1_search, Hq in Hquery'.
    assert (Eu : l_canonicalUri l = l_canonicalUri l').
    { rewrite Huri, Huri'. unfold search, or_else. rewrite Hq. cbn [String.eqb].
      rewrite append_empty_r.
      destruct (String.eqb (pathname u) "") eqn:E; [|reflexivity].
      apply String.eqb_eq in E. contradiction. }
    destruct (sigv4_locals_agree _ _ _ _ _ Hs Hs') as (Ed & Ep & Ea);
      try reflexivity; try congruence.
    { rewrite Hch, Hch', Hhost, Hhost'.
      destruct Hs as (-> & _), Hs' as (-> & _). reflexivity. }
    unfold ListS3ObjectsSigner.result, Part001Signer.result, ret.
    rewrite Ed, Ep, Ea. reflexivity.
Qed.

Lemma listing_signers_agree_witness :
  ListRepositoryFilesSigner.signRequest (Samples.get_url Samples.url_listing) Samples.world =
  Part001Signer.signRequest (Samples.get_url Samples.url_listing) Samples.world.
Proof.
  apply (proj1 listing_signers_agree
           (Samples.get_url Samples.url_listing) Samples.world
           (mkURL Samples.repo_host "/" "list-type=2&max-keys=1000&continuation-token=abc"
              [("list-type", "2"); ("max-keys", "1000"); ("continuation-token", "abc")]));
    reflexivity.
Defined.

(** ** Errors *)

Ltac throws_on H :=
  match type of H with
  | URL_parse ?w _ = None =>
      destruct w as [parse clk reads calls]; cbn [URL_parse] in H;
      unfold_signRequest; unfold_signers; unfold_index_signer; unfold_signRequest;
      cbv beta iota delta [new_URL new_Date URL_parse clock clock_reads subtle_calls];
      rewrite H; reflexivity
  end.

(** X6. The signers that take a URL throw exactly when [new URL] does, with
    the TypeError of [new URL], before the clock is read and before any
    digest or HMAC is computed (the world is left as it was); on every URL
    that parses they return headers, after one clock reading and twelve
    calls of [crypto.subtle], whatever the credentials. *)
Theorem url_signers_throw_exactly_on_unparsable_urls :
  (forall p w,
     match URL_parse w (url p) with
     | Some _ =>
         exists h, ListFoundationModelsSigner.signRequest p w = (Normal h, advance 1 12 w)
     | None =>
         ListFoundationModelsSigner.signRequest p w = (Throw (TypeError "Invalid URL"), w)
     end) /\
  (forall localeCompare p w,
     match URL_parse w (url p) with
     | Some _ =>
         exists h, GenerateUploadUrlSigner.signRequest localeCompare p w =
                   (Normal h, advance 1 12 w)
     | None =>
         GenerateUploadUrlSigner.signRequest localeCompare p w =
         (Throw (TypeError "Invalid URL"), w)
     end) /\
  (forall p w,
     match URL_parse w (url p) with
     | Some _ =>
         exists h, ListRepositoryFilesSigner.signRequest p w = (Normal h, advance 1 12 w)
     | None =>
         ListRepositoryFilesSigner.signRequest p w = (Throw (TypeError "Invalid URL"), w)
     end) /\
  (forall p w,
     match URL_parse w (url p) with
     | Some _ =>
         exists h, ListS3ObjectsSigner.signRequest p w = (Normal h, advance 1 12 w)
     | None =>
         ListS3ObjectsSigner.signRequest p w = (Throw (TypeError "Invalid URL"), w)
     end).
Proof.
  split; [|split; [|split]].
  - intros p w. destruct (URL_parse w (url p)) as [u|] eqn:H.
    + destruct (ListFoundationModels_sigv4 p w u H) as (l & Hrun & _).
      eexists. returned_run Hrun.
    + throws_on H.
  - intros lc p w. destruct (URL_parse w (url p)) as [u|] eqn:H.
    + destruct (GenerateUploadUrl_sigv4 lc p w u H) as (l & Hrun & _).
      eexists. returned_run Hrun.
    + throws_on H.
  - intros p w. destruct (URL_parse w (url p)) as [u|] eqn:H.
    + destruct (ListRepositoryFiles_sigv4 p w u H) as (l & Hrun & _).
      eexists. returned_run Hrun.
    + throws_on H.
  - intros p w. destruct (URL_parse w (url p)) as [u|] eqn:H.
    + destruct (ListS3Objects_sigv4 p w u H) as (l & Hrun & _).
      eexists. returned_run Hrun.
    + throws_on H.
Qed.

(** X7. The signer of part_001 reads the clock before it parses the URL: on
    a URL that does not parse it throws the TypeError after one clock
    reading.  The signer of bedrock-llm/index.ts throws the TypeError on such
    a URL, and a URIError when a segment of the path is not a well-formed
    percent-encoding, in both cases with the clock unread and nothing
    hashed; on every other URL it returns headers. *)
Theorem part_001_and_bedrock_llm_index_errors :
  (forall p w,
     match URL_parse w (url p) with
     | Some _ => exists h, Part001Signer.signRequest p w = (Normal h, advance 1 12 w)
     | None =>
         Part001Signer.signRequest p w = (Throw (TypeError "Invalid URL"), advance 1 0 w)
     end) /\
  (forall p w,
     match URL_parse w (url p) with
     | Some u =>
         match normalized_path (pathname u) with
         | Some _ =>
             exists h, BedrockLlmIndexSigner.signRequest p w = (Normal h, advance 1 12 w)
         | None =>
             BedrockLlmIndexSigner.signRequest p w = (Throw (URIError "URI malformed"), w)
         end
     | None =>
         BedrockLlmIndexSigner.signRequest p w = (Throw (TypeError "Invalid URL"), w)
     end).
Proof.
  split.
  - intros p w. destruct (URL_parse w (url p)) as [u|] eqn:H.
    + destruct (Part001_sigv4 p w u H) as (l & Hrun & _).
      eexists. returned_run Hrun.
    + throws_on H.
  - intros p w. destruct (URL_parse w (url p)) as [u|] eqn:H.
    + destruct (normalized_path (pathname u)) as [path|] eqn:Hpath.
      * destruct (BedrockLlmIndex_sigv4 p w u path H Hpath) as (l & Hrun & _).
        eexists. returned_run Hrun.
      * unfold_signRequest. now rewrite (BedrockLlmIndex_run_malformed p w u H Hpath).
    + throws_on H.
Qed.

(** The sample path "/model/100%/converse" is such a path. *)
Example malformed_sample_path : normalized_path "/model/100%/converse" = None.
Proof. reflexivity. Qed.

(** ** Time stamps *)

Lemma sigv4_dates p now l :
  sigv4_locals p now l -> Date_wf now -> 0 <= year now <= 9999 ->
  l_amzDate l = basic_format now /\ l_dateStamp l = date_stamp_format now.
Proof.
  intros (Hd & Hds & _) Hwf Hy. rewrite Hds, Hd, (amzDate_basic_format now Hwf Hy).
  split; [reflexivity | apply dateStamp_of_basic_format].
Qed.

(** C8. In every signing call (the signer of part_001) whose clock reading
    is a calendar date with a four-digit year, [amzDate] is that instant in
    UTC as YYYYMMDDTHHMMSSZ and [dateStamp] its first eight characters; the
    clock is read exactly once, and the one [amzDate] value is the one
    returned as x-amz-date and the one inside the signed canonical headers
    and the string to sign: the canonical headers stand in the canonical
    request, its hash in the string to sign, and the signature returned in
    the Authorization header is the tag of that string to sign under the
    key derived from [dateStamp]. *)
Theorem amz_date_formatted_once_and_reused :
  forall p w u,
    URL_parse w (url p) = Some u ->
    Date_wf (clock w (clock_reads w)) ->
    0 <= year (clock w (clock_reads w)) <= 9999 ->
    exists l,
      Part001Signer.signRequest_locals p w = (Normal l, advance 1 12 w) /\
      Part001Signer.signRequest p w =
        (Normal (Part001Signer.result l), advance 1 12 w) /\
      clock_reads (advance 1 12 w) = S (clock_reads w) /\
      l_amzDate l = basic_format (clock w (clock_reads w)) /\
      String.length (l_amzDate l) = 16%nat /\
      l_dateStamp l = slice0 8 (l_amzDate l) /\
      l_dateStamp l = date_stamp_format (clock w (clock_reads w)) /\
      header_get "x-amz-date" (Part001Signer.result l) = Some (l_amzDate l) /\
      l_canonicalHeaders l =
        "host:" ++ hostname u ++ LF ++ "x-amz-date:" ++ l_amzDate l ++ LF /\
      l_canonicalRequest l =
        method p ++ LF ++ l_canonicalUri l ++ LF ++ l_canonicalQueryString l ++ LF ++
        l_canonicalHeaders l ++ LF ++ l_signedHeaders l ++ LF ++ l_payloadHash l /\
      l_credentialScope l =
        l_dateStamp l ++ "/" ++ region p ++ "/" ++ service p ++ "/aws4_request" /\
      l_stringToSign l =
        "AWS4-HMAC-SHA256" ++ LF ++ l_amzDate l ++ LF ++ l_credentialScope l ++ LF ++
        toHex (Sha256.digest (encode (l_canonicalRequest l))) /\
      l_signingKey l =
        kSigning_chain (secretAccessKey p) (l_dateStamp l) (region p) (service p) /\
      l_signature l = toHex (Hmac.sign (l_signingKey l) (encode (l_stringToSign l))) /\
      header_get "Authorization" (Part001Signer.result l) =
        Some (Authorization_value (accessKeyId p ++ "/" ++ l_credentialScope l)
                                  (l_signedHeaders l) (l_signature l)).
Proof.
  intros p w u Hparse Hwf Hy.
  destruct (Part001_sigv4 p w u Hparse) as (l & Hrun & Hh & _ & _ & Hch & _ & Hs).
  destruct (sigv4_dates _ _ _ Hs Hwf Hy) as (Hd & Hds).
  destruct Hs as (_ & Hsl & _ & Hc & Hcs & Hsts & Hk & Hsig & Ha).
  exists l. split; [exact Hrun|]. split; [returned_run Hrun|].
  split; [reflexivity|]. split; [exact Hd|].
  split; [rewrite Hd; apply basic_format_length|].
  split; [exact Hsl|]. split; [exact Hds|]. split; [reflexivity|].
  split; [rewrite Hch, Hh; reflexivity|].
  split; [exact Hc|]. split; [exact Hcs|]. split; [exact Hsts|].
  split; [exact Hk|]. split; [exact Hsig|].
  change (header_get "Authorization" (Part001Signer.result l))
    with (Some (l_authorizationHeader l)).
  now rewrite Ha.
Qed.

Lemma amz_date_formatted_once_and_reused_witness :
  exists l,
    Part001Signer.signRequest_locals (Samples.get_url Samples.url_test_txt) Samples.world =
      (Normal l, advance 1 12 Samples.world) /\
    l_amzDate l = "20130524T000000Z" /\
    l_dateStamp l = "20130524" /\
    header_get "x-amz-date" (Part001Signer.result l) = Some "20130524T000000Z" /\
    l_stringToSign l =
      "AWS4-HMAC-SHA256" ++ LF ++ "20130524T000000Z" ++ LF ++ l_credentialScope l ++ LF ++
      toHex (Sha256.digest (encode (l_canonicalRequest l))).
Proof.
  destruct (amz_date_formatted_once_and_reused
              (Samples.get_url Samples.url_test_txt) Samples.world
              (mkURL "examplebucket.s3.amazonaws.com" "/test.txt" "" []))
    as (l & Hrun & _ & _ & Hamz & _ & _ & Hds & Hh & _ & _ & _ & Hsts & _).
  - reflexivity.
  - unfold Date_wf. cbn. lia.
  - cbn. lia.
  - exists l. rewrite Hh, Hsts, Hamz, Hds.
    split; [exact Hrun|]. split; [reflexivity|]. split; [reflexivity|].
    split; reflexivity.
Defined.

(** X8. In the signers of list-foundation-models, generate-upload-url,
    list-repository-files and list-s3-objects/index.ts, when the clock
    reading is a calendar date with a four-digit year, the [amzDate] a call
    computes is that instant as YYYYMMDDTHHMMSSZ and its [dateStamp] is
    YYYYMMDD; the clock is read once, that one [amzDate] is returned as the
    X-Amz-Date header, and the two are the values that are signed:
    [amzDate] stands in the string to sign, [dateStamp] opens the
    credential scope and keys the signing key. *)
Theorem amz_date_in_the_aws_signer_files :
  forall w,
    Date_wf (clock w (clock_reads w)) ->
    0 <= year (clock w (clock_reads w)) <= 9999 ->
    (forall p u,
       URL_parse w (url p) = Some u ->
       exists l,
         ListFoundationModelsSigner.signRequest_locals p w = (Normal l, advance 1 12 w) /\
         ListFoundationModelsSigner.signRequest p w =
           (Normal (ListFoundationModelsSigner.result l), advance 1 12 w) /\
         l_amzDate l = basic_format (clock w (clock_reads w)) /\
         l_dateStamp l = date_stamp_format (clock w (clock_reads w)) /\
         header_get "X-Amz-Date" (ListFoundationModelsSigner.result l) =
           Some (l_amzDate l) /\
         sigv4_locals p (clock w (clock_reads w)) l) /\
    (forall localeCompare p u,
       URL_parse w (url p) = Some u ->
       exists l,
         GenerateUploadUrlSigner.signRequest_locals localeCompare p w =
           (Normal l, advance 1 12 w) /\
         GenerateUploadUrlSigner.signRequest localeCompare p w =
           (Normal (GenerateUploadUrlSigner.result l), advance 1 12 w) /\
         l_amzDate l = basic_format (clock w (clock_reads w)) /\
         l_dateStamp l = date_stamp_format (clock w (clock_reads w)) /\
         header_get "X-Amz-Date" (GenerateUploadUrlSigner.result l) =
           Some (l_amzDate l) /\
         sigv4_locals p (clock w (clock_reads w)) l) /\
    (forall p u,
       URL_parse w (url p) = Some u ->
       exists l,
         ListRepositoryFilesSigner.signRequest_locals p w = (Normal l, advance 1 12 w) /\
         ListRepositoryFilesSigner.signRequest p w =
           (Normal (ListRepositoryFilesSigner.result l), advance 1 12 w) /\
         l_amzDate l = basic_format (clock w (clock_reads w)) /\
         l_dateStamp l = date_stamp_format (clock w (clock_reads w)) /\
         header_get "x-amz-date" (ListRepositoryFilesSigner.result l) =
           Some (l_amzDate l) /\
         sigv4_locals p (clock w (clock_reads w)) l) /\
    (forall p u,
       URL_parse w (url p) = Some u ->
       exists l,
         ListS3ObjectsSigner.signRequest_locals p w = (Normal l, advance 1 12 w) /\
         ListS3ObjectsSigner.signRequest p w =
           (Normal (ListS3ObjectsSigner.result l), advance 1 12 w) /\
         l_amzDate l = basic_format (clock w (clock_reads w)) /\
         l_dateStamp l = date_stamp_format (clock w (clock_reads w)) /\
         header_get "x-amz-date" (ListS3ObjectsSigner.result l) =
           Some (l_amzDate l) /\
         sigv4_locals p (clock w (clock_reads w)) l).
Proof.
  intros w Hwf Hy. split; [|split; [|split]].
  - intros p u H.
    destruct (ListFoundationModels_sigv4 p w u H) as (l & Hrun & _ & _ & _ & _ & _ & Hs).
    destruct (sigv4_dates _ _ _ Hs Hwf Hy) as (Hd & Hds).
    exists l. split; [exact Hrun|]. split; [returned_run Hrun|]. split; [exact Hd|].
    split; [exact Hds|]. split; [reflexivity | exact Hs].
  - intros lc p u H.
    destruct (GenerateUploadUrl_sigv4 lc p w u H) as (l & Hrun & _ & _ & _ & _ & _ & Hs).
    destruct (sigv4_dates _ _ _ Hs Hwf Hy) as (Hd & Hds).
    exists l. split; [exact Hrun|]. split; [returned_run Hrun|]. split; [exact Hd|].
    split; [exact Hds|]. split; [reflexivity | exact Hs].
  - intros p u H.
    destruct (ListRepositoryFiles_sigv4 p w u H) as (l & Hrun & _ & _ & _ & _ & _ & Hs).
    destruct (sigv4_dates _ _ _ Hs Hwf Hy) as (Hd & Hds).
    exists l. split; [exact Hrun|]. split; [returned_run Hrun|]. split; [exact Hd|].
    split; [exact Hds|]. split; [reflexivity | exact Hs].
  - intros p u H.
    destruct (ListS3Objects_sigv4 p w u H) as (l & Hrun & _ & _ & _ & _ & _ & Hs).
    destruct (sigv4_dates _ _ _ Hs Hwf Hy) as (Hd & Hds).
    exists l. split; [exact Hrun|]. split; [returned_run Hrun|]. split; [exact Hd|].
    split; [exact Hds|]. split; [reflexivity | exact Hs].
Qed.

Lemma amz_date_in_the_aws_signer_files_witness :
  exists l,
    ListFoundationModelsSigner.signRequest_locals
      (BedrockSamples.call "GET" BedrockSamples.foundation_models "") BedrockSamples.world =
      (Normal l, advance 1 12 BedrockSamples.world) /\
    l_amzDate l = "20130524T000000Z" /\
    l_dateStamp l = "20130524" /\
    header_get "X-Amz-Date" (ListFoundationModelsSigner.result l) = Some "20130524T000000Z".
Proof.
  assert (Hwf : Date_wf (clock BedrockSamples.world (clock_reads BedrockSamples.world)))
    by (unfold Date_wf; cbn; lia).
  assert (Hy : 0 <= year (clock BedrockSamples.world (clock_reads BedrockSamples.world))
               <= 9999) by (cbn; lia).
  destruct (proj1 (amz_date_in_the_aws_signer_files BedrockSamples.world Hwf Hy)
              (BedrockSamples.call "GET" BedrockSamples.foundation_models "")
              (mkURL "bedrock.us-east-1.amazonaws.com" "/foundation-models" "" [])
              eq_refl)
    as (l & Hrun & _ & Hd & Hds & Hh & _).
  exists l. split; [exact Hrun|]. rewrite Hh, Hd, Hds.
  split; [reflexivity|]. split; reflexivity.
Defined.

(** X9. In the two signers of bedrock-llm (aws-signer.ts, given its target
    by URL or by host and path, and index.ts), when the clock reading is a
    calendar date with a four-digit year, the [amzDate] a call computes is
    that instant as YYYYMMDDTHHMMSSZ and its [dateStamp] is YYYYMMDD; the
    clock is read once, that one [amzDate] is returned as the X-Amz-Date
    header, and the two are the values that are signed: [amzDate] stands
    in the canonical headers and in the string to sign, [dateStamp] opens
    the credential scope and keys the signing key. *)
Theorem amz_date_in_the_bedrock_llm_signers :
  forall w,
    Date_wf (clock w (clock_reads w)) ->
    0 <= year (clock w (clock_reads w)) <= 9999 ->
    (forall p,
       target_resolves p w = true ->
       exists l,
         BedrockLlmSigner.signRequest_locals p w = (Normal l, advance 1 10 w) /\
         BedrockLlmSigner.signRequest p w =
           (Normal (BedrockLlmSigner.result l), advance 1 10 w) /\
         l_amzDate l = basic_format (clock w (clock_reads w)) /\
         l_dateStamp l = date_stamp_format (clock w (clock_reads w)) /\
         header_get "X-Amz-Date" (BedrockLlmSigner.result l) = Some (l_amzDate l) /\
         l_canonicalHeaders l =
           "host:" ++ l_host l ++ LF ++ "x-amz-date:" ++ l_amzDate l ++ LF /\
         l_credentialScope l =
           l_dateStamp l ++ "/" ++ BedrockLlmSigner.region p ++ "/" ++
           BedrockLlmSigner.service p ++ "/aws4_request" /\
         l_signingKey l =
           kService_chain (BedrockLlmSigner.secretAccessKey p) (l_dateStamp l)
                          (BedrockLlmSigner.region p) (BedrockLlmSigner.service p) /\
         header_get "Authorization" (BedrockLlmSigner.result l) =
           Some (l_authorizationHeader l) /\
         headers_are_signed (BedrockLlmSigner.method p) l) /\
    (forall p u path,
       URL_parse w (url p) = Some u ->
       normalized_path (pathname u) = Some path ->
       exists l,
         BedrockLlmIndexSigner.signRequest_locals p w = (Normal l, advance 1 12 w) /\
         BedrockLlmIndexSigner.signRequest p w =
           (Normal (BedrockLlmIndexSigner.result l), advance 1 12 w) /\
         l_amzDate l = basic_format (clock w (clock_reads w)) /\
         l_dateStamp l = date_stamp_format (clock w (clock_reads w)) /\
         header_get "X-Amz-Date" (BedrockLlmIndexSigner.result l) = Some (l_amzDate l) /\
         l_canonicalHeaders l =
           "host:" ++ l_host l ++ LF ++ "x-amz-date:" ++ l_amzDate l ++ LF /\
         header_get "Authorization" (BedrockLlmIndexSigner.result l) =
           Some (l_authorizationHeader l) /\
         sigv4_locals p (clock w (clock_reads w)) l).
Proof.
  intros w Hwf Hy. split.
  - intros p H.
    destruct (BedrockLlm_run_full p w H)
      as (l & Hrun & Hd & Hds & Hch & _ & Hcs & Hk & _).
    exists l. split; [exact Hrun|]. split; [returned_run Hrun|].
    split; [rewrite Hd; apply (amzDate_basic_format _ Hwf Hy)|].
    split; [rewrite Hds, Hd, (amzDate_basic_format _ Hwf Hy);
            apply dateStamp_of_basic_format|].
    split; [reflexivity|]. split; [exact Hch|]. split; [exact Hcs|].
    split; [exact Hk|]. split; [reflexivity|].
    exact (proj2 (BedrockLlm_headers_are_signed _ _ _ _ Hrun)).
  - intros p u path H Hpath.
    destruct (BedrockLlmIndex_sigv4 p w u path H Hpath)
      as (l & Hrun & _ & _ & _ & Hch & _ & Hs).
    destruct (sigv4_dates _ _ _ Hs Hwf Hy) as (Hd & Hds).
    exists l. split; [exact Hrun|]. split; [returned_run Hrun|]. split; [exact Hd|].
    split; [exact Hds|]. split; [reflexivity|]. split; [exact Hch|].
    split; [reflexivity | exact Hs].
Qed.

Lemma amz_date_in_the_bedrock_llm_signers_witness :
  exists l,
    BedrockLlmSigner.signRequest_locals Samples.get_test_txt Samples.world =
      (Normal l, advance 1 10 Samples.world) /\
    l_amzDate l = "20130524T000000Z" /\
    l_dateStamp l = "20130524" /\
    header_get "X-Amz-Date" (BedrockLlmSigner.result l) = Some "20130524T000000Z".
Proof.
  assert (Hwf : Date_wf (clock Samples.world (clock_reads Samples.world)))
    by (unfold Date_wf; cbn; lia).
  assert (Hy : 0 <= year (clock Samples.world (clock_reads Samples.world)) <= 9999)
    by (cbn; lia).
  destruct (proj1 (amz_date_in_the_bedrock_llm_signers Samples.world Hwf Hy)
              Samples.get_test_txt eq_refl)
    as (l & Hrun & _ & Hd & Hds & Hh & _).
  exists l. split; [exact Hrun|]. rewrite Hh, Hd, Hds.
  split; [reflexivity|]. split; reflexivity.
Defined.


(** ** Canonical URI, byte by byte *)

Lemma split_on_nonempty (sep : ascii) (s : string) : split_on sep s <> [].
Proof.
  destruct s as [|c s]; cbn [split_on]; [discriminate|].
  destruct (Ascii.eqb c sep); [discriminate|].
  destruct (split_on sep s); discriminate.
Qed.

Lemma join_cons_cons (sep x y : string) (l : list string) :
  join sep (x :: y :: l) = x ++ sep ++ join sep (y :: l).
Proof. reflexivity. Qed.

(** Splitting at a character, mapping a byte-wise encoding over the pieces
    and joining them again is a byte-wise encoding of the whole string. *)
Lemma join_map_split_on (sep : ascii) (f : ascii -> string) (s : string) :
  join (String sep "") (map (flat_map_string f) (split_on sep s)) =
  flat_map_string (fun c => if Ascii.eqb c sep then String sep "" else f c) s.
Proof.
  induction s as [|c s IH]; [reflexivity|].
  cbn [split_on flat_map_string].
  pose proof (split_on_nonempty sep s) as Hne.
  destruct (Ascii.eqb c sep).
  - destruct (split_on sep s) as [|x xs]; [contradiction|].
    cbn [map] in *. rewrite join_cons_cons, IH. reflexivity.
  - destruct (split_on sep s) as [|x xs]; [contradiction|].
    cbn [map] in *. rewrite <- IH.
    destruct xs as [|y ys]; cbn [map flat_map_string]; [reflexivity|].
    rewrite !join_cons_cons. cbn [flat_map_string]. now rewrite append_assoc.
Qed.

Lemma ListFoundationModels_canonicalURI_bytewise (path : string) :
  ListFoundationModelsSigner.canonicalURI path = uri_encode_path path.
Proof.
  rewrite ListFoundationModels_canonicalURI_segments.
  unfold uri_encode_once. apply (join_map_split_on "/").
Qed.

Lemma uri_encode_path_char (c : ascii) :
  canonical_chars (uri_encode_path (String c "")) = true /\
  ((is_unreserved c || Ascii.eqb c "/") = true -> uri_encode_path (String c "") = String c "").
Proof.
  destruct c as [[] [] [] [] [] [] [] []]; vm_compute; split;
    solve [reflexivity | intros H; discriminate H].
Qed.

Lemma uri_encode_path_append (a b : string) :
  uri_encode_path (a ++ b) = uri_encode_path a ++ uri_encode_path b.
Proof. apply flat_map_string_append. Qed.

Lemma uri_encode_path_chars (path : string) :
  canonical_chars (uri_encode_path path) = true.
Proof.
  induction path as [|c s IH]; [reflexivity|].
  change (String c s) with (String c "" ++ s).
  rewrite uri_encode_path_append.
  pose proof (proj1 (uri_encode_path_char c)) as Hc. unfold canonical_chars in *.
  now rewrite string_forallb_append, IH, Hc.
Qed.

Lemma uri_encode_path_plain (path : string) :
  plain_path path = true -> uri_encode_path path = path.
Proof.
  induction path as [|c s IH]; [reflexivity|].
  unfold plain_path. cbn [string_forallb]. intros H.
  apply andb_true_iff in H as [Hc Hs].
  change (String c s) with (String c "" ++ s) at 1.
  rewrite uri_encode_path_append, (IH Hs), (proj2 (uri_encode_path_char c) Hc).
  reflexivity.
Qed.

(** X10. [canonicalURI] of list-foundation-models and of generate-upload-url
    (repeated in generate-presigned-url) works byte by byte: "/" and the
    unreserved characters are kept and every other byte becomes "%XX", so a
    path of unreserved characters and "/" is returned unchanged, the result
    holds nothing but unreserved characters, "%" and "/", and the canonical
    URI of a concatenation is the concatenation of the canonical URIs.  The
    two definitions differ on the empty path only, which generate-upload-url
    turns into "/". *)
Theorem canonicalURI_is_bytewise :
  (forall path, ListFoundationModelsSigner.canonicalURI path = uri_encode_path path) /\
  (forall path,
     GenerateUploadUrlSigner.canonicalURI path =
     if String.eqb path "" then "/" else ListFoundationModelsSigner.canonicalURI path) /\
  (forall path,
     plain_path path = true -> ListFoundationModelsSigner.canonicalURI path = path) /\
  (forall path, canonical_chars (ListFoundationModelsSigner.canonicalURI path) = true) /\
  (forall a b,
     ListFoundationModelsSigner.canonicalURI (a ++ b) =
     ListFoundationModelsSigner.canonicalURI a ++ ListFoundationModelsSigner.canonicalURI b).
Proof.
  split; [exact ListFoundationModels_canonicalURI_bytewise|].
  split; [|split; [|split]].
  - intros path. unfold GenerateUploadUrlSigner.canonicalURI.
    destruct (String.eqb_spec path "") as [->|_]; [reflexivity|].
    destruct (String.eqb_spec path "/") as [->|_]; reflexivity.
  - intros path H. rewrite ListFoundationModels_canonicalURI_bytewise.
    now apply uri_encode_path_plain.
  - intros path. rewrite ListFoundationModels_canonicalURI_bytewise.
    apply uri_encode_path_chars.
  - intros a b. rewrite !ListFoundationModels_canonicalURI_bytewise.
    apply uri_encode_path_append.
Qed.

Lemma canonicalURI_is_bytewise_witness :
  ListFoundationModelsSigner.canonicalURI "/foundation-models" = "/foundation-models".
Proof.
  apply (proj1 (proj2 (proj2 canonicalURI_is_bytewise)) "/foundation-models").
  reflexivity.
Defined.

(** ** Canonical query string of generate-upload-url *)

Lemma split_on_without (sep : ascii) (t : string) :
  without sep t = true -> split_on sep t = [t].
Proof.
  induction t as [|c t IH]; [reflexivity|].
  unfold without. cbn [string_forallb split_on].
  intros H. apply andb_true_iff in H as [Hc Ht].
  apply negb_true_iff in Hc. rewrite Hc, (IH Ht). reflexivity.
Qed.

Lemma split_on_append_sep (sep : ascii) (a b : string) :
  without sep a = true ->
  split_on sep (a ++ String sep b) = a :: split_on sep b.
Proof.
  induction a as [|c a IH].
  - intros _. cbn [append split_on]. now rewrite Ascii.eqb_refl.
  - unfold without. cbn [string_forallb append split_on].
    intros H. apply andb_true_iff in H as [Hc Ha].
    apply negb_true_iff in Hc. rewrite Hc, (IH Ha). reflexivity.
Qed.

(** Pieces that do not hold the separator are recovered from their join. *)
Lemma split_on_join (sep : ascii) (l : list string) :
  l <> [] ->
  Forall (fun s => without sep s = true) l ->
  split_on sep (join (String sep "") l) = l.
Proof.
  intros Hne Hall. induction Hall as [|x l Hx Hl IH]; [contradiction|].
  destruct l as [|y l].
  - cbn [join]. now apply split_on_without.
  - rewrite join_cons_cons. cbn [append].
    rewrite (split_on_append_sep _ _ _ Hx), IH; [reflexivity | discriminate].
Qed.

Lemma uri_encode_once_char_plain (c : ascii) :
  string_forallb (fun x => negb (Ascii.eqb x "&") && negb (Ascii.eqb x "="))
                 (uri_encode_once (String c "")) = true.
Proof.
  destruct c as [[] [] [] [] [] [] [] []]; vm_compute; reflexivity.
Qed.

Lemma uri_encode_once_plain (s : string) :
  string_forallb (fun x => negb (Ascii.eqb x "&") && negb (Ascii.eqb x "="))
                 (uri_encode_once s) = true.
Proof.
  induction s as [|c s IH]; [reflexivity|].
  change (String c s) with (String c "" ++ s).
  pose proof (uri_encode_once_char_plain c) as Hc.
  unfold uri_encode_once in *.
  rewrite flat_map_string_append, string_forallb_append, IH, Hc. reflexivity.
Qed.

Lemma string_forallb_impl (p q : ascii -> bool) (s : string) :
  (forall c, p c = true -> q c = true) ->
  string_forallb p s = true -> string_forallb q s = true.
Proof.
  intros Hpq. induction s as [|c s IH]; [reflexivity|].
  cbn [string_forallb]. intros H. apply andb_true_iff in H as [Hc Hs].
  now rewrite (Hpq c Hc), (IH Hs).
Qed.

Lemma encoded_pair_without_ampersand (kv : string * string) :
  without "&" (encodeURIComponent2 (fst kv) ++ "=" ++ encodeURIComponent2 (snd kv)) = true.
Proof.
  rewrite !encodeURIComponent2_spec. unfold without.
  rewrite !string_forallb_append.
  assert (H : forall s, string_forallb (fun x => negb (Ascii.eqb x "&"))
                                       (uri_encode_once s) = true).
  { intros s. eapply string_forallb_impl; [|apply uri_encode_once_plain].
    intros c Hc. now apply andb_true_iff in Hc as [Hc _]. }
  now rewrite !H.
Qed.

Section SortedOn.

Context {A : Type} (P : A -> Prop) (comparefn : A -> A -> Z).
Hypothesis Hord : consistent_order_on P comparefn.

Let before (a b : A) : Prop := comparefn a b <= 0.

Lemma sort_insert_sorted_on (x : A) (l : list A) :
  P x -> Forall P l ->
  StronglySorted before l -> StronglySorted before (sort_insert comparefn x l).
Proof.
  intros Hx Hl Hs. induction Hs as [|y l Hsl IH Hy]; cbn [sort_insert].
  - constructor; constructor.
  - apply Forall_cons_iff in Hl as [Py Pl].
    destruct (Z.leb_spec (comparefn x y) 0) as [Hxy|Hxy].
    + constructor; [constructor; assumption|].
      constructor; [exact Hxy|].
      rewrite Forall_forall in Hy, Pl. apply Forall_forall. intros z Hz.
      exact (order_on_trans _ _ Hord x y z Hx Py (Pl z Hz) Hxy (Hy z Hz)).
    + constructor; [exact (IH Pl)|].
      eapply Permutation_Forall; [symmetry; apply sort_insert_Permutation|].
      constructor; [|exact Hy].
      destruct (order_on_total _ _ Hord x y Hx Py) as [H|H]; [unfold before; lia | exact H].
Qed.

Lemma Array_sort_sorted_on (l : list A) :
  Forall P l -> StronglySorted before (Array_sort comparefn l).
Proof.
  induction 1 as [|x l Hx Hl IH]; cbn [Array_sort]; [constructor|].
  apply sort_insert_sorted_on; [exact Hx | | exact IH].
  eapply Permutation_Forall; [symmetry; apply Array_sort_Permutation | exact Hl].
Qed.

Lemma sorted_Permutation_eq_on (l1 l2 : list A) :
  Forall P l1 ->
  StronglySorted before l1 -> StronglySorted before l2 ->
  Permutation l1 l2 -> l1 = l2.
Proof.
  intros HP H1. revert l2 HP. induction H1 as [|x l1 Hl1 IH Hx]; intros l2 HP H2 Hp.
  - now apply Permutation_nil in Hp.
  - destruct H2 as [|y l2 Hl2 Hy].
    + apply Permutation_sym, Permutation_nil in Hp. discriminate Hp.
    + apply Forall_cons_iff in HP as [Px Pl1].
      assert (Hin1 : In x (y :: l2)) by (eapply Permutation_in; [exact Hp | now left]).
      assert (Hin2 : In y (x :: l1))
        by (eapply Permutation_in; [symmetry; exact Hp | now left]).
      assert (Hxy : x = y).
      { destruct Hin1 as [->|Hin1]; [reflexivity|].
        destruct Hin2 as [->|Hin2]; [reflexivity|].
        assert (Py : P y) by (rewrite Forall_forall in Pl1; now apply Pl1).
        rewrite Forall_forall in Hx, Hy.
        apply (order_on_antisym _ _ Hord x y Px Py); [apply Hx, Hin2 | apply Hy, Hin1]. }
      subst y. f_equal. apply IH; [exact Pl1 | exact Hl2 |].
      eapply Permutation_cons_inv. exact Hp.
Qed.

(** Sorting values on which the comparison function is consistent forgets
    the order they came in. *)
Lemma Array_sort_order_invariant_on (l1 l2 : list A) :
  Forall P l1 -> Permutation l1 l2 ->
  Array_sort comparefn l1 = Array_sort comparefn l2.
Proof.
  intros HP Hp.
  apply sorted_Permutation_eq_on.
  - eapply Permutation_Forall; [symmetry; apply Array_sort_Permutation | exact HP].
  - now apply Array_sort_sorted_on.
  - apply Array_sort_sorted_on. eapply Permutation_Forall; [exact Hp | exact HP].
  - rewrite !Array_sort_Permutation. exact Hp.
Qed.

End SortedOn.

Lemma consistent_order_everywhere {A} (P : A -> Prop) (comparefn : A -> A -> Z) :
  consistent_order comparefn -> consistent_order_on P comparefn.
Proof.
  intros [Htot Hanti Htrans]. split.
  - intros a b _ _. apply Htot.
  - intros a b _ _. apply Hanti.
  - intros a b c _ _ _. apply Htrans.
Qed.

(** The comparison of the sort is consistent on encoded parameters as soon
    as [localeCompare] is on percent-encoded strings. *)
Lemma compare_params_consistent_on (localeCompare : string -> string -> Z) :
  consistent_order_on percent_encoded localeCompare ->
  consistent_order_on encoded_param (GenerateUploadUrlSigner.compare_params localeCompare).
Proof.
  intros [Htot Hanti Htrans].
  unfold GenerateUploadUrlSigner.compare_params, encoded_param. split.
  - intros [k1 v1] [k2 v2] [Pk1 Pv1] [Pk2 Pv2]. cbn [fst snd] in *.
    rewrite (String.eqb_sym k2 k1).
    destruct (String.eqb k1 k2); now apply Htot.
  - intros [k1 v1] [k2 v2] [Pk1 Pv1] [Pk2 Pv2]. cbn [fst snd] in *.
    rewrite (String.eqb_sym k2 k1).
    destruct (String.eqb_spec k1 k2) as [->|Hne]; intros H1 H2.
    + f_equal. now apply Hanti.
    + exfalso. apply Hne. now apply Hanti.
  - intros [k1 v1] [k2 v2] [k3 v3] [Pk1 Pv1] [Pk2 Pv2] [Pk3 Pv3]. cbn [fst snd] in *.
    destruct (String.eqb_spec k1 k2) as [E12|N12];
      destruct (String.eqb_spec k2 k3) as [E23|N23];
      destruct (String.eqb_spec k1 k3) as [E13|N13];
      intros Ha Hb; subst; try congruence.
    + now apply (Htrans v1 v2 v3).
    + exfalso. apply N12. now apply Hanti.
    + now apply (Htrans k1 k2 k3).
Qed.

Lemma encoded_params (ps : list (string * string)) :
  Forall encoded_param
         (map (fun kv => (encodeURIComponent2 (fst kv), encodeURIComponent2 (snd kv))) ps).
Proof.
  apply Forall_forall. intros kv Hin. apply in_map_iff in Hin as (kv0 & <- & _).
  split; eexists; reflexivity.
Qed.

Lemma getCanonicalQueryString_order_invariant_on
      (localeCompare : string -> string -> Z) (ps qs : list (string * string)) :
  consistent_order_on percent_encoded localeCompare ->
  Permutation ps qs ->
  GenerateUploadUrlSigner.getCanonicalQueryString localeCompare ps =
  GenerateUploadUrlSigner.getCanonicalQueryString localeCompare qs.
Proof.
  intros Hord Hp. unfold GenerateUploadUrlSigner.getCanonicalQueryString.
  do 2 f_equal.
  apply (Array_sort_order_invariant_on encoded_param);
    [now apply compare_params_consistent_on | apply encoded_params
    | now apply Permutation_map].
Qed.

(** X11. [getCanonicalQueryString] of generate-upload-url (repeated in
    generate-presigned-url) loses and merges nothing, whatever
    [localeCompare] is: its result splits at "&" into exactly one
    "key=value" entry per parameter, repeated keys included, each key and
    value percent-encoded once; no parameters give the empty string.  When
    [localeCompare] orders the percent-encoded strings (it need not order
    any other string), the entries stand in the order of the comparison
    function, by key and then by value, whatever the order of the
    parameters was. *)
Theorem canonical_query_string_is_sorted_and_complete :
  forall localeCompare ps,
    exists sorted,
      Permutation sorted
        (map (fun kv => (uri_encode_once (fst kv), uri_encode_once (snd kv))) ps) /\
      GenerateUploadUrlSigner.getCanonicalQueryString localeCompare ps =
        join "&" (map (fun kv => fst kv ++ "=" ++ snd kv) sorted) /\
      (ps <> [] ->
       split_on "&" (GenerateUploadUrlSigner.getCanonicalQueryString localeCompare ps) =
       map (fun kv => fst kv ++ "=" ++ snd kv) sorted) /\
      (ps = [] -> GenerateUploadUrlSigner.getCanonicalQueryString localeCompare ps = "") /\
      (consistent_order_on percent_encoded localeCompare ->
       StronglySorted
         (fun a b => GenerateUploadUrlSigner.compare_params localeCompare a b <= 0)
         sorted /\
       forall qs,
         Permutation ps qs ->
         GenerateUploadUrlSigner.getCanonicalQueryString localeCompare qs =
         GenerateUploadUrlSigner.getCanonicalQueryString localeCompare ps).
Proof.
  intros lc ps.
  set (enc := map (fun kv => (encodeURIComponent2 (fst kv), encodeURIComponent2 (snd kv))) ps).
  exists (Array_sort (GenerateUploadUrlSigner.compare_params lc) enc).
  assert (Henc : enc = map (fun kv => (uri_encode_once (fst kv), uri_encode_once (snd kv))) ps).
  { subst enc. apply map_ext. intros kv. now rewrite !encodeURIComponent2_spec. }
  split; [rewrite <- Henc; apply Array_sort_Permutation|].
  split; [reflexivity|].
  split; [|split].
  - intros Hne. unfold GenerateUploadUrlSigner.getCanonicalQueryString. fold enc.
    apply (split_on_join "&").
    + intros E. apply map_eq_nil in E.
      pose proof (Array_sort_Permutation (GenerateUploadUrlSigner.compare_params lc) enc)
        as Hp.
      subst enc. rewrite E in Hp. apply Permutation_nil in Hp.
      apply map_eq_nil in Hp. contradiction.
    + apply Forall_forall. intros s Hin. apply in_map_iff in Hin as (kv & <- & Hin).
      assert (Hin' : In kv enc).
      { eapply Permutation_in; [apply Array_sort_Permutation | exact Hin]. }
      subst enc. apply in_map_iff in Hin' as (kv0 & <- & _).
      apply (encoded_pair_without_ampersand kv0).
  - intros ->. reflexivity.
  - intros Hord. split.
    + apply (Array_sort_sorted_on encoded_param);
        [now apply compare_params_consistent_on | apply encoded_params].
    + intros qs Hp. symmetry.
      now apply getCanonicalQueryString_order_invariant_on.
Qed.

(** With the comparison by code units in the place of [localeCompare]: it
    orders all strings, the percent-encoded ones among them. *)
Lemma canonical_query_string_is_sorted_and_complete_witness :
  GenerateUploadUrlSigner.getCanonicalQueryString code_unit_compare
    [("continuation-token", "abc"); ("list-type", "2"); ("max-keys", "1000")] =
  GenerateUploadUrlSigner.getCanonicalQueryString code_unit_compare
    [("list-type", "2"); ("max-keys", "1000"); ("continuation-token", "abc")].
Proof.
  destruct (canonical_query_string_is_sorted_and_complete code_unit_compare
              [("list-type", "2"); ("max-keys", "1000"); ("continuation-token", "abc")])
    as (sorted & _ & _ & _ & _ & Hord).
  apply (Hord (consistent_order_everywhere _ _ code_unit_compare_consistent)).
  exact (Permutation_app_comm [("list-type", "2"); ("max-keys", "1000")]
                              [("continuation-token", "abc")]).
Defined.

(** X12. In generate-upload-url (and generate-presigned-url) the order in
    which the query parameters are supplied does not reach the returned
    headers: when [localeCompare] orders the percent-encoded strings (the
    only strings the sort compares), two URLs with the same host name and
    path whose parameters are permutations of each other get the same
    headers, signature included. *)
Theorem generate_upload_url_headers_ignore_parameter_order :
  forall localeCompare p url' w u u',
    consistent_order_on percent_encoded localeCompare ->
    URL_parse w (url p) = Some u -> URL_parse w url' = Some u' ->
    hostname u = hostname u' -> pathname u = pathname u' ->
    Permutation (searchParams u) (searchParams u') ->
    GenerateUploadUrlSigner.signRequest localeCompare (with_url p url') w =
    GenerateUploadUrlSigner.signRequest localeCompare p w.
Proof.
  intros lc p url' w u u' Hord H H' Hh Hp Hperm.
  assert (Hrun : GenerateUploadUrlSigner.signRequest_locals lc (with_url p url') w =
                 GenerateUploadUrlSigner.signRequest_locals lc p w).
  { destruct w as [parse clk reads calls]. cbn [URL_parse] in H, H'.
    unfold_signers. cbn [url with_url]. js_step. rewrite H, H'. js_step.
    cbn [method body region service accessKeyId secretAccessKey with_url].
    rewrite <- Hh, <- Hp.
    rewrite <- (getCanonicalQueryString_order_invariant_on lc _ _ Hord Hperm).
    reflexivity. }
  unfold_signRequest. now rewrite Hrun.
Qed.

(** The two listing URLs, with the comparison by code units in the place
    of [localeCompare]. *)
Lemma generate_upload_url_headers_ignore_parameter_order_witness :
  GenerateUploadUrlSigner.signRequest code_unit_compare
    (with_url (Samples.get_url Samples.url_listing) Samples.url_listing_sorted)
    Samples.world =
  GenerateUploadUrlSigner.signRequest code_unit_compare
    (Samples.get_url Samples.url_listing) Samples.world.
Proof.
  apply (generate_upload_url_headers_ignore_parameter_order code_unit_compare
           (Samples.get_url Samples.url_listing) Samples.url_listing_sorted Samples.world
           (mkURL Samples.repo_host "/" "list-type=2&max-keys=1000&continuation-token=abc"
              [("list-type", "2"); ("max-keys", "1000"); ("continuation-token", "abc")])
           (mkURL Samples.repo_host "/" "continuation-token=abc&list-type=2&max-keys=1000"
              [("continuation-token", "abc"); ("list-type", "2"); ("max-keys", "1000")]));
    try reflexivity.
  - exact (consistent_order_everywhere _ _ code_unit_compare_consistent).
  - exact (Permutation_app_comm [("list-type", "2"); ("max-keys", "1000")]
                                [("continuation-token", "abc")]).
Defined.


(** ** Decoding and encoding path segments (bedrock-llm/index.ts) *)

Lemma code_of_char_range (c : ascii) : 0 <= code_of_char c < 256.
Proof.
  unfold code_of_char. pose proof (N_ascii_bounded c). lia.
Qed.

Lemma hex_value_HEX_digit (d : Z) : 0 <= d < 16 -> hex_value (HEX_digit d) = Some d.
Proof.
  intros H.
  pose proof (range_check
                (fun d => match hex_value (HEX_digit d) with
                          | Some v => v =? d
                          | None => false
                          end) 16 eq_refl d H) as Hd.
  cbv beta in Hd. destruct (hex_value (HEX_digit d)) as [v|]; [|discriminate Hd].
  apply Z.eqb_eq in Hd. now subst.
Qed.

Lemma kept_is_not_percent (c : ascii) :
  is_alnum c || char_in "-_.!~*'()" c = true -> Ascii.eqb c "%" = false.
Proof.
  destruct c as [[] [] [] [] [] [] [] []]; vm_compute; intros H;
    solve [reflexivity | discriminate H].
Qed.

Lemma uri_tokens_percent_byte (c : ascii) (rest : string) :
  uri_tokens (percent_byte c ++ rest) =
  option_map (cons (Escaped (code_of_char c))) (uri_tokens rest).
Proof.
  pose proof (code_of_char_range c) as Hc.
  unfold percent_byte. cbn [append uri_tokens].
  change (Ascii.eqb "%" "%") with true. cbv iota.
  rewrite !hex_value_HEX_digit
    by (try apply Z.mod_pos_bound; try (split; [apply Z.div_pos | apply Z.div_lt_upper_bound]);
        lia).
  rewrite <- (Z.div_mod (code_of_char c) 16) by lia.
  destruct (uri_tokens rest); reflexivity.
Qed.

Lemma uri_tokens_encoded_char (c : ascii) (rest : string) :
  uri_tokens (encodeURIComponent (String c "") ++ rest) =
  option_map (cons (token_of c)) (uri_tokens rest).
Proof.
  unfold encodeURIComponent, token_of. cbn [flat_map_string].
  destruct (is_alnum c || char_in "-_.!~*'()" c) eqn:Hk.
  - cbn [append uri_tokens]. now rewrite (kept_is_not_percent c Hk).
  - rewrite append_empty_r. apply uri_tokens_percent_byte.
Qed.

Lemma encodeURIComponent_cons (c : ascii) (s : string) :
  encodeURIComponent (String c s) = encodeURIComponent (String c "") ++ encodeURIComponent s.
Proof.
  unfold encodeURIComponent. cbn [flat_map_string]. now rewrite append_empty_r.
Qed.

Lemma uri_tokens_encoded (s : string) :
  uri_tokens (encodeURIComponent s) = Some (map token_of (list_ascii_of_string s)).
Proof.
  induction s as [|c s IH]; [reflexivity|].
  rewrite encodeURIComponent_cons, uri_tokens_encoded_char, IH. reflexivity.
Qed.

Lemma token_of_spec (c : ascii) :
  char_of_code (code_of_char c) = c /\
  0 <= code_of_char c < 256 /\
  (token_of c = Raw c /\ code_of_char c < 128 \/ token_of c = Escaped (code_of_char c)).
Proof.
  destruct c as [[] [] [] [] [] [] [] []]; vm_compute;
    (split; [reflexivity|]); (split; [split; [discriminate | reflexivity]|]);
    first [ left; split; reflexivity | right; reflexivity ].
Qed.

Lemma escaped_token (c : ascii) :
  128 <= code_of_char c -> token_of c = Escaped (code_of_char c).
Proof.
  intros H. destruct (token_of_spec c) as (_ & _ & [[_ Hlt]|He]); [lia | exact He].
Qed.

Ltac utf8_ranges :=
  unfold utf8_two, utf8_three, utf8_four, continuation in *;
  repeat rewrite ?andb_true_iff, ?orb_true_iff, ?Z.leb_le, ?Z.eqb_eq in *.

Ltac decide_ltb :=
  repeat match goal with
         | |- context [?a <? ?b] =>
             first [ replace (a <? b) with true by (symmetry; apply Z.ltb_lt; lia)
                   | replace (a <? b) with false by (symmetry; apply Z.ltb_ge; lia) ]
         end.

Lemma decode_one (a : Z) (ts : list uri_token) :
  a < 128 ->
  uri_decode_tokens (Escaped a :: ts) =
  option_map (String (char_of_code a)) (uri_decode_tokens ts).
Proof. intros H. cbn [uri_decode_tokens]. decide_ltb. reflexivity. Qed.

Lemma decode_two (a b : Z) (ts : list uri_token) :
  utf8_two a b = true ->
  uri_decode_tokens (Escaped a :: Escaped b :: ts) =
  option_map (fun s => String (char_of_code a) (String (char_of_code b) s))
             (uri_decode_tokens ts).
Proof.
  intros H. cbn [uri_decode_tokens]. rewrite H. utf8_ranges. decide_ltb. reflexivity.
Qed.

Lemma decode_three (a b c : Z) (ts : list uri_token) :
  utf8_three a b c = true ->
  uri_decode_tokens (Escaped a :: Escaped b :: Escaped c :: ts) =
  option_map (fun s => String (char_of_code a) (String (char_of_code b)
                         (String (char_of_code c) s)))
             (uri_decode_tokens ts).
Proof.
  intros H. cbn [uri_decode_tokens]. rewrite H. utf8_ranges. decide_ltb. reflexivity.
Qed.

Lemma decode_four (a b c d : Z) (ts : list uri_token) :
  utf8_four a b c d = true ->
  uri_decode_tokens (Escaped a :: Escaped b :: Escaped c :: Escaped d :: ts) =
  option_map (fun s => String (char_of_code a) (String (char_of_code b)
                         (String (char_of_code c) (String (char_of_code d) s))))
             (uri_decode_tokens ts).
Proof.
  intros H. cbn [uri_decode_tokens]. rewrite H. utf8_ranges. decide_ltb. reflexivity.
Qed.

Lemma char_code_id (c : ascii) : char_of_code (code_of_char c) = c.
Proof. apply token_of_spec. Qed.

Lemma decode_tokens_well_formed (n : nat) :
  forall s,
    (String.length s <= n)%nat ->
    well_formed_utf8 s = true ->
    uri_decode_tokens (map token_of (list_ascii_of_string s)) = Some s.
Proof.
  induction n as [|n IH]; intros s Hlen Hwf.
  - destruct s; [reflexivity | cbn in Hlen; lia].
  - destruct s as [|a r1]; [reflexivity|].
    cbn [well_formed_utf8] in Hwf.
    cbn [list_ascii_of_string map String.length] in *.
    destruct (Z.ltb_spec (code_of_char a) 128) as [Ha|Ha].
    + assert (IH1 := IH r1 ltac:(lia) Hwf).
      destruct (token_of_spec a) as (Hid & _ & [[-> _]| ->]).
      * cbn [uri_decode_tokens]. now rewrite IH1.
      * rewrite (decode_one _ _ Ha), IH1. cbn [option_map]. now rewrite Hid.
    + rewrite (escaped_token a Ha).
      destruct r1 as [|b r2]; [discriminate|].
      cbn [list_ascii_of_string map String.length] in *.
      destruct (utf8_two (code_of_char a) (code_of_char b)) eqn:H2.
      { assert (Hb : 128 <= code_of_char b) by (utf8_ranges; lia).
        rewrite (escaped_token b Hb), (decode_two _ _ _ H2), (IH r2 ltac:(lia) Hwf).
        cbn [option_map]. now rewrite !char_code_id. }
      destruct r2 as [|c r3]; [discriminate|].
      cbn [list_ascii_of_string map String.length] in *.
      destruct (utf8_three (code_of_char a) (code_of_char b) (code_of_char c)) eqn:H3.
      { assert (Hb : 128 <= code_of_char b) by (utf8_ranges; lia).
        assert (Hc : 128 <= code_of_char c) by (utf8_ranges; lia).
        rewrite (escaped_token b Hb), (escaped_token c Hc), (decode_three _ _ _ _ H3),
          (IH r3 ltac:(lia) Hwf).
        cbn [option_map]. now rewrite !char_code_id. }
      destruct r3 as [|d r4]; [discriminate|].
      cbn [list_ascii_of_string map String.length] in *.
      apply andb_true_iff in Hwf as [H4 Hwf].
      assert (Hb : 128 <= code_of_char b) by (utf8_ranges; lia).
      assert (Hc : 128 <= code_of_char c) by (utf8_ranges; lia).
      assert (Hd : 128 <= code_of_char d) by (utf8_ranges; lia).
      rewrite (escaped_token b Hb), (escaped_token c Hc), (escaped_token d Hd),
        (decode_four _ _ _ _ _ H4), (IH r4 ltac:(lia) Hwf).
      cbn [option_map]. now rewrite !char_code_id.
Qed.

(** [decodeURIComponent] undoes [encodeURIComponent] on every string of
    well-formed UTF-8. *)
Lemma decode_encode (s : string) :
  well_formed_utf8 s = true -> decodeURIComponent (encodeURIComponent s) = Some s.
Proof.
  intros H. unfold decodeURIComponent. rewrite uri_tokens_encoded.
  now apply (decode_tokens_well_formed (String.length s)).
Qed.

(** A string without "%" is decoded to itself. *)
Lemma decode_no_percent (s : string) :
  no_percent s = true -> decodeURIComponent s = Some s.
Proof.
  intros H. unfold decodeURIComponent.
  assert (Ht : uri_tokens s = Some (map Raw (list_ascii_of_string s))).
  { induction s as [|c s IH]; [reflexivity|].
    unfold no_percent in H. cbn [string_forallb] in H.
    apply andb_true_iff in H as [Hc Hs]. apply negb_true_iff in Hc.
    cbn [uri_tokens]. rewrite Hc, (IH Hs). reflexivity. }
  rewrite Ht. clear. induction s as [|c s IH]; [reflexivity|].
  cbn [list_ascii_of_string map uri_decode_tokens]. now rewrite IH.
Qed.

Lemma encodeURIComponent_char_no_slash (c : ascii) :
  no_slash (encodeURIComponent (String c "")) = true.
Proof.
  destruct c as [[] [] [] [] [] [] [] []]; vm_compute; reflexivity.
Qed.

Lemma encodeURIComponent_no_slash (s : string) : no_slash (encodeURIComponent s) = true.
Proof.
  induction s as [|c s IH]; [reflexivity|].
  rewrite encodeURIComponent_cons.
  pose proof (encodeURIComponent_char_no_slash c) as Hc.
  unfold no_slash in *. now rewrite string_forallb_append, Hc, IH.
Qed.

Lemma normalize_encoded_segments (segments : list string) :
  Forall (fun s => well_formed_utf8 s = true) segments ->
  normalize_segments (map encodeURIComponent segments) =
  Some (map encodeURIComponent segments).
Proof.
  induction 1 as [|s l Hs Hl IH]; [reflexivity|].
  cbn [map normalize_segments]. now rewrite (decode_encode s Hs), IH.
Qed.

Lemma normalize_raw_segments (segments : list string) :
  Forall (fun s => no_percent s = true) segments ->
  normalize_segments segments = Some (map encodeURIComponent segments).
Proof.
  induction 1 as [|s l Hs Hl IH]; [reflexivity|].
  cbn [map normalize_segments]. now rewrite (decode_no_percent s Hs), IH.
Qed.

Lemma normalized_path_encoded (segments : list string) :
  segments <> [] ->
  Forall (fun s => well_formed_utf8 s = true) segments ->
  normalized_path (join "/" (map encodeURIComponent segments)) =
  Some (join "/" (map encodeURIComponent segments)).
Proof.
  intros Hne Hwf. unfold normalized_path.
  rewrite (split_on_join "/").
  - now rewrite normalize_encoded_segments.
  - intros E. apply map_eq_nil in E. contradiction.
  - apply Forall_forall. intros s Hin. apply in_map_iff in Hin as (s0 & <- & _).
    apply encodeURIComponent_no_slash.
Qed.

Lemma normalized_path_raw (segments : list string) :
  segments <> [] ->
  Forall (fun s => no_percent s = true /\ no_slash s = true) segments ->
  normalized_path (join "/" segments) = Some (join "/" (map encodeURIComponent segments)).
Proof.
  intros Hne Hall. unfold normalized_path.
  rewrite (split_on_join "/"); [|exact Hne|].
  - rewrite normalize_raw_segments; [reflexivity|].
    eapply Forall_impl; [|exact Hall]. now intros s [H _].
  - eapply Forall_impl; [|exact Hall]. now intros s [_ H].
Qed.

(** X13. The signer in bedrock-llm/index.ts decodes each path segment and
    encodes it once.  A path whose segments are already percent-encoded
    (the encodings of well-formed UTF-8 strings) is signed as it is, with no
    second encoding; a path given with raw segments (no "%", no "/") is
    signed in its encoded form.  So the encoded and the decoded form of the
    same path give the same canonical URI. *)
Theorem bedrock_llm_index_path_is_decoded_then_encoded_once :
  forall p w u segments,
    URL_parse w (url p) = Some u ->
    segments <> [] ->
    (Forall (fun s => well_formed_utf8 s = true) segments ->
     pathname u = join "/" (map encodeURIComponent segments) ->
     exists l,
       BedrockLlmIndexSigner.signRequest_locals p w = (Normal l, advance 1 12 w) /\
       l_canonicalUri l = pathname u) /\
    (Forall (fun s => no_percent s = true /\ no_slash s = true) segments ->
     pathname u = join "/" segments ->
     exists l,
       BedrockLlmIndexSigner.signRequest_locals p w = (Normal l, advance 1 12 w) /\
       l_canonicalUri l = join "/" (map encodeURIComponent segments)).
Proof.
  intros p w u segments H Hne. split.
  - intros Hwf Hpath.
    destruct (BedrockLlmIndex_sigv4 p w u (pathname u) H) as (l & Hrun & _ & Huri & _).
    + rewrite Hpath. now apply normalized_path_encoded.
    + exists l. split; [exact Hrun | exact Huri].
  - intros Hraw Hpath.
    destruct (BedrockLlmIndex_sigv4 p w u (join "/" (map encodeURIComponent segments)) H)
      as (l & Hrun & _ & Huri & _).
    + rewrite Hpath. now apply normalized_path_raw.
    + exists l. split; [exact Hrun | exact Huri].
Qed.

Lemma bedrock_llm_index_path_is_decoded_then_encoded_once_witness :
  exists l,
    BedrockLlmIndexSigner.signRequest_locals
      (BedrockSamples.call "POST" BedrockSamples.converse "{}") BedrockSamples.world =
      (Normal l, advance 1 12 BedrockSamples.world) /\
    l_canonicalUri l = "/model/anthropic.claude-3-5-sonnet-20240620-v1%3A0/converse".
Proof.
  apply (proj2 (bedrock_llm_index_path_is_decoded_then_encoded_once
                  (BedrockSamples.call "POST" BedrockSamples.converse "{}")
                  BedrockSamples.world
                  (mkURL BedrockSamples.runtime_host
                         "/model/anthropic.claude-3-5-sonnet-20240620-v1:0/converse" "" [])
                  [""; "model"; "anthropic.claude-3-5-sonnet-20240620-v1:0"; "converse"]
                  eq_refl ltac:(discriminate))).
  - repeat constructor.
  - reflexivity.
Defined.

(** ** Strings of the request handlers *)

Lemma indexOf_append (c : ascii) (a b : string) :
  without c a = true ->
  indexOf c (a ++ b) = option_map (Nat.add (String.length a)) (indexOf c b).
Proof.
  induction a as [|x a IH]; intros H.
  - cbn [append String.length]. now destruct (indexOf c b).
  - unfold without in H. cbn [string_forallb] in H.
    apply andb_true_iff in H as [Hx Ha]. apply negb_true_iff in Hx.
    cbn [append indexOf String.length]. rewrite Hx, (IH Ha).
    now destruct (indexOf c b).
Qed.

Lemma indexOf_without (c : ascii) (s : string) : without c s = true -> indexOf c s = None.
Proof.
  intros H. rewrite <- (append_empty_r s), (indexOf_append c s "" H). reflexivity.
Qed.

Lemma indexOf_first (c : ascii) (a b : string) :
  without c a = true -> indexOf c (a ++ String c b) = Some (String.length a).
Proof.
  intros H. rewrite (indexOf_append c a _ H). cbn [indexOf]. rewrite Ascii.eqb_refl.
  cbn [option_map]. now rewrite Nat.add_0_r.
Qed.

Lemma substring_length_append (a b : string) : substring 0 (String.length a) (a ++ b) = a.
Proof.
  induction a as [|x a IH]; cbn [String.length append substring].
  - now destruct b.
  - now rewrite IH.
Qed.

Lemma drop_length_append (a b : string) : drop (String.length a) (a ++ b) = b.
Proof. induction a as [|x a IH]; [reflexivity | exact IH]. Qed.

Lemma drop_past_separator (c : ascii) (a b : string) :
  drop (String.length a + 1) (a ++ String c b) = b.
Proof.
  induction a as [|x a IH]; [reflexivity | exact IH].
Qed.

Lemma split_str_nonempty (sep : string) (skip : nat) (s : string) :
  split_str sep skip s <> [].
Proof.
  revert skip. induction s as [|c s IH]; intros skip; cbn [split_str]; [discriminate|].
  destruct skip as [|k]; [|apply IH].
  destruct (prefix sep (String c s)); [discriminate|].
  destruct (split_str sep 0 s); discriminate.
Qed.

(** A string that does not hold the separator is not split. *)
Lemma split_str_absent (sep s : string) :
  includes sep s = false -> split_str sep 0 s = [s].
Proof.
  induction s as [|c s IH]; intros H; [reflexivity|].
  cbn [includes] in H. apply orb_false_iff in H as [Hp Hi].
  cbn [split_str]. rewrite Hp, (IH Hi). reflexivity.
Qed.

(** A string that holds the separator is split in two parts at least. *)
Lemma split_str_present (sep s : string) :
  sep <> "" ->
  includes sep s = true -> (1 < List.length (split_str sep 0 s))%nat.
Proof.
  intros Hsep. induction s as [|c s IH]; intros H.
  - cbn [includes] in H. rewrite orb_false_r in H.
    destruct sep; [contradiction | discriminate H].
  - cbn [includes] in H. cbn [split_str].
    destruct (prefix sep (String c s)) eqn:Hp.
    + pose proof (split_str_nonempty sep (String.length sep - 1) s) as Hne.
      destruct (split_str sep (String.length sep - 1) s); [contradiction|]. cbn. lia.
    + cbn [orb] in H. specialize (IH H).
      destruct (split_str sep 0 s); cbn in *; lia.
Qed.

Lemma endsWith_append (c : ascii) (s : string) : endsWith c (s ++ String c "") = true.
Proof.
  induction s as [|x s IH]; [cbn; apply Ascii.eqb_refl|].
  cbn [append endsWith]. destruct (s ++ String c "") eqn:E; [|exact IH].
  destruct s; discriminate E.
Qed.

(** ** Bucket and prefix of a knowledge base *)

Lemma split_str_step (sep : string) (c : ascii) (r : string) :
  prefix sep (String c r) = false ->
  split_str sep 0 (String c r) =
  match split_str sep 0 r with
  | [] => [String c ""]
  | x :: xs => String c x :: xs
  end.
Proof. intros H. cbn [split_str]. now rewrite H. Qed.

Lemma split_str_hit (sep : string) (c : ascii) (r : string) :
  prefix sep (String c r) = true ->
  split_str sep 0 (String c r) = "" :: split_str sep (String.length sep - 1) r.
Proof. intros H. cbn [split_str]. now rewrite H. Qed.

Lemma split_str_skip (sep a r : string) :
  split_str sep (String.length a) (a ++ r) = split_str sep 0 r.
Proof. induction a as [|x a IH]; [now destruct r | exact IH]. Qed.

Lemma prefix_empty (s : string) : prefix "" s = true.
Proof. now destruct s. Qed.

Lemma prefix_append (a s : string) : prefix a (a ++ s) = true.
Proof.
  induction a as [|x a IH]; [apply prefix_empty|].
  cbn [append prefix]. destruct (ascii_dec x x); [exact IH | contradiction].
Qed.

Lemma arn_parts (rest : string) :
  split_str ":::" 0 ("arn:aws:s3:::" ++ rest) = "arn:aws:s3" :: split_str ":::" 0 rest.
Proof.
  cbn [append].
  rewrite !split_str_step by reflexivity.
  rewrite split_str_hit by apply (prefix_append ":::").
  change (split_str ":::" (String.length ":::" - 1) (String ":" (String ":" rest)))
    with (split_str ":::" (String.length "::") ("::" ++ rest)).
  rewrite (split_str_skip ":::" "::" rest).
  pose proof (split_str_nonempty ":::" 0 rest) as Hne.
  destruct (split_str ":::" 0 rest); [contradiction | reflexivity].
Qed.

Lemma as_folder_shape (prefix : string) :
  as_folder prefix = "" \/ endsWith "/" (as_folder prefix) = true.
Proof.
  unfold as_folder. destruct (String.eqb_spec prefix "") as [->|Hne]; [now left|].
  cbn [orb]. destruct (endsWith "/" prefix) eqn:E; right; [exact E|].
  apply endsWith_append.
Qed.

Lemma as_folder_source (prefix : string) :
  (if nonempty prefix && negb (endsWith "/" prefix) then prefix ++ "/" else prefix) =
  as_folder prefix.
Proof.
  unfold as_folder, nonempty.
  destruct (String.eqb prefix ""); [reflexivity|].
  now destruct (endsWith "/" prefix).
Qed.

Lemma arn_is_truthy (rest : string) :
  BedrockLlmSigner.truthy (Some ("arn:aws:s3:::" ++ rest)) = true.
Proof. reflexivity. Qed.

(** X14. list-s3-objects and copy-repository-files read a bucket ARN of the
    form arn:aws:s3:::bucket or arn:aws:s3:::bucket/folder as its bucket and
    its folder: the bucket is what stands before the first "/", the folder
    what stands after it, with a "/" put at its end when it is not empty
    and has none; without a "/" the ARN gives the bucket alone, and the
    prefix stays what it was (list-s3-objects) or empty
    (copy-repository-files). *)
Theorem bucket_arn_is_read_as_bucket_and_folder :
  forall bucket bucketName prefix,
    no_slash bucket = true ->
    (includes ":::" bucket = false ->
     ListS3ObjectsHandler.resolve_bucket
       (mkS3Configuration (Some ("arn:aws:s3:::" ++ bucket)) None) bucketName prefix =
       (Some bucket, prefix) /\
     CopyRepositoryFilesHandler.destination
       (mkS3Configuration (Some ("arn:aws:s3:::" ++ bucket)) None) = (bucket, "")) /\
    (forall folder,
       includes ":::" (bucket ++ "/" ++ folder) = false ->
       ListS3ObjectsHandler.resolve_bucket
         (mkS3Configuration (Some ("arn:aws:s3:::" ++ bucket ++ "/" ++ folder)) None)
         bucketName prefix =
         (Some bucket, as_folder folder) /\
       CopyRepositoryFilesHandler.destination
         (mkS3Configuration (Some ("arn:aws:s3:::" ++ bucket ++ "/" ++ folder)) None) =
         (bucket, as_folder folder)).
Proof.
  intros bucket bucketName prefix Hb. split.
  - intros Hsep.
    unfold ListS3ObjectsHandler.resolve_bucket, CopyRepositoryFilesHandler.destination.
    cbn [bucketArn inclusionPrefixes BedrockLlmSigner.the].
    rewrite arn_is_truthy, arn_parts, (split_str_absent _ _ Hsep).
    cbn [List.length Nat.ltb Nat.leb nth].
    rewrite (indexOf_without "/" bucket Hb). split; reflexivity.
  - intros folder Hsep.
    unfold ListS3ObjectsHandler.resolve_bucket, CopyRepositoryFilesHandler.destination.
    cbn [bucketArn inclusionPrefixes BedrockLlmSigner.the].
    rewrite arn_is_truthy, arn_parts, (split_str_absent _ _ Hsep).
    cbn [List.length Nat.ltb Nat.leb nth]. cbn [append].
    rewrite (indexOf_first "/" bucket folder Hb).
    rewrite substring_length_append, drop_past_separator, as_folder_source.
    split; reflexivity.
Qed.

Lemma bucket_arn_is_read_as_bucket_and_folder_witness :
  ListS3ObjectsHandler.resolve_bucket
    (mkS3Configuration (Some "arn:aws:s3:::kb-documents/manuals") None) None "" =
  (Some "kb-documents", "manuals/").
Proof.
  apply (proj2 (bucket_arn_is_read_as_bucket_and_folder "kb-documents" None "" eq_refl)
               "manuals" eq_refl).
Defined.

(** X15. In copy-repository-files the destination prefix is always empty or
    ends with "/", whether it comes from the bucket ARN or from the first
    inclusion prefix; an empty inclusion prefix becomes "/".  In
    list-s3-objects the first inclusion prefix is taken as it is.  On an ARN
    that holds ":::", both handlers read the same bucket, whatever the
    inclusion prefixes. *)
Theorem copy_destination_prefix_is_a_folder :
  (forall s3Config,
     snd (CopyRepositoryFilesHandler.destination s3Config) = "" \/
     endsWith "/" (snd (CopyRepositoryFilesHandler.destination s3Config)) = true) /\
  (forall arn others,
     snd (CopyRepositoryFilesHandler.destination
            (mkS3Configuration arn (Some ("" :: others)))) = "/") /\
  (forall arn first others bucketName prefix,
     snd (ListS3ObjectsHandler.resolve_bucket
            (mkS3Configuration arn (Some (first :: others))) bucketName prefix) = first) /\
  (forall arn inclusion bucketName prefix,
     includes ":::" arn = true ->
     fst (ListS3ObjectsHandler.resolve_bucket
            (mkS3Configuration (Some arn) inclusion) bucketName prefix) =
     Some (fst (CopyRepositoryFilesHandler.destination
                  (mkS3Configuration (Some arn) inclusion)))).
Proof.
  split; [|split; [|split]].
  - intros [arn incl]. unfold CopyRepositoryFilesHandler.destination.
    cbn [bucketArn inclusionPrefixes].
    destruct incl as [[|first others]|].
    2:{ cbn [snd]. destruct (endsWith "/" first) eqn:E; cbn [negb]; right;
        [exact E | apply endsWith_append]. }
    all: destruct (1 <? List.length (split_str ":::" 0 (BedrockLlmSigner.the arn)))%nat;
      [|now left];
      destruct (indexOf "/" (nth 1 (split_str ":::" 0 (BedrockLlmSigner.the arn)) ""));
      [|now left]; cbn [snd]; rewrite as_folder_source; apply as_folder_shape.
  - reflexivity.
  - reflexivity.
  - intros arn incl bucketName prefix Harn.
    assert (Ht : BedrockLlmSigner.truthy (Some arn) = true).
    { destruct arn; [discriminate Harn | reflexivity]. }
    pose proof (split_str_present ":::" arn ltac:(discriminate) Harn) as Hlen.
    apply Nat.ltb_lt in Hlen.
    unfold ListS3ObjectsHandler.resolve_bucket, CopyRepositoryFilesHandler.destination.
    cbn [bucketArn inclusionPrefixes BedrockLlmSigner.the]. rewrite Ht, Hlen.
    destruct (indexOf "/" (nth 1 (split_str ":::" 0 arn) ""));
      destruct incl as [[|first others]|]; reflexivity.
Qed.

Lemma copy_destination_prefix_is_a_folder_witness :
  fst (ListS3ObjectsHandler.resolve_bucket
         (mkS3Configuration (Some "arn:aws:s3:::kb-documents/manuals") (Some ["guides"]))
         None "") =
  Some (fst (CopyRepositoryFilesHandler.destination
               (mkS3Configuration (Some "arn:aws:s3:::kb-documents/manuals")
                                  (Some ["guides"])))).
Proof.
  apply (proj2 (proj2 (proj2 copy_destination_prefix_is_a_folder))
               "arn:aws:s3:::kb-documents/manuals" (Some ["guides"]) None "").
  reflexivity.
Defined.

(** ** S3 URIs (generate-presigned-url) *)

Lemma prefix_drop (p s : string) :
  prefix p s = true -> s = p ++ drop (String.length p) s.
Proof.
  revert s. induction p as [|a p IH]; intros s H; [reflexivity|].
  destruct s as [|b s]; [discriminate H|].
  cbn [prefix] in H. destruct (ascii_dec a b) as [->|_]; [|discriminate H].
  cbn [append String.length drop]. f_equal. now apply IH.
Qed.

Lemma indexOf_split (c : ascii) (s : string) (i : nat) :
  indexOf c s = Some i ->
  s = substring 0 i s ++ String c (drop (i + 1) s) /\
  without c (substring 0 i s) = true.
Proof.
  revert i. induction s as [|x s IH]; intros i H; [discriminate H|].
  cbn [indexOf] in H. destruct (Ascii.eqb x c) eqn:E.
  - injection H as <-. apply Ascii.eqb_eq in E as ->. split; reflexivity.
  - destruct (indexOf c s) as [j|]; [|discriminate H].
    injection H as <-. destruct (IH j eq_refl) as (Hs & Hw).
    cbn [substring Nat.add drop append]. split; [now f_equal|].
    unfold without in *. cbn [string_forallb]. now rewrite E, Hw.
Qed.

Lemma nonempty_true (s : string) : nonempty s = true <-> s <> "".
Proof.
  unfold nonempty. destruct (String.eqb_spec s ""); cbn; split; congruence.
Qed.

Lemma s3Uri_match_sound (s bucket key : string) :
  GeneratePresignedUrlHandler.s3Uri_match s = Some (bucket, key) ->
  s = "s3://" ++ bucket ++ "/" ++ key /\
  bucket <> "" /\ no_slash bucket = true /\
  key <> "" /\ GeneratePresignedUrlHandler.has_line_terminator key = false.
Proof.
  unfold GeneratePresignedUrlHandler.s3Uri_match.
  destruct (prefix "s3://" s) eqn:Hp; [|discriminate].
  apply prefix_drop in Hp. cbn [String.length] in Hp.
  destruct (indexOf "/" (drop 5 s)) as [i|] eqn:Hi; [|discriminate].
  destruct (indexOf_split _ _ _ Hi) as (Hs & Hw).
  destruct (nonempty (substring 0 i (drop 5 s))) eqn:Hb; [|discriminate].
  destruct (nonempty (drop (i + 1) (drop 5 s))) eqn:Hk; [|discriminate].
  destruct (GeneratePresignedUrlHandler.has_line_terminator (drop (i + 1) (drop 5 s)))
    eqn:Hl; [discriminate|].
  cbn [andb negb]. intros H. injection H as <- <-.
  split; [rewrite Hp at 1; now rewrite Hs at 1|].
  split; [now apply nonempty_true|]. split; [exact Hw|].
  split; [now apply nonempty_true | exact Hl].
Qed.

Lemma s3Uri_match_complete (bucket key : string) :
  bucket <> "" -> no_slash bucket = true ->
  key <> "" -> GeneratePresignedUrlHandler.has_line_terminator key = false ->
  GeneratePresignedUrlHandler.s3Uri_match ("s3://" ++ bucket ++ "/" ++ key) =
  Some (bucket, key).
Proof.
  intros Hb Hs Hk Hl. unfold GeneratePresignedUrlHandler.s3Uri_match.
  rewrite (prefix_append "s3://").
  change (drop 5 ("s3://" ++ bucket ++ "/" ++ key)) with (bucket ++ String "/" key).
  rewrite (indexOf_first "/" bucket key Hs).
  rewrite substring_length_append, drop_past_separator.
  rewrite (proj2 (nonempty_true bucket) Hb), (proj2 (nonempty_true key) Hk), Hl.
  reflexivity.
Qed.

Lemma bucket_and_key_of_uri (s : string) (requestKey bucketName : option string) :
  s <> "" ->
  GeneratePresignedUrlHandler.bucket_and_key (Some s) requestKey bucketName =
  if negb (prefix "s3://" s) then GeneratePresignedUrlHandler.MustStartWithS3
  else match GeneratePresignedUrlHandler.s3Uri_match s with
       | None => GeneratePresignedUrlHandler.InvalidFormat
       | Some (bucket, key) => GeneratePresignedUrlHandler.BucketAndKey bucket key
       end.
Proof.
  intros H. unfold GeneratePresignedUrlHandler.bucket_and_key.
  cbn [GeneratePresignedUrlHandler.truthy GeneratePresignedUrlHandler.the].
  now rewrite (proj2 (nonempty_true s) H).
Qed.

Lemma truthy_some (o : option string) :
  GeneratePresignedUrlHandler.truthy o = true <-> exists s, o = Some s /\ s <> "".
Proof.
  destruct o as [s|]; cbn [GeneratePresignedUrlHandler.truthy].
  - rewrite nonempty_true. split; [intros H; now exists s | intros (t & E & H)].
    now injection E as ->.
  - split; [discriminate | intros (t & E & _); discriminate E].
Qed.

(** X16. generate-presigned-url takes the bucket and the key of the object
    from the S3 URI of the request when one is given, and only then: on a
    URI "s3://bucket/key" with a non-empty bucket name without "/" and a
    non-empty key without line terminator the bucket and the key are read
    back, whatever else the request holds; a given URI that does not start
    with "s3://" is refused as such, and a URI without key ("s3://bucket",
    "s3://bucket/") or without bucket ("s3:///key") is refused as
    ill-formed.  An absent or empty URI is not an error: the key of the
    request and the configured bucket are taken as they are, and the
    request is refused when the key is missing or, with a key, when no
    bucket is configured.  Whenever a bucket and a key come out, either the
    URI is "s3://", the bucket, "/" and the key, or there is no URI and
    they are the configured bucket and the key of the request; neither is
    empty. *)
Theorem s3_uri_is_read_as_bucket_and_key :
  (forall bucket key requestKey bucketName,
     bucket <> "" -> no_slash bucket = true ->
     key <> "" -> GeneratePresignedUrlHandler.has_line_terminator key = false ->
     GeneratePresignedUrlHandler.bucket_and_key
       (Some ("s3://" ++ bucket ++ "/" ++ key)) requestKey bucketName =
     GeneratePresignedUrlHandler.BucketAndKey bucket key) /\
  (forall s3Uri requestKey bucketName bucket key,
     GeneratePresignedUrlHandler.bucket_and_key s3Uri requestKey bucketName =
       GeneratePresignedUrlHandler.BucketAndKey bucket key ->
     bucket <> "" /\ key <> "" /\
     ((s3Uri = Some ("s3://" ++ bucket ++ "/" ++ key) /\ no_slash bucket = true /\
       GeneratePresignedUrlHandler.has_line_terminator key = false) \/
      (GeneratePresignedUrlHandler.truthy s3Uri = false /\
       requestKey = Some key /\ bucketName = Some bucket))) /\
  (forall s3Uri requestKey bucketName,
     GeneratePresignedUrlHandler.bucket_and_key s3Uri requestKey bucketName =
       GeneratePresignedUrlHandler.MustStartWithS3
     <-> exists s, s3Uri = Some s /\ s <> "" /\ prefix "s3://" s = false) /\
  (forall bucket requestKey bucketName,
     no_slash bucket = true ->
     GeneratePresignedUrlHandler.bucket_and_key
       (Some ("s3://" ++ bucket)) requestKey bucketName =
       GeneratePresignedUrlHandler.InvalidFormat /\
     GeneratePresignedUrlHandler.bucket_and_key
       (Some ("s3://" ++ bucket ++ "/")) requestKey bucketName =
       GeneratePresignedUrlHandler.InvalidFormat) /\
  (forall key requestKey bucketName,
     GeneratePresignedUrlHandler.bucket_and_key
       (Some ("s3:///" ++ key)) requestKey bucketName =
       GeneratePresignedUrlHandler.InvalidFormat) /\
  (forall requestKey bucketName,
     GeneratePresignedUrlHandler.bucket_and_key (Some "") requestKey bucketName =
     GeneratePresignedUrlHandler.bucket_and_key None requestKey bucketName) /\
  (forall key bucket,
     key <> "" -> bucket <> "" ->
     GeneratePresignedUrlHandler.bucket_and_key None (Some key) (Some bucket) =
     GeneratePresignedUrlHandler.BucketAndKey bucket key) /\
  (forall requestKey bucketName,
     (GeneratePresignedUrlHandler.bucket_and_key None requestKey bucketName =
        GeneratePresignedUrlHandler.UriOrKeyRequired
      <-> GeneratePresignedUrlHandler.truthy requestKey = false) /\
     (GeneratePresignedUrlHandler.bucket_and_key None requestKey bucketName =
        GeneratePresignedUrlHandler.BucketNotConfigured
      <-> GeneratePresignedUrlHandler.truthy requestKey = true /\
          GeneratePresignedUrlHandler.truthy bucketName = false)).
Proof.
  assert (Huri : forall x, "s3://" ++ x <> "") by (intros x; discriminate).
  split; [|split; [|split; [|split; [|split; [|split; [|split]]]]]].
  - intros bucket key r b Hb Hs Hk Hl.
    rewrite bucket_and_key_of_uri by apply Huri.
    rewrite (prefix_append "s3://"), (s3Uri_match_complete bucket key Hb Hs Hk Hl).
    reflexivity.
  - intros s3Uri r b bucket key.
    destruct (GeneratePresignedUrlHandler.truthy s3Uri) eqn:Ht.
    + apply truthy_some in Ht as (s & -> & Hne).
      rewrite (bucket_and_key_of_uri s r b Hne).
      destruct (prefix "s3://" s); [|discriminate]. cbn [negb].
      destruct (GeneratePresignedUrlHandler.s3Uri_match s) as [[bk k]|] eqn:E;
        [|discriminate].
      intros H. injection H as <- <-.
      destruct (s3Uri_match_sound _ _ _ E) as (-> & Hb & Hs & Hk & Hl).
      split; [exact Hb|]. split; [exact Hk|]. left. now split.
    + unfold GeneratePresignedUrlHandler.bucket_and_key. rewrite Ht.
      destruct (GeneratePresignedUrlHandler.truthy r) eqn:Hr; [|discriminate].
      destruct (GeneratePresignedUrlHandler.truthy b) eqn:Hb; [|discriminate].
      cbn [negb]. intros H. injection H as <- <-.
      apply truthy_some in Hr as (k & -> & Hk). apply truthy_some in Hb as (bk & -> & Hbk).
      cbn [GeneratePresignedUrlHandler.the]. split; [exact Hbk|]. split; [exact Hk|].
      right. now split.
  - intros s3Uri r b. split.
    + destruct (GeneratePresignedUrlHandler.truthy s3Uri) eqn:Ht.
      * apply truthy_some in Ht as (s & -> & Hne).
        rewrite (bucket_and_key_of_uri s r b Hne).
        destruct (prefix "s3://" s) eqn:Hp; cbn [negb].
        -- destruct (GeneratePresignedUrlHandler.s3Uri_match s) as [[bk k]|]; discriminate.
        -- intros _. now exists s.
      * unfold GeneratePresignedUrlHandler.bucket_and_key. rewrite Ht.
        destruct (GeneratePresignedUrlHandler.truthy r); [|discriminate].
        destruct (GeneratePresignedUrlHandler.truthy b); discriminate.
    + intros (s & -> & Hne & Hp).
      rewrite (bucket_and_key_of_uri s r b Hne), Hp. reflexivity.
  - intros bucket r b Hs.
    rewrite !bucket_and_key_of_uri by apply Huri.
    rewrite !(prefix_append "s3://"). cbn [negb].
    unfold GeneratePresignedUrlHandler.s3Uri_match. rewrite !(prefix_append "s3://").
    change (drop 5 ("s3://" ++ bucket)) with bucket.
    change (drop 5 ("s3://" ++ bucket ++ "/")) with (bucket ++ String "/" "").
    rewrite (indexOf_without "/" bucket Hs), (indexOf_first "/" bucket "" Hs).
    rewrite drop_past_separator. cbn [nonempty String.eqb negb andb].
    rewrite andb_false_r. split; reflexivity.
  - intros key r b. change ("s3:///" ++ key) with ("s3://" ++ "/" ++ key).
    rewrite bucket_and_key_of_uri by apply Huri.
    rewrite (prefix_append "s3://" ("/" ++ key)). cbn [negb].
    unfold GeneratePresignedUrlHandler.s3Uri_match.
    rewrite (prefix_append "s3://" ("/" ++ key)). reflexivity.
  - reflexivity.
  - intros key bucket Hk Hb. unfold GeneratePresignedUrlHandler.bucket_and_key.
    cbn [GeneratePresignedUrlHandler.truthy GeneratePresignedUrlHandler.the].
    now rewrite (proj2 (nonempty_true key) Hk), (proj2 (nonempty_true bucket) Hb).
  - intros r b. unfold GeneratePresignedUrlHandler.bucket_and_key.
    cbn [GeneratePresignedUrlHandler.truthy].
    destruct (GeneratePresignedUrlHandler.truthy r), (GeneratePresignedUrlHandler.truthy b);
      cbn [negb]; repeat split; try discriminate; try reflexivity;
      intros H; try discriminate H; destruct H; discriminate.
Qed.

Lemma s3_uri_is_read_as_bucket_and_key_witness :
  GeneratePresignedUrlHandler.bucket_and_key
    (Some "s3://kb-documents/manuals/guide.pdf") (Some "other.pdf") None =
  GeneratePresignedUrlHandler.BucketAndKey "kb-documents" "manuals/guide.pdf".
Proof.
  apply (proj1 s3_uri_is_read_as_bucket_and_key "kb-documents" "manuals/guide.pdf");
    solve [discriminate | reflexivity].
Defined.


(** ** The model of a bedrock-llm call *)

Lemma prefix_indexOf (c : ascii) (m s : string) (k : nat) :
  prefix m s = true -> indexOf c m = Some k -> indexOf c s = Some k.
Proof.
  revert s k. induction m as [|a m IH]; intros s k Hp Hk; [discriminate Hk|].
  destruct s as [|b s]; [discriminate Hp|].
  cbn [prefix] in Hp. destruct (ascii_dec a b) as [->|_]; [|discriminate Hp].
  cbn [indexOf] in *. destruct (Ascii.eqb b c); [exact Hk|].
  destruct (indexOf c m) as [j|]; [|discriminate Hk].
  now rewrite (IH s j Hp eq_refl).
Qed.

Lemma indexOf_in_prefix (c : ascii) (m b : string) (k : nat) :
  indexOf c m = Some k -> indexOf c (m ++ b) = Some k.
Proof. apply prefix_indexOf, prefix_append. Qed.

Lemma includes_append (m a b : string) : includes m (a ++ m ++ b) = true.
Proof.
  induction a as [|x a IH].
  - cbn [append]. destruct (m ++ b) eqn:E; cbn [includes]; rewrite <- E;
      now rewrite prefix_append.
  - cbn [append includes]. rewrite IH. apply orb_true_r.
Qed.

(** A separator that holds a character its left neighbour does not hold is
    first found where it was put. *)
Lemma split_str_first (c : ascii) (sep a b : string) (k : nat) :
  indexOf c sep = Some k ->
  without c a = true ->
  split_str sep 0 (a ++ sep ++ b) = a :: split_str sep 0 b.
Proof.
  intros Hk. induction a as [|x a IH]; intros Ha.
  - cbn [append]. destruct sep as [|s0 sep]; [discriminate Hk|].
    cbn [append]. rewrite split_str_hit by apply (prefix_append (String s0 sep)).
    cbn [String.length Nat.sub]. rewrite Nat.sub_0_r. now rewrite split_str_skip.
  - assert (Hx : without c a = true).
    { unfold without in *. cbn [string_forallb] in Ha.
      now apply andb_true_iff in Ha as [_ Ha]. }
    cbn [append]. rewrite split_str_step, (IH Hx); [reflexivity|].
    destruct (prefix sep (String x (a ++ sep ++ b))) eqn:Hp; [|reflexivity].
    pose proof (prefix_indexOf c _ _ _ Hp Hk) as H1.
    change (String x (a ++ sep ++ b)) with (String x a ++ sep ++ b) in H1.
    rewrite (indexOf_append c _ _ Ha), (indexOf_in_prefix c sep b k Hk) in H1.
    cbn [option_map String.length] in H1. injection H1 as H1. lia.
Qed.

(** X17. bedrock-llm/index.ts takes the model of a call from what it is
    given: the inference profile when there is one; else the part of the
    model ARN after "foundation-model/", or the whole value when the marker
    is absent.  The converse call and the title call agree on it, the second
    element of the split is always there when the marker is, and the
    default ARN of the knowledge-base call is read back as the default
    model. *)
Theorem model_id_is_read_from_the_model_arn :
  (forall inferenceProfileId modelArn,
     BedrockLlmHandler.extractedModelId inferenceProfileId modelArn =
     BedrockLlmHandler.titleModelId inferenceProfileId modelArn) /\
  (forall before id,
     no_slash before = true ->
     includes "foundation-model/" id = false ->
     BedrockLlmHandler.extractedModelId None (Some (before ++ "foundation-model/" ++ id)) =
     id) /\
  (forall modelId,
     modelId <> "" ->
     includes "foundation-model/" modelId = false ->
     BedrockLlmHandler.extractedModelId None (Some modelId) = modelId) /\
  (forall s d d',
     includes "foundation-model/" s = true ->
     nth 1 (split_str "foundation-model/" 0 s) d =
     nth 1 (split_str "foundation-model/" 0 s) d') /\
  (forall awsRegion,
     no_slash awsRegion = true ->
     BedrockLlmHandler.extractedModelId None
       (Some (BedrockLlmHandler.finalModelArn awsRegion None None)) =
     BedrockLlmHandler.DEFAULT_MODEL) /\
  (forall inferenceProfileId modelArn,
     inferenceProfileId <> "" ->
     BedrockLlmHandler.extractedModelId (Some inferenceProfileId) modelArn =
     inferenceProfileId /\
     BedrockLlmHandler.finalModelArn "" (Some inferenceProfileId) modelArn =
     inferenceProfileId).
Proof.
  assert (Hextract : forall before id,
             no_slash before = true ->
             includes "foundation-model/" id = false ->
             BedrockLlmHandler.extractedModelId None
               (Some (before ++ "foundation-model/" ++ id)) = id).
  { intros before id Hb Hid. unfold BedrockLlmHandler.extractedModelId.
    cbn [BedrockLlmSigner.truthy BedrockLlmSigner.the].
    assert (Ht : negb (String.eqb (before ++ "foundation-model/" ++ id) "") = true)
      by now destruct before.
    rewrite Ht, includes_append.
    rewrite (split_str_first "/" "foundation-model/" before id 16 eq_refl Hb).
    rewrite (split_str_absent _ _ Hid). reflexivity. }
  split; [|split; [exact Hextract|split; [|split; [|split]]]].
  - intros ip arn.
    unfold BedrockLlmHandler.extractedModelId, BedrockLlmHandler.titleModelId.
    destruct (BedrockLlmSigner.truthy ip); [reflexivity|].
    destruct (BedrockLlmSigner.truthy arn); reflexivity.
  - intros modelId Hne Hm. unfold BedrockLlmHandler.extractedModelId.
    cbn [BedrockLlmSigner.truthy BedrockLlmSigner.the].
    apply String.eqb_neq in Hne. rewrite Hne. cbn [negb]. now rewrite Hm.
  - intros s d d' H. apply nth_indep.
    exact (split_str_present "foundation-model/" s ltac:(discriminate) H).
  - intros awsRegion Hr. unfold BedrockLlmHandler.finalModelArn.
    cbn [BedrockLlmSigner.truthy].
    change ("arn:aws:bedrock:" ++ awsRegion ++ "::foundation-model/" ++
            BedrockLlmHandler.DEFAULT_MODEL)
      with ("arn:aws:bedrock:" ++ awsRegion ++ "::" ++ "foundation-model/" ++
            BedrockLlmHandler.DEFAULT_MODEL).
    rewrite <- !append_assoc. rewrite (append_assoc _ "foundation-model/").
    apply Hextract; [|reflexivity].
    unfold no_slash in *. now rewrite !string_forallb_append, Hr.
  - intros ip arn Hne. apply String.eqb_neq in Hne.
    unfold BedrockLlmHandler.extractedModelId, BedrockLlmHandler.finalModelArn.
    cbn [BedrockLlmSigner.truthy BedrockLlmSigner.the]. rewrite Hne. split; reflexivity.
Qed.

Lemma model_id_is_read_from_the_model_arn_witness :
  BedrockLlmHandler.extractedModelId None
    (Some "arn:aws:bedrock:us-east-1::foundation-model/amazon.titan-text-express-v1") =
  "amazon.titan-text-express-v1".
Proof.
  apply (proj1 (proj2 model_id_is_read_from_the_model_arn)
               "arn:aws:bedrock:us-east-1::" "amazon.titan-text-express-v1");
    reflexivity.
Defined.

(** ** Where a copied file goes *)

Lemma split_on_append (c : ascii) (a b : string) :
  split_on c (a ++ String c b) = (split_on c a ++ split_on c b)%list.
Proof.
  induction a as [|x a IH].
  - cbn [append split_on app]. now rewrite Ascii.eqb_refl.
  - cbn [append split_on]. rewrite IH.
    destruct (Ascii.eqb x c); [reflexivity|].
    pose proof (split_on_nonempty c a) as Hne.
    destruct (split_on c a); [contradiction | reflexivity].
Qed.

Lemma last_app_nonempty {A} (l1 l2 : list A) (d : A) :
  l2 <> [] -> last (l1 ++ l2) d = last l2 d.
Proof.
  intros Hne. destruct (exists_last Hne) as (l' & a & ->).
  now rewrite app_assoc, !last_last.
Qed.

Lemma join_split_on (c : ascii) (s : string) : join (String c "") (split_on c s) = s.
Proof.
  pose proof (join_map_split_on c (fun x => String x "") s) as H.
  assert (Hid : forall t, flat_map_string (fun x => String x "") t = t).
  { induction t as [|x t IH]; [reflexivity|]. cbn [flat_map_string append]. now rewrite IH. }
  rewrite (map_ext _ (fun t => t) Hid), map_id in H. rewrite H. clear H.
  induction s as [|x s IH]; [reflexivity|].
  cbn [flat_map_string]. rewrite IH.
  destruct (Ascii.eqb_spec x c) as [->|_]; reflexivity.
Qed.

Lemma join_snoc (sep : string) (l : list string) (x : string) :
  l <> [] -> join sep (l ++ [x]) = join sep l ++ sep ++ x.
Proof.
  induction l as [|y l IH]; [contradiction|]. intros _.
  destruct l as [|z l]; [reflexivity|].
  specialize (IH ltac:(discriminate)). cbn [app] in *.
  rewrite (join_cons_cons sep y z (l ++ [x])), (join_cons_cons sep y z l), IH.
  now rewrite !append_assoc.
Qed.

Lemma split_on_pieces (c : ascii) (s : string) :
  Forall (fun t => without c t = true) (split_on c s).
Proof.
  induction s as [|x s IH]; [repeat constructor|].
  cbn [split_on]. destruct (Ascii.eqb x c) eqn:E.
  - constructor; [reflexivity | exact IH].
  - destruct (split_on c s) as [|y ys]; [repeat constructor; cbn; now rewrite E|].
    inversion IH as [|? ? Hy Hys]; subst. constructor; [|exact Hys].
    unfold without in *. cbn [string_forallb]. now rewrite E, Hy.
Qed.

(** X18. copy-repository-files keeps of a file's key only what stands after
    its last "/": the file name has no "/", the key is a folder part (empty
    or ending with "/") followed by it, and the destination key is the
    destination prefix followed by it.  So files of the same name in
    different folders are copied to the same destination key, and a key
    that ends with "/" is copied to the destination prefix itself. *)
Theorem copied_file_keeps_only_its_base_name :
  (forall fileKey, no_slash (CopyRepositoryFilesHandler.fileName fileKey) = true) /\
  (forall fileKey,
     exists folder,
       fileKey = folder ++ CopyRepositoryFilesHandler.fileName fileKey /\
       (folder = "" \/ endsWith "/" folder = true)) /\
  (forall folder name,
     no_slash name = true ->
     CopyRepositoryFilesHandler.fileName (folder ++ "/" ++ name) = name) /\
  (forall destinationPrefix folder folder' name,
     no_slash name = true ->
     CopyRepositoryFilesHandler.destinationKey destinationPrefix (folder ++ "/" ++ name) =
     CopyRepositoryFilesHandler.destinationKey destinationPrefix (folder' ++ "/" ++ name)) /\
  (forall destinationPrefix folder,
     CopyRepositoryFilesHandler.destinationKey destinationPrefix (folder ++ "/") =
     destinationPrefix).
Proof.
  assert (Hname : forall folder name,
             no_slash name = true ->
             CopyRepositoryFilesHandler.fileName (folder ++ "/" ++ name) = name).
  { intros folder name Hn. unfold CopyRepositoryFilesHandler.fileName.
    cbn [append]. rewrite split_on_append, last_app_nonempty by apply split_on_nonempty.
    now rewrite (split_on_no_slash name Hn). }
  split; [|split; [|split; [exact Hname|split]]].
  - intros fileKey. unfold CopyRepositoryFilesHandler.fileName.
    pose proof (split_on_pieces "/" fileKey) as Hall.
    pose proof (split_on_nonempty "/" fileKey) as Hne.
    rewrite Forall_forall in Hall. apply Hall.
    destruct (exists_last Hne) as (l' & x & E). rewrite E, last_last.
    apply in_or_app. right. now left.
  - intros fileKey. unfold CopyRepositoryFilesHandler.fileName.
    pose proof (split_on_nonempty "/" fileKey) as Hne.
    destruct (exists_last Hne) as (l' & x & E).
    pose proof (join_split_on "/" fileKey) as Hj. rewrite E in Hj. rewrite E, last_last.
    destruct l' as [|y l'].
    + exists "". split; [symmetry; exact Hj | now left].
    + exists (join "/" (y :: l') ++ "/"). split.
      * rewrite <- Hj, join_snoc by discriminate. now rewrite append_assoc.
      * right. apply endsWith_append.
  - intros pfx folder folder' name Hn. unfold CopyRepositoryFilesHandler.destinationKey.
    now rewrite !(Hname _ _ Hn).
  - intros pfx folder. unfold CopyRepositoryFilesHandler.destinationKey.
    change (folder ++ "/") with (folder ++ "/" ++ "").
    rewrite (Hname folder "" eq_refl). apply append_empty_r.
Qed.

Lemma copied_file_keeps_only_its_base_name_witness :
  CopyRepositoryFilesHandler.destinationKey "manuals/" ("2023" ++ "/" ++ "guide.pdf") =
  CopyRepositoryFilesHandler.destinationKey "manuals/" ("2024" ++ "/" ++ "guide.pdf").
Proof.
  apply (proj1 (proj2 (proj2 (proj2 copied_file_keeps_only_its_base_name)))
               "manuals/" "2023" "2024" "guide.pdf").
  reflexivity.
Defined.

(** ** The query of the listing URL *)

Lemma form_encodings_agree_char (c : ascii) :
  char_in " *~" c = false ->
  urlencoded_string (String c "") = uri_encode_once (String c "").
Proof.
  destruct c as [[] [] [] [] [] [] [] []]; vm_compute; intros H;
    solve [reflexivity | discriminate H].
Qed.

Lemma urlencoded_string_cons (c : ascii) (s : string) :
  urlencoded_string (String c s) = urlencoded_string (String c "") ++ urlencoded_string s.
Proof.
  unfold urlencoded_string. cbn [flat_map_string]. now rewrite append_empty_r.
Qed.

Lemma uri_encode_once_cons (c : ascii) (s : string) :
  uri_encode_once (String c s) = uri_encode_once (String c "") ++ uri_encode_once s.
Proof.
  unfold uri_encode_once. cbn [flat_map_string]. now rewrite append_empty_r.
Qed.

Lemma form_encodings_agree (s : string) :
  form_stable s = true -> urlencoded_string s = uri_encode_once s.
Proof.
  induction s as [|c s IH]; [reflexivity|].
  unfold form_stable. cbn [string_forallb]. intros H.
  apply andb_true_iff in H as [Hc Hs]. apply negb_true_iff in Hc.
  now rewrite urlencoded_string_cons, uri_encode_once_cons,
    (form_encodings_agree_char c Hc), (IH Hs).
Qed.

Lemma sort_insert_first {A} (comparefn : A -> A -> Z) (x y : A) (l : list A) :
  comparefn x y <= 0 -> sort_insert comparefn x (y :: l) = x :: y :: l.
Proof.
  intros H. cbn [sort_insert]. now rewrite (proj2 (Z.leb_le _ _) H).
Qed.

Lemma sort_insert_later {A} (comparefn : A -> A -> Z) (x y : A) (l : list A) :
  0 < comparefn x y -> sort_insert comparefn x (y :: l) = y :: sort_insert comparefn x l.
Proof.
  intros H. cbn [sort_insert]. now rewrite (proj2 (Z.leb_gt _ _) H).
Qed.

Lemma sort_insert_nil {A} (comparefn : A -> A -> Z) (x : A) :
  sort_insert comparefn x [] = [x].
Proof. reflexivity. Qed.

Ltac compare_keys :=
  unfold GenerateUploadUrlSigner.compare_params, code_unit_compare; cbn; lia.

(** X19. The query that list-repository-files and list-s3-objects put on
    the listing URL is list-type, max-keys, then the prefix and the
    continuation token when they are given.  On a first page (no
    continuation token), with values free of space, "*" and "~", what the
    signer of list-repository-files signs as the canonical query string is
    the sorted, once-encoded form that [getCanonicalQueryString] of
    generate-upload-url computes under code-unit order.  With a continuation
    token it never is: the signed string starts with "list-type", the sorted
    form with "continuation-token". *)
Theorem listing_query_is_canonical_on_first_pages_only :
  (forall p w u maxKeys prefix,
     URL_parse w (url p) = Some u ->
     searchParams u = ListRepositoryFilesHandler.listing_params maxKeys prefix "" ->
     form_stable maxKeys = true -> form_stable prefix = true ->
     exists l,
       ListRepositoryFilesSigner.signRequest_locals p w = (Normal l, advance 1 12 w) /\
       l_canonicalQueryString l =
         GenerateUploadUrlSigner.getCanonicalQueryString code_unit_compare
           (searchParams u)) /\
  (forall p w u maxKeys prefix continuationToken,
     URL_parse w (url p) = Some u ->
     searchParams u =
       ListRepositoryFilesHandler.listing_params maxKeys prefix continuationToken ->
     continuationToken <> "" ->
     exists l rest rest',
       ListRepositoryFilesSigner.signRequest_locals p w = (Normal l, advance 1 12 w) /\
       l_canonicalQueryString l = "list-type=2&" ++ rest /\
       GenerateUploadUrlSigner.getCanonicalQueryString code_unit_compare
         (searchParams u) = "continuation-token=" ++ rest').
Proof.
  assert (K1 : encodeURIComponent2 "list-type" = "list-type") by (vm_compute; reflexivity).
  assert (K2 : encodeURIComponent2 "max-keys" = "max-keys") by (vm_compute; reflexivity).
  assert (K3 : encodeURIComponent2 "prefix" = "prefix") by (vm_compute; reflexivity).
  assert (K4 : encodeURIComponent2 "continuation-token" = "continuation-token")
    by (vm_compute; reflexivity).
  assert (K5 : encodeURIComponent2 "2" = "2") by (vm_compute; reflexivity).
  split.
  - intros p w u maxKeys prefix H Hparams Hm Hp.
    destruct (ListRepositoryFiles_sigv4 p w u H) as (l & Hrun & _ & _ & Hq & _).
    exists l. split; [exact Hrun|]. rewrite Hq, Hparams.
    unfold ListRepositoryFilesHandler.listing_params,
      GenerateUploadUrlSigner.getCanonicalQueryString, URLSearchParams_toString.
    change (nonempty "") with false. cbv iota. rewrite app_nil_r.
    destruct (nonempty prefix); cbn [app map fst snd Array_sort];
      rewrite ?K1, ?K2, ?K3, ?K5, !encodeURIComponent2_spec;
      rewrite <- ?(form_encodings_agree maxKeys Hm), <- ?(form_encodings_agree prefix Hp).
    + rewrite sort_insert_nil, !sort_insert_first by compare_keys. reflexivity.
    + rewrite sort_insert_nil, !sort_insert_first by compare_keys. reflexivity.
  - intros p w u maxKeys prefix token H Hparams Htok.
    destruct (ListRepositoryFiles_sigv4 p w u H) as (l & Hrun & _ & _ & Hq & _).
    exists l. rewrite Hq, Hparams.
    unfold ListRepositoryFilesHandler.listing_params,
      GenerateUploadUrlSigner.getCanonicalQueryString, URLSearchParams_toString.
    rewrite (proj2 (nonempty_true token) Htok).
    destruct (nonempty prefix); cbn [app map fst snd Array_sort];
      rewrite ?K1, ?K2, ?K3, ?K4, ?K5; rewrite sort_insert_nil.
    + rewrite (sort_insert_later _ ("prefix", _) ("continuation-token", _))
        by compare_keys.
      rewrite sort_insert_nil.
      rewrite (sort_insert_later _ ("max-keys", _) ("continuation-token", _))
        by compare_keys.
      rewrite (sort_insert_first _ ("max-keys", _) ("prefix", _)) by compare_keys.
      rewrite (sort_insert_later _ ("list-type", _) ("continuation-token", _))
        by compare_keys.
      rewrite (sort_insert_first _ ("list-type", _) ("max-keys", _)) by compare_keys.
      eexists. eexists. split; [exact Hrun|]. split; reflexivity.
    + rewrite (sort_insert_later _ ("max-keys", _) ("continuation-token", _))
        by compare_keys.
      rewrite sort_insert_nil.
      rewrite (sort_insert_later _ ("list-type", _) ("continuation-token", _))
        by compare_keys.
      rewrite (sort_insert_first _ ("list-type", _) ("max-keys", _)) by compare_keys.
      eexists. eexists. split; [exact Hrun|]. split; reflexivity.
Qed.

Lemma listing_query_is_canonical_on_first_pages_only_witness :
  exists l rest rest',
    ListRepositoryFilesSigner.signRequest_locals
      (Samples.get_url Samples.url_listing) Samples.world =
      (Normal l, advance 1 12 Samples.world) /\
    l_canonicalQueryString l = "list-type=2&" ++ rest /\
    GenerateUploadUrlSigner.getCanonicalQueryString code_unit_compare
      [("list-type", "2"); ("max-keys", "1000"); ("continuation-token", "abc")] =
    "continuation-token=" ++ rest'.
Proof.
  apply (proj2 listing_query_is_canonical_on_first_pages_only
           (Samples.get_url Samples.url_listing) Samples.world
           (mkURL Samples.repo_host "/" "list-type=2&max-keys=1000&continuation-token=abc"
              [("list-type", "2"); ("max-keys", "1000"); ("continuation-token", "abc")])
           "1000" "" "abc");
    solve [reflexivity | discriminate].
Defined.

(** ** The target of bedrock-llm/aws-signer.ts *)

Lemma BedrockLlm_depends_on_target (p1 p2 : BedrockLlmSigner.SignRequestParams)
      (w : World) (c : Completion (string * string)) :
  BedrockLlmSigner.resolve_target p1 w = (c, w) ->
  BedrockLlmSigner.resolve_target p2 w = (c, w) ->
  BedrockLlmSigner.method p1 = BedrockLlmSigner.method p2 ->
  BedrockLlmSigner.body p1 = BedrockLlmSigner.body p2 ->
  BedrockLlmSigner.region p1 = BedrockLlmSigner.region p2 ->
  BedrockLlmSigner.service p1 = BedrockLlmSigner.service p2 ->
  BedrockLlmSigner.accessKeyId p1 = BedrockLlmSigner.accessKeyId p2 ->
  BedrockLlmSigner.secretAccessKey p1 = BedrockLlmSigner.secretAccessKey p2 ->
  BedrockLlmSigner.signRequest p1 w = BedrockLlmSigner.signRequest p2 w.
Proof.
  intros H1 H2 Hm Hb Hr Hs Ha Hk.
  cbv beta delta [BedrockLlmSigner.signRequest BedrockLlmSigner.signRequest_locals bind].
  rewrite H1, H2, Hm, Hb, Hr, Hs, Ha, Hk. reflexivity.
Qed.

Lemma resolve_target_url (p : BedrockLlmSigner.SignRequestParams) (w : World) :
  BedrockLlmSigner.truthy (BedrockLlmSigner.url p) = true ->
  BedrockLlmSigner.resolve_target p w =
  match URL_parse w (BedrockLlmSigner.the (BedrockLlmSigner.url p)) with
  | Some u => (Normal (hostname u, pathname u ++ search u), w)
  | None => (Throw (TypeError "Invalid URL"), w)
  end.
Proof.
  intros H. unfold BedrockLlmSigner.resolve_target. rewrite H.
  unfold bind, new_URL, ret.
  now destruct (URL_parse w (BedrockLlmSigner.the (BedrockLlmSigner.url p))).
Qed.

(** X22. [signRequest] of bedrock-llm/aws-signer.ts takes its target from
    the URL when one is given, whatever [host] and [path] are; a target
    given by URL and the same target given by host and path (the host name
    of the URL, and its path followed by its query) get the same headers.
    Like the signer of list-s3-objects it signs the query in the place of
    the canonical URI, after the path, and leaves the canonical query string
    empty. *)
Theorem bedrock_llm_target_by_url_or_by_host_and_path :
  (forall p host' path' w,
     BedrockLlmSigner.truthy (BedrockLlmSigner.url p) = true ->
     BedrockLlmSigner.signRequest
       (BedrockLlmSigner.mkParams
          (BedrockLlmSigner.method p) (BedrockLlmSigner.url p) host' path'
          (BedrockLlmSigner.body p) (BedrockLlmSigner.region p)
          (BedrockLlmSigner.service p) (BedrockLlmSigner.accessKeyId p)
          (BedrockLlmSigner.secretAccessKey p)) w =
     BedrockLlmSigner.signRequest p w) /\
  (forall p w u,
     BedrockLlmSigner.truthy (BedrockLlmSigner.url p) = true ->
     URL_parse w (BedrockLlmSigner.the (BedrockLlmSigner.url p)) = Some u ->
     hostname u <> "" -> pathname u ++ search u <> "" ->
     BedrockLlmSigner.signRequest
       (BedrockLlmSigner.mkParams
          (BedrockLlmSigner.method p) None
          (Some (hostname u)) (Some (pathname u ++ search u))
          (BedrockLlmSigner.body p) (BedrockLlmSigner.region p)
          (BedrockLlmSigner.service p) (BedrockLlmSigner.accessKeyId p)
          (BedrockLlmSigner.secretAccessKey p)) w =
     BedrockLlmSigner.signRequest p w) /\
  (forall p w u,
     BedrockLlmSigner.truthy (BedrockLlmSigner.url p) = true ->
     URL_parse w (BedrockLlmSigner.the (BedrockLlmSigner.url p)) = Some u ->
     exists l,
       BedrockLlmSigner.signRequest_locals p w = (Normal l, advance 1 10 w) /\
       l_host l = hostname u /\
       l_canonicalUri l = pathname u ++ search u /\
       l_canonicalQueryString l = "" /\
       l_canonicalRequest l =
         BedrockLlmSigner.method p ++ LF ++ l_canonicalUri l ++ LF ++ "" ++ LF ++
         l_canonicalHeaders l ++ LF ++ l_signedHeaders l ++ LF ++ l_payloadHash l).
Proof.
  split; [|split].
  - intros p host' path' w Ht.
    destruct (URL_parse w (BedrockLlmSigner.the (BedrockLlmSigner.url p))) as [u|] eqn:E.
    + apply (BedrockLlm_depends_on_target _ _ w
               (Normal (hostname u, pathname u ++ search u))); try reflexivity.
      * rewrite resolve_target_url by exact Ht. cbn [BedrockLlmSigner.url]. now rewrite E.
      * rewrite resolve_target_url by exact Ht. now rewrite E.
    + apply (BedrockLlm_depends_on_target _ _ w (Throw (TypeError "Invalid URL")));
        try reflexivity.
      * rewrite resolve_target_url by exact Ht. cbn [BedrockLlmSigner.url]. now rewrite E.
      * rewrite resolve_target_url by exact Ht. now rewrite E.
  - intros p w u Ht Hparse Hh Hp.
    apply (BedrockLlm_depends_on_target _ _ w
             (Normal (hostname u, pathname u ++ search u))); try reflexivity.
    + unfold BedrockLlmSigner.resolve_target.
      cbn [BedrockLlmSigner.url BedrockLlmSigner.host BedrockLlmSigner.path
           BedrockLlmSigner.truthy BedrockLlmSigner.the].
      apply String.eqb_neq in Hh, Hp. rewrite Hh, Hp. reflexivity.
    + rewrite resolve_target_url by exact Ht. now rewrite Hparse.
  - intros p w u Ht Hparse.
    destruct w as [parse clk reads calls]. cbn [URL_parse] in Hparse.
    unfold_signers. rewrite Ht.
    unfold bind at 1. unfold bind at 1. unfold new_URL at 1. cbn [URL_parse].
    rewrite Hparse. js_step. eexists. split; [reflexivity|]. project_locals.
    repeat (split; [reflexivity|]). reflexivity.
Qed.

Lemma bedrock_llm_target_by_url_or_by_host_and_path_witness :
  BedrockLlmSigner.signRequest Samples.get_test_txt Samples.world =
  BedrockLlmSigner.signRequest
    (BedrockLlmSigner.mkParams "GET" (Some Samples.url_test_txt) None None ""
                               "us-east-1" "s3" "AKIDEXAMPLE" Samples.secret)
    Samples.world.
Proof.
  apply (proj1 (proj2 bedrock_llm_target_by_url_or_by_host_and_path)
           (BedrockLlmSigner.mkParams "GET" (Some Samples.url_test_txt) None None ""
                                      "us-east-1" "s3" "AKIDEXAMPLE" Samples.secret)
           Samples.world
           (mkURL "examplebucket.s3.amazonaws.com" "/test.txt" "" []));
    solve [reflexivity | discriminate].
Defined.

(** ** Names and folders shown in the browser *)

Lemma or_else_nonempty (a b : string) : a <> "" -> or_else a b = a.
Proof. intros H. unfold or_else. apply String.eqb_neq in H. now rewrite H. Qed.

(** X20. The name the bucket browser shows for an object is what stands
    after the last "/" of its key, as in copy-repository-files, except for a
    key that ends with "/" (a folder), which is shown whole; it is empty
    only for the empty key. *)
Theorem shown_name_is_the_base_name :
  (forall key,
     CopyRepositoryFilesHandler.fileName key <> "" ->
     S3BucketBrowser.getFileName key = CopyRepositoryFilesHandler.fileName key) /\
  (forall folder name,
     name <> "" -> no_slash name = true ->
     S3BucketBrowser.getFileName (folder ++ "/" ++ name) = name) /\
  (forall folder, S3BucketBrowser.getFileName (folder ++ "/") = folder ++ "/") /\
  (forall key, key <> "" -> S3BucketBrowser.getFileName key <> "").
Proof.
  assert (Hname : forall folder name,
             no_slash name = true ->
             last (split_on "/" (folder ++ "/" ++ name)) "" = name).
  { intros folder name Hn. cbn [append].
    rewrite split_on_append, last_app_nonempty by apply split_on_nonempty.
    now rewrite (split_on_no_slash name Hn). }
  split; [|split; [|split]].
  - intros key H. unfold S3BucketBrowser.getFileName, CopyRepositoryFilesHandler.fileName in *.
    now apply or_else_nonempty.
  - intros folder name Hne Hn. unfold S3BucketBrowser.getFileName.
    rewrite (Hname folder name Hn). now apply or_else_nonempty.
  - intros folder. unfold S3BucketBrowser.getFileName.
    change (folder ++ "/") with (folder ++ "/" ++ "").
    now rewrite (Hname folder "" eq_refl).
  - intros key Hne. unfold S3BucketBrowser.getFileName, or_else.
    destruct (String.eqb_spec (last (split_on "/" key) "") ""); [exact Hne | assumption].
Qed.

Lemma shown_name_is_the_base_name_witness :
  S3BucketBrowser.getFileName ("manuals/2024" ++ "/" ++ "guide.pdf") = "guide.pdf".
Proof.
  apply (proj1 (proj2 shown_name_is_the_base_name) "manuals/2024" "guide.pdf");
    solve [discriminate | reflexivity].
Defined.

Import RepositoryBrowser.

Lemma Map_has_In {V} (key : string) (m : Map V) :
  Map_has key m = true <-> In key (map fst m).
Proof.
  induction m as [|[k v] m IH]; cbn [Map_has map fst In]; [split; [discriminate | tauto]|].
  rewrite orb_true_iff, IH, String.eqb_eq. tauto.
Qed.

Lemma Map_set_keys {V} (key : string) (value : V) (m : Map V) :
  map fst (Map_set key value m) =
  if Map_has key m then map fst m else (map fst m ++ [key])%list.
Proof.
  induction m as [|[k v] m IH]; [reflexivity|].
  cbn [Map_set Map_has]. destruct (String.eqb k key); [reflexivity|].
  cbn [orb map fst]. rewrite IH. now destruct (Map_has key m).
Qed.

Lemma Map_set_In {V} (key : string) (value : V) (m : Map V) (kv : string * V) :
  In kv (Map_set key value m) -> kv = (key, value) \/ In kv m.
Proof.
  induction m as [|[k v] m IH]; cbn [Map_set In].
  - intros [<-|[]]. now left.
  - destruct (String.eqb_spec k key) as [->|_]; cbn [In].
    + intros [<-|H]; [now left | right; now right].
    + intros [H|H]; [right; now left|]. destruct (IH H); [now left | right; now right].
Qed.

Lemma Map_set_NoDup {V} (key : string) (value : V) (m : Map V) :
  NoDup (map fst m) -> NoDup (map fst (Map_set key value m)).
Proof.
  intros H. rewrite Map_set_keys. destruct (Map_has key m) eqn:E; [exact H|].
  apply NoDup_app; [exact H | repeat constructor; intros [] |].
  intros k Hin [<-|[]]. apply Map_has_In in Hin. congruence.
Qed.

Lemma Map_set_keeps_keys {V} (key : string) (value : V) (m : Map V) (k : string) :
  In k (map fst m) -> In k (map fst (Map_set key value m)).
Proof.
  intros H. rewrite Map_set_keys. destruct (Map_has key m); [exact H|].
  apply in_or_app. now left.
Qed.

Lemma Map_set_has_key {V} (key : string) (value : V) (m : Map V) :
  In key (map fst (Map_set key value m)).
Proof.
  rewrite Map_set_keys. destruct (Map_has key m) eqn:E.
  - now apply Map_has_In.
  - apply in_or_app. right. now left.
Qed.

Lemma indexOf_none (c : ascii) (s : string) : indexOf c s = None -> without c s = true.
Proof.
  induction s as [|x s IH]; [reflexivity|].
  cbn [indexOf]. unfold without in *. cbn [string_forallb].
  destruct (Ascii.eqb x c); [discriminate|].
  destruct (indexOf c s); [discriminate|]. intros _. now rewrite IH.
Qed.

Lemma add_file_ok (prefix : string) (allFiles : list S3Object)
      (m : Map FolderItem) (file : S3Object) :
  In file allFiles ->
  NoDup (map fst m) -> Forall (entry_ok prefix allFiles) m ->
  NoDup (map fst (add_file prefix m file)) /\
  Forall (entry_ok prefix allFiles) (add_file prefix m file) /\
  (forall k, In k (map fst m) -> In k (map fst (add_file prefix m file))) /\
  covered prefix (map fst (add_file prefix m file)) file.
Proof.
  intros Hin Hnd Hall. unfold add_file, covered.
  destruct (String.prefix prefix (Key file)) eqn:Hp; cbn [negb];
    [|repeat split; solve [assumption | discriminate | auto]].
  pose proof (prefix_drop _ _ Hp) as Hkey.
  destruct (indexOf "/" (drop (String.length prefix) (Key file))) as [i|] eqn:Hi.
  - destruct (indexOf_split _ _ _ Hi) as (Hrel & Hw).
    set (folderName := substring 0 i (drop (String.length prefix) (Key file))) in *.
    assert (Hunder : String.prefix ((prefix ++ folderName) ++ "/") (Key file) = true).
    { assert (E : Key file =
                  ((prefix ++ folderName) ++ "/") ++
                  drop (i + 1) (drop (String.length prefix) (Key file))).
      { transitivity (prefix ++ drop (String.length prefix) (Key file)); [exact Hkey|].
        transitivity (prefix ++ folderName ++
                      String "/" (drop (i + 1) (drop (String.length prefix) (Key file))));
          [f_equal; exact Hrel|].
        now rewrite !append_assoc. }
      rewrite E. apply prefix_append. }
    destruct (Map_has (prefix ++ folderName) m) eqn:Hhas; cbn [negb].
    + split; [assumption|]. split; [assumption|]. split; [auto|].
      intros _. exists (prefix ++ folderName). split; [now apply Map_has_In | now right].
    + split; [now apply Map_set_NoDup|]. split; [|split].
      * apply Forall_forall. intros kv Hkv. apply Map_set_In in Hkv as [->|Hkv].
        -- unfold entry_ok, child_of_folder, stands_for.
           cbn [fst snd path name isFolder].
           repeat split; try reflexivity; [exact Hw|]. exists file. now split.
        -- rewrite Forall_forall in Hall. now apply Hall.
      * intros k. apply Map_set_keeps_keys.
      * intros _. exists (prefix ++ folderName). split; [apply Map_set_has_key | now right].
  - split; [now apply Map_set_NoDup|]. split; [|split].
    + apply Forall_forall. intros kv Hkv. apply Map_set_In in Hkv as [->|Hkv].
      * unfold entry_ok, child_of_folder, stands_for.
        cbn [fst snd path name isFolder size lastModified].
        split; [reflexivity|]. split; [split; [exact Hkey | now apply indexOf_none]|].
        exists file. repeat split. exact Hin.
      * rewrite Forall_forall in Hall. now apply Hall.
    + intros k. apply Map_set_keeps_keys.
    + intros _. exists (Key file). split; [apply Map_set_has_key | now left].
Qed.

Lemma fold_add_file_ok (prefix : string) (allFiles files : list S3Object) :
  forall m,
    (forall f, In f files -> In f allFiles) ->
    NoDup (map fst m) -> Forall (entry_ok prefix allFiles) m ->
    NoDup (map fst (fold_left (add_file prefix) files m)) /\
    Forall (entry_ok prefix allFiles) (fold_left (add_file prefix) files m) /\
    (forall k, In k (map fst m) -> In k (map fst (fold_left (add_file prefix) files m))) /\
    (forall f, In f files ->
               covered prefix (map fst (fold_left (add_file prefix) files m)) f).
Proof.
  induction files as [|file files IH]; intros m Hsub Hnd Hall.
  - cbn [fold_left]. split; [assumption|]. split; [assumption|].
    split; [auto | intros f []].
  - cbn [fold_left].
    destruct (add_file_ok prefix allFiles m file (Hsub file (or_introl eq_refl)) Hnd Hall)
      as (Hnd1 & Hall1 & Hkeys1 & Hcov1).
    destruct (IH (add_file prefix m file) (fun f H => Hsub f (or_intror H)) Hnd1 Hall1)
      as (Hnd2 & Hall2 & Hkeys2 & Hcov2).
    split; [assumption|]. split; [assumption|]. split.
    + intros k Hk. apply Hkeys2, Hkeys1, Hk.
    + intros f [<-|Hf]; [|now apply Hcov2].
      intros Hp. destruct (Hcov1 Hp) as (k & Hk & Hor).
      exists k. split; [now apply Hkeys2 | exact Hor].
Qed.

Lemma sort_insert_folders_first (localeCompare : string -> string -> Z)
      (x : FolderItem) (l : list FolderItem) :
  StronglySorted folder_before l ->
  StronglySorted folder_before (sort_insert (compare_items localeCompare) x l).
Proof.
  induction 1 as [|y l Hl IH Hy]; cbn [sort_insert].
  - repeat constructor.
  - destruct (Z.leb_spec (compare_items localeCompare x y) 0) as [Hc|Hc].
    + constructor; [now constructor|].
      assert (Hxy : folder_before x y).
      { unfold folder_before, compare_items in *.
        destruct (isFolder x), (isFolder y); cbn in *; try tauto; lia. }
      constructor; [exact Hxy|].
      eapply Forall_impl; [|exact Hy].
      unfold folder_before in *. intros z Hz Hfz. tauto.
    + constructor; [exact IH|].
      eapply Permutation_Forall; [symmetry; apply sort_insert_Permutation|].
      constructor; [|exact Hy].
      unfold folder_before, compare_items in *.
      destruct (isFolder x), (isFolder y); cbn in *; solve [tauto | lia].
Qed.

Lemma Array_sort_folders_first (localeCompare : string -> string -> Z)
      (l : list FolderItem) :
  StronglySorted folder_before (Array_sort (compare_items localeCompare) l).
Proof.
  induction l as [|x l IH]; cbn [Array_sort]; [constructor|].
  now apply sort_insert_folders_first.
Qed.


Lemma Map_set_In_other {V} (key : string) (value : V) (m : Map V) (kv : string * V) :
  NoDup (map fst m) ->
  In kv (Map_set key value m) -> kv = (key, value) \/ (In kv m /\ fst kv <> key).
Proof.
  induction m as [|[k v] m IH]; cbn [Map_set In map fst]; intros Hnd.
  - intros [<-|[]]. now left.
  - apply NoDup_cons_iff in Hnd as [Hk Hnd].
    destruct (String.eqb_spec k key) as [->|Hne]; cbn [In].
    + intros [<-|H]; [now left|]. right. split; [now right|].
      intros E. apply Hk. rewrite <- E. now apply in_map.
    + intros [<-|H]; [right; split; [now left | exact Hne]|].
      destruct (IH Hnd H) as [->|[Hin Hk']]; [now left | right; split; [now right | exact Hk']].
Qed.

Lemma append_inv_head (p a b : string) : p ++ a = p ++ b -> a = b.
Proof.
  induction p as [|c p IH]; cbn [append]; [trivial|].
  intros H. injection H as H. now apply IH.
Qed.

(** Nothing that ends with "/" is a prefix of a name without "/". *)
Lemma no_folder_above_a_name (pre k n : string) :
  no_slash n = true -> String.prefix ((pre ++ k) ++ "/") (pre ++ n) = false.
Proof.
  intros Hn. destruct (String.prefix ((pre ++ k) ++ "/") (pre ++ n)) eqn:Hp; [|reflexivity].
  apply prefix_drop in Hp. rewrite !append_assoc in Hp. apply append_inv_head in Hp.
  rewrite Hp in Hn. unfold no_slash in Hn.
  rewrite !string_forallb_append in Hn. cbn [string_forallb append] in Hn.
  rewrite Ascii.eqb_refl in Hn. cbn [negb andb] in Hn.
  now rewrite andb_false_r in Hn.
Qed.

(** The entry of a key of the map. *)
Lemma key_entry (prefix : string) (allFiles : list S3Object) (m : Map FolderItem)
      (k : string) :
  Forall (entry_ok prefix allFiles) m -> In k (map fst m) ->
  exists kv, In kv m /\ fst kv = k /\ exists n, k = prefix ++ n /\ no_slash n = true.
Proof.
  intros Hall Hin. apply in_map_iff in Hin as (kv & <- & Hkv).
  rewrite Forall_forall in Hall. destruct (Hall kv Hkv) as (Hpath & (Hchild & Hn) & _).
  exists kv. split; [exact Hkv|]. split; [reflexivity|].
  exists (name (snd kv)). rewrite <- Hpath. now split.
Qed.

(** An object directly under the prefix, once covered, is a key of the map. *)
Lemma covered_direct (prefix : string) (allFiles : list S3Object) (m : Map FolderItem)
      (file : S3Object) (n : string) :
  Forall (entry_ok prefix allFiles) m ->
  covered prefix (map fst m) file ->
  Key file = prefix ++ n -> no_slash n = true ->
  In (Key file) (map fst m).
Proof.
  intros Hall Hcov Hkey Hn.
  destruct Hcov as (k & Hk & [->|Hp]); [rewrite Hkey; apply prefix_append | exact Hk |].
  destruct (key_entry _ _ _ _ Hall Hk) as (_ & _ & _ & n' & -> & _).
  rewrite Hkey, (no_folder_above_a_name prefix n' n Hn) in Hp. discriminate Hp.
Qed.

Lemma add_file_folders_apart (prefix : string) (allFiles done : list S3Object)
      (m : Map FolderItem) (file : S3Object) :
  NoDup (map fst m) -> Forall (entry_ok prefix allFiles) m ->
  (forall f, In f done -> covered prefix (map fst m) f) ->
  folders_apart done m ->
  folders_apart (file :: done) (add_file prefix m file).
Proof.
  intros Hnd Hall Hcov Hapart. unfold add_file.
  assert (Hold : forall kv, In kv m -> isFolder (snd kv) = true ->
                 Key file <> fst kv ->
                 forall f, In f (file :: done) -> Key f <> fst kv).
  { intros kv Hkv Hf Hne f [<-|Hin]; [exact Hne | now apply (Hapart kv Hkv Hf)]. }
  destruct (String.prefix prefix (Key file)) eqn:Hp; cbn [negb].
  - pose proof (prefix_drop _ _ Hp) as Hkey.
    destruct (indexOf "/" (drop (String.length prefix) (Key file))) as [i|] eqn:Hi.
    + destruct (indexOf_split _ _ _ Hi) as (Hrel & Hw).
      set (rel := drop (String.length prefix) (Key file)) in *.
      set (folderName := substring 0 i rel) in *.
      assert (Hdeep : forall n, no_slash n = true -> Key file <> prefix ++ n).
      { intros n Hn E. rewrite Hkey in E. apply append_inv_head in E.
        rewrite E in Hi. now rewrite (indexOf_without "/" n Hn) in Hi. }
      assert (Hm : forall kv, In kv m -> Key file <> fst kv).
      { intros kv Hkv E.
        destruct (key_entry prefix allFiles m (fst kv) Hall (in_map fst _ _ Hkv))
          as (_ & _ & _ & n & Hk & Hn).
        apply (Hdeep n Hn). now rewrite <- Hk. }
      destruct (Map_has (prefix ++ folderName) m) eqn:Hhas; cbn [negb].
      * intros kv Hkv Hf. apply (Hold kv Hkv Hf), (Hm kv Hkv).
      * intros kv Hkv Hf. apply Map_set_In in Hkv as [->|Hkv];
          [|apply (Hold kv Hkv Hf), (Hm kv Hkv)].
        cbn [fst]. intros f [<-|Hin]; [apply (Hdeep folderName Hw)|].
        intros E.
        assert (Hk : In (Key f) (map fst m))
          by (apply (covered_direct prefix allFiles m f folderName Hall (Hcov f Hin) E Hw)).
        rewrite E in Hk. apply Map_has_In in Hk. congruence.
    + intros kv Hkv Hf. apply (Map_set_In_other _ _ _ _ Hnd) in Hkv as [->|[Hkv Hne]].
      * discriminate Hf.
      * apply (Hold kv Hkv Hf). congruence.
  - intros kv Hkv Hf. apply (Hold kv Hkv Hf). intros E.
    destruct (key_entry prefix allFiles m (fst kv) Hall (in_map fst _ _ Hkv))
      as (_ & _ & _ & n & Hk & _).
    rewrite E, Hk, prefix_append in Hp. discriminate Hp.
Qed.

Lemma fold_add_file_folders_apart (prefix : string) (allFiles files : list S3Object) :
  forall m done,
    (forall f, In f files -> In f allFiles) ->
    NoDup (map fst m) -> Forall (entry_ok prefix allFiles) m ->
    (forall f, In f done -> covered prefix (map fst m) f) ->
    folders_apart done m ->
    folders_apart (done ++ files) (fold_left (add_file prefix) files m).
Proof.
  induction files as [|file files IH]; intros m done Hsub Hnd Hall Hcov Hapart.
  - cbn [fold_left]. now rewrite app_nil_r.
  - cbn [fold_left].
    destruct (add_file_ok prefix allFiles m file (Hsub file (or_introl eq_refl)) Hnd Hall)
      as (Hnd1 & Hall1 & Hkeys1 & Hcov1).
    assert (Hstep : folders_apart ((file :: done) ++ files)
                      (fold_left (add_file prefix) files (add_file prefix m file))).
    { apply IH; [intros f H; apply Hsub; now right | exact Hnd1 | exact Hall1 | |].
      - intros f [<-|Hin]; [exact Hcov1|].
        intros Hp. destruct (Hcov f Hin Hp) as (k & Hk & Hor).
        exists k. split; [now apply Hkeys1 | exact Hor].
      - now apply (add_file_folders_apart prefix allFiles). }
    intros kv Hkv Hf f Hin. apply (Hstep kv Hkv Hf).
    apply in_app_iff in Hin as [Hin|[<-|Hin]].
    + right. apply in_or_app. now left.
    + now left.
    + right. apply in_or_app. now right.
Qed.

(** X21. The items the repository browser shows for a folder
    ([getCurrentFolderItems], whatever [localeCompare] is) are its children
    and nothing else: each item is a file or a folder directly under the
    current path (its path is the prefix followed by a name without "/"),
    no path is shown twice, a file item carries the size and date of a
    listed object with that key and a folder item stands above a listed
    object.  A path is shown as a folder only when no listed object has it
    as key: where objects "a" and "a/b" are both listed, "a" is shown as a
    file and no folder "a" is shown.  Every listed object under the current
    path is shown as a file item of its own, or stands under the path of a
    shown item.  No folder stands after a file; and, the listing being
    filtered for objects with a size, every file item has a positive
    size. *)
Theorem folder_items_are_the_children_of_the_current_path :
  forall localeCompare currentPath allFiles,
    let items := getCurrentFolderItems localeCompare currentPath allFiles in
    Forall (child_of_folder (current_prefix currentPath)) items /\
    Forall (stands_for allFiles) items /\
    NoDup (map path items) /\
    Forall (fun item => isFolder item = true -> ~ listed allFiles (path item)) items /\
    (forall file,
       In file allFiles ->
       String.prefix (current_prefix currentPath) (Key file) = true ->
       exists item,
         In item items /\
         ((path item = Key file /\ isFolder item = false) \/
          String.prefix (path item ++ "/") (Key file) = true)) /\
    StronglySorted folder_before items /\
    (forall contents,
       allFiles = fileObjects contents ->
       Forall (fun item => isFolder item = false ->
                           exists n, size item = Some n /\ 0 < n)
              items).
Proof.
  intros lc currentPath allFiles items. subst items. unfold getCurrentFolderItems.
  set (pre := current_prefix currentPath).
  destruct (fold_add_file_ok pre allFiles allFiles [] (fun f H => H) (NoDup_nil _)
                             (Forall_nil _))
    as (Hnd & Hall & _ & Hcov).
  pose proof (fold_add_file_folders_apart pre allFiles allFiles [] []
                (fun f H => H) (NoDup_nil _) (Forall_nil _)
                (fun f (H : In f []) => match H with end)
                (fun kv (H : In kv []) => match H with end)) as Hapart.
  cbn [app] in Hapart.
  set (m := fold_left (add_file pre) allFiles []) in *.
  pose proof (Array_sort_Permutation (compare_items lc) (Map_values m)) as Hperm.
  assert (Hitems : Forall (fun item => child_of_folder pre item /\ stands_for allFiles item)
                          (Map_values m)).
  { unfold Map_values. apply Forall_map. eapply Forall_impl; [|exact Hall].
    intros kv (_ & H1 & H2). now split. }
  assert (Hpaths : map path (Map_values m) = map fst m).
  { unfold Map_values. rewrite map_map. apply map_ext_in.
    intros kv Hkv. rewrite Forall_forall in Hall. now destruct (Hall kv Hkv). }
  assert (Hfolders : forall kv, In kv m -> isFolder (snd kv) = true ->
                     ~ listed allFiles (path (snd kv))).
  { intros kv Hkv Hf (file & Hin & Hkey).
    apply (Hapart kv Hkv Hf file Hin). rewrite Hkey.
    rewrite Forall_forall in Hall. now destruct (Hall kv Hkv). }
  split; [|split; [|split; [|split; [|split; [|split]]]]].
  - eapply Permutation_Forall; [symmetry; exact Hperm|].
    eapply Forall_impl; [|exact Hitems]. now intros item [H _].
  - eapply Permutation_Forall; [symmetry; exact Hperm|].
    eapply Forall_impl; [|exact Hitems]. now intros item [_ H].
  - eapply Permutation_NoDup; [symmetry; apply Permutation_map; exact Hperm|].
    now rewrite Hpaths.
  - eapply Permutation_Forall; [symmetry; exact Hperm|].
    unfold Map_values. apply Forall_map. apply Forall_forall. exact Hfolders.
  - intros file Hin Hp. destruct (Hcov file Hin Hp) as (k & Hk & Hor).
    apply in_map_iff in Hk as (kv & <- & Hkv).
    assert (Hpath : path (snd kv) = fst kv).
    { rewrite Forall_forall in Hall. now destruct (Hall kv Hkv). }
    exists (snd kv). split.
    + eapply Permutation_in; [symmetry; exact Hperm|].
      unfold Map_values. now apply in_map.
    + rewrite Hpath. destruct Hor as [E|Hunder]; [left | now right].
      split; [exact E|].
      destruct (isFolder (snd kv)) eqn:Hf; [|reflexivity].
      exfalso. apply (Hfolders kv Hkv Hf). exists file. split; [exact Hin|].
      now rewrite Hpath.
  - apply Array_sort_folders_first.
  - intros contents Hfiles.
    eapply Permutation_Forall; [symmetry; exact Hperm|].
    eapply Forall_impl; [|exact Hitems].
    intros item [_ (file & Hin & Hfile)] Hf. rewrite Hf in Hfile.
    destruct Hfile as (_ & Hsize & _). exists (Size file). split; [exact Hsize|].
    rewrite Hfiles in Hin. unfold fileObjects in Hin.
    apply filter_In in Hin as [_ Hpos]. now apply Z.ltb_lt.
Qed.

Lemma folder_items_are_the_children_of_the_current_path_witness :
  exists item,
    In item (getCurrentFolderItems code_unit_compare ""
               [mkS3Object "a/b" 20 "2024-01-02T00:00:00.000Z";
                mkS3Object "a" 10 "2024-01-01T00:00:00.000Z"]) /\
    ((path item = "a" /\ isFolder item = false) \/
     String.prefix (path item ++ "/") "a" = true).
Proof.
  apply (proj1 (proj2 (proj2 (proj2 (proj2
           (folder_items_are_the_children_of_the_current_path code_unit_compare ""
              [mkS3Object "a/b" 20 "2024-01-02T00:00:00.000Z";
               mkS3Object "a" 10 "2024-01-01T00:00:00.000Z"])))))
           (mkS3Object "a" 10 "2024-01-01T00:00:00.000Z")).
  - right. left. reflexivity.
  - reflexivity.
Defined.


(** ** The selection of the repository browser *)

Lemma Set_has_In (key : string) (s : StringSet) : Set_has key s = true <-> In key s.
Proof.
  unfold Set_has. rewrite existsb_exists. split.
  - intros (x & Hx & E). apply String.eqb_eq in E. now subst.
  - intros H. exists key. split; [exact H | apply String.eqb_refl].
Qed.

Lemma Set_has_add (key k : string) (s : StringSet) :
  Set_has k (Set_add key s) = Set_has k s || String.eqb k key.
Proof.
  unfold Set_add. destruct (Set_has key s) eqn:E.
  - destruct (String.eqb_spec k key) as [->|_]; [now rewrite E | now rewrite orb_false_r].
  - unfold Set_has. rewrite existsb_app. cbn [existsb]. now rewrite orb_false_r.
Qed.

Lemma Set_has_delete (key k : string) (s : StringSet) :
  Set_has k (Set_delete key s) = Set_has k s && negb (String.eqb k key).
Proof.
  unfold Set_has, Set_delete. induction s as [|x s IH]; [reflexivity|].
  cbn [filter existsb].
  destruct (String.eqb_spec x key) as [->|Hx]; cbn [negb].
  - rewrite IH. destruct (String.eqb k key); cbn [orb andb negb];
      [now rewrite andb_false_r | reflexivity].
  - cbn [existsb]. rewrite IH.
    destruct (String.eqb_spec k x) as [->|_]; cbn [orb andb]; [|reflexivity].
    apply String.eqb_neq in Hx. now rewrite Hx.
Qed.

Lemma Set_add_NoDup (key : string) (s : StringSet) : NoDup s -> NoDup (Set_add key s).
Proof.
  intros H. unfold Set_add. destruct (Set_has key s) eqn:E; [exact H|].
  apply NoDup_app; [exact H | repeat constructor; intros [] |].
  intros k Hin [<-|[]]. apply Set_has_In in Hin. congruence.
Qed.

Lemma Set_delete_NoDup (key : string) (s : StringSet) : NoDup s -> NoDup (Set_delete key s).
Proof. apply NoDup_filter. Qed.

Lemma Set_add_Forall (P : string -> Prop) (key : string) (s : StringSet) :
  P key -> Forall P s -> Forall P (Set_add key s).
Proof.
  intros Hk Hs. unfold Set_add. destruct (Set_has key s); [exact Hs|].
  apply Forall_app. split; [exact Hs | now repeat constructor].
Qed.

Lemma Set_delete_Forall (P : string -> Prop) (key : string) (s : StringSet) :
  Forall P s -> Forall P (Set_delete key s).
Proof.
  intros Hs. apply Forall_forall. intros k Hk. apply filter_In in Hk as [Hk _].
  rewrite Forall_forall in Hs. now apply Hs.
Qed.

Lemma fold_add_has (paths : list string) (s : StringSet) (k : string) :
  Set_has k (fold_left (fun newSet p => Set_add p newSet) paths s) =
  Set_has k s || existsb (String.eqb k) paths.
Proof.
  revert s. induction paths as [|p paths IH]; intros s; cbn [fold_left existsb].
  - now rewrite orb_false_r.
  - now rewrite IH, Set_has_add, orb_assoc.
Qed.

Lemma fold_delete_has (paths : list string) (s : StringSet) (k : string) :
  Set_has k (fold_left (fun newSet p => Set_delete p newSet) paths s) =
  Set_has k s && negb (existsb (String.eqb k) paths).
Proof.
  revert s. induction paths as [|p paths IH]; intros s; cbn [fold_left existsb].
  - now rewrite andb_true_r.
  - now rewrite IH, Set_has_delete, negb_orb, andb_assoc.
Qed.

Lemma fold_add_ok (P : string -> Prop) (paths : list string) (s : StringSet) :
  Forall P paths -> Forall P s -> NoDup s ->
  Forall P (fold_left (fun newSet p => Set_add p newSet) paths s) /\
  NoDup (fold_left (fun newSet p => Set_add p newSet) paths s).
Proof.
  revert s. induction paths as [|p paths IH]; intros s Hp Hs Hnd; [now split|].
  inversion Hp as [|? ? Hp1 Hp2]; subst. cbn [fold_left].
  apply IH; [exact Hp2 | now apply Set_add_Forall | now apply Set_add_NoDup].
Qed.

Lemma fold_delete_ok (P : string -> Prop) (paths : list string) (s : StringSet) :
  Forall P s -> NoDup s ->
  Forall P (fold_left (fun newSet p => Set_delete p newSet) paths s) /\
  NoDup (fold_left (fun newSet p => Set_delete p newSet) paths s).
Proof.
  revert s. induction paths as [|p paths IH]; intros s Hs Hnd; [now split|].
  cbn [fold_left]. apply IH; [now apply Set_delete_Forall | now apply Set_delete_NoDup].
Qed.

(** A file item shown in a folder has the key of a listed object as its
    path. *)
Lemma file_items_are_listed (localeCompare : string -> string -> Z)
      (currentPath : string) (allFiles : list S3Object) (item : FolderItem) :
  In item (getCurrentFolderItems localeCompare currentPath allFiles) ->
  isFolder item = false -> listed allFiles (path item).
Proof.
  intros Hin Hf. unfold getCurrentFolderItems in Hin.
  destruct (fold_add_file_ok (current_prefix currentPath) allFiles allFiles []
              (fun f H => H) (NoDup_nil _) (Forall_nil _)) as (_ & Hall & _).
  apply (Permutation_in _ (Array_sort_Permutation _ _)) in Hin.
  unfold Map_values in Hin. apply in_map_iff in Hin as (kv & <- & Hkv).
  rewrite Forall_forall in Hall. destruct (Hall kv Hkv) as (_ & _ & file & Hfile & Hkey).
  rewrite Hf in Hkey. exists file. split; [exact Hfile | apply Hkey].
Qed.

(** X23. Whatever the user does in the repository browser (clicking shown
    items, following the breadcrumb, selecting or deselecting all), the
    selection handed to the copy call holds only keys of listed objects,
    each once: a folder is never selected, and going to another folder
    leaves the selection as it is. *)
Theorem selection_holds_listed_files_only :
  forall localeCompare allFiles st,
    reachable localeCompare allFiles st ->
    Forall (listed allFiles) (selectedFiles st) /\ NoDup (selectedFiles st).
Proof.
  intros lc allFiles st H. induction H as [|st st' _ [IH1 IH2] Hstep].
  - split; constructor.
  - destruct Hstep as [st item Hin| st | st index Hi | st].
    + unfold handleItemClick. destruct (isFolder item) eqn:Hf; [now split|].
      pose proof (file_items_are_listed lc _ _ _ Hin Hf) as Hl.
      unfold toggleFileSelection. cbn [selectedFiles].
      destruct (Set_has (path item) (selectedFiles st)).
      * split; [now apply Set_delete_Forall | now apply Set_delete_NoDup].
      * split; [now apply Set_add_Forall | now apply Set_add_NoDup].
    + now split.
    + now split.
    + unfold toggleSelectAll.
      destruct (forallb _ _); cbn [selectedFiles].
      * now apply fold_delete_ok.
      * apply fold_add_ok; try assumption.
        apply Forall_forall. intros p Hp. apply in_map_iff in Hp as (item & <- & Hitem).
        unfold visibleFiles in Hitem. apply filter_In in Hitem as [Hin Hf].
        apply negb_true_iff in Hf. exact (file_items_are_listed lc _ _ _ Hin Hf).
Qed.

Lemma selection_holds_listed_files_only_witness :
  NoDup (selectedFiles
           (toggleSelectAll code_unit_compare
              [mkS3Object "guide.pdf" 10 "2024-01-01T00:00:00.000Z"] initial)).
Proof.
  apply (selection_holds_listed_files_only code_unit_compare
           [mkS3Object "guide.pdf" 10 "2024-01-01T00:00:00.000Z"]).
  apply (reachable_step _ _ initial); [apply reachable_initial | apply step_select_all].
Defined.

(** X24. What the selection handlers of the repository browser do to
    membership: clicking a file flips it and nothing else (so two clicks
    undo each other); "select all" adds the files shown in the current
    folder to the selection when one of them is missing, and takes them out
    when all are there; in both cases the files of other folders stay as
    they were, and the current path is not changed.  The last segment of
    the breadcrumb leads to the current path itself. *)
Theorem selection_handlers_flip_add_and_remove :
  (forall fileKey st k,
     Set_has k (selectedFiles (toggleFileSelection fileKey st)) =
     if String.eqb k fileKey then negb (Set_has k (selectedFiles st))
     else Set_has k (selectedFiles st)) /\
  (forall fileKey st k,
     Set_has k (selectedFiles (toggleFileSelection fileKey (toggleFileSelection fileKey st))) =
     Set_has k (selectedFiles st)) /\
  (forall localeCompare allFiles st k,
     let shown := map path (visibleFiles localeCompare allFiles st) in
     Set_has k (selectedFiles (toggleSelectAll localeCompare allFiles st)) =
     if forallb (fun p => Set_has p (selectedFiles st)) shown
     then Set_has k (selectedFiles st) && negb (existsb (String.eqb k) shown)
     else Set_has k (selectedFiles st) || existsb (String.eqb k) shown) /\
  (forall localeCompare allFiles st fileKey,
     currentPath (toggleSelectAll localeCompare allFiles st) = currentPath st /\
     currentPath (toggleFileSelection fileKey st) = currentPath st) /\
  (forall st,
     currentPath st <> "" ->
     navigateToPath
       (join "/" (firstn (List.length (getPathSegments st) - 1 + 1) (getPathSegments st)))
       st = st).
Proof.
  assert (Hflip : forall fileKey st k,
             Set_has k (selectedFiles (toggleFileSelection fileKey st)) =
             if String.eqb k fileKey then negb (Set_has k (selectedFiles st))
             else Set_has k (selectedFiles st)).
  { intros fileKey st k. unfold toggleFileSelection. cbn [selectedFiles].
    destruct (Set_has fileKey (selectedFiles st)) eqn:E.
    - rewrite Set_has_delete. destruct (String.eqb_spec k fileKey) as [->|_]; cbn.
      + now rewrite E.
      + apply andb_true_r.
    - rewrite Set_has_add. destruct (String.eqb_spec k fileKey) as [->|_]; cbn.
      + now rewrite E.
      + apply orb_false_r. }
  split; [exact Hflip|]. split; [|split; [|split]].
  - intros fileKey st k. rewrite !Hflip.
    destruct (String.eqb k fileKey); [apply negb_involutive | reflexivity].
  - intros lc allFiles st k shown. unfold toggleSelectAll. fold shown.
    destruct (forallb (fun p => Set_has p (selectedFiles st)) shown); cbn [selectedFiles].
    + apply fold_delete_has.
    + apply fold_add_has.
  - intros lc allFiles st fileKey. unfold toggleSelectAll, toggleFileSelection.
    split; [|reflexivity]. now destruct (forallb _ _).
  - intros [p sel] Hne. cbn [currentPath] in Hne.
    unfold navigateToPath, getPathSegments. cbn [currentPath selectedFiles].
    rewrite (proj2 (nonempty_true p) Hne).
    pose proof (split_on_nonempty "/" p) as Hsegs.
    replace (List.length (split_on "/" p) - 1 + 1)%nat with (List.length (split_on "/" p))
      by (destruct (split_on "/" p); [contradiction | cbn; lia]).
    now rewrite firstn_all, join_split_on.
Qed.

Lemma selection_handlers_flip_add_and_remove_witness :
  navigateToPath
    (join "/" (firstn (List.length (getPathSegments (mkState "manuals/2024" [])) - 1 + 1)
                      (getPathSegments (mkState "manuals/2024" []))))
    (mkState "manuals/2024" []) =
  mkState "manuals/2024" [].
Proof.
  apply (proj2 (proj2 (proj2 (proj2 selection_handlers_flip_add_and_remove)))
               (mkState "manuals/2024" [])).
  discriminate.
Defined.

(** ** The models list-foundation-models returns *)

Lemma Map_get_set_same {V} (key : string) (value : V) (m : Map V) :
  Map_get key (Map_set key value m) = Some value.
Proof.
  induction m as [|[k v] m IH]; cbn [Map_set Map_get].
  - now rewrite String.eqb_refl.
  - destruct (String.eqb k key) eqn:E; cbn [Map_get]; rewrite E; [reflexivity | exact IH].
Qed.

Lemma Map_get_set_other {V} (key k' : string) (value : V) (m : Map V) :
  k' <> key -> Map_get k' (Map_set key value m) = Map_get k' m.
Proof.
  intros Hne. induction m as [|[k v] m IH]; cbn [Map_set Map_get].
  - destruct (String.eqb_spec key k'); [congruence | reflexivity].
  - destruct (String.eqb_spec k key) as [->|Hk]; cbn [Map_get].
    + destruct (String.eqb_spec key k'); [congruence | reflexivity].
    + now rewrite IH.
Qed.

Lemma add_profile_get (profile : ListFoundationModelsHandler.Profile.InferenceProfile)
      (m : Map ListFoundationModelsHandler.ProfileEntry) (modelArn : string) :
  Map_get modelArn (ListFoundationModelsHandler.add_profile m profile) =
  if existsb (String.eqb modelArn) (ListFoundationModelsHandler.Profile.models profile)
  then Some (ListFoundationModelsHandler.mkProfileEntry
               (ListFoundationModelsHandler.Profile.inferenceProfileId profile)
               (ListFoundationModelsHandler.Profile.inferenceProfileName profile)
               (ListFoundationModelsHandler.Profile.inferenceProfileArn profile))
  else Map_get modelArn m.
Proof.
  unfold ListFoundationModelsHandler.add_profile.
  generalize (ListFoundationModelsHandler.mkProfileEntry
                (ListFoundationModelsHandler.Profile.inferenceProfileId profile)
                (ListFoundationModelsHandler.Profile.inferenceProfileName profile)
                (ListFoundationModelsHandler.Profile.inferenceProfileArn profile)) as entry.
  intros entry. revert m.
  induction (ListFoundationModelsHandler.Profile.models profile) as [|x l IH]; intros m;
    cbn [fold_left existsb]; [reflexivity|].
  rewrite IH. destruct (existsb (String.eqb modelArn) l); [now rewrite orb_true_r|].
  rewrite orb_false_r. destruct (String.eqb_spec modelArn x) as [->|Hne].
  - apply Map_get_set_same.
  - now apply Map_get_set_other.
Qed.

Lemma fold_add_profile_get (profiles : list ListFoundationModelsHandler.Profile.InferenceProfile)
      (m : Map ListFoundationModelsHandler.ProfileEntry) (modelArn : string) :
  Map_get modelArn (fold_left ListFoundationModelsHandler.add_profile profiles m) =
  match last_profile_for modelArn profiles with
  | Some profile =>
      Some (ListFoundationModelsHandler.mkProfileEntry
              (ListFoundationModelsHandler.Profile.inferenceProfileId profile)
              (ListFoundationModelsHandler.Profile.inferenceProfileName profile)
              (ListFoundationModelsHandler.Profile.inferenceProfileArn profile))
  | None => Map_get modelArn m
  end.
Proof.
  revert m. induction profiles as [|p rest IH]; intros m; [reflexivity|].
  cbn [fold_left last_profile_for]. rewrite IH.
  destruct (last_profile_for modelArn rest); [reflexivity|].
  rewrite add_profile_get.
  now destruct (existsb (String.eqb modelArn) (ListFoundationModelsHandler.Profile.models p)).
Qed.

Lemma last_profile_for_none (modelArn : string)
      (profiles : list ListFoundationModelsHandler.Profile.InferenceProfile) :
  last_profile_for modelArn profiles = None <->
  Forall (fun later => ~ In modelArn (ListFoundationModelsHandler.Profile.models later))
         profiles.
Proof.
  induction profiles as [|p rest IH]; cbn [last_profile_for].
  - split; [constructor | reflexivity].
  - destruct (last_profile_for modelArn rest) as [q|].
    + split; [discriminate|]. intros H. inversion H as [|? ? _ Hrest]; subst.
      apply IH in Hrest. discriminate Hrest.
    + destruct (existsb (String.eqb modelArn)
                        (ListFoundationModelsHandler.Profile.models p)) eqn:E.
      * split; [discriminate|]. intros H. inversion H as [|? ? Hp _]; subst.
        exfalso. apply Hp. apply existsb_exists in E as (x & Hx & E).
        apply String.eqb_eq in E. now subst.
      * split; [|reflexivity]. intros _. constructor; [|now apply IH].
        intros Hin. assert (existsb (String.eqb modelArn)
                                    (ListFoundationModelsHandler.Profile.models p) = true).
        { apply existsb_exists. exists modelArn. split; [exact Hin | apply String.eqb_refl]. }
        congruence.
Qed.

Lemma last_profile_for_app (modelArn : string)
      (l1 l2 : list ListFoundationModelsHandler.Profile.InferenceProfile) :
  last_profile_for modelArn (l1 ++ l2) =
  match last_profile_for modelArn l2 with
  | Some later => Some later
  | None => last_profile_for modelArn l1
  end.
Proof.
  induction l1 as [|p l1 IH]; cbn [app last_profile_for].
  - now destruct (last_profile_for modelArn l2).
  - rewrite IH. now destruct (last_profile_for modelArn l2).
Qed.

Lemma last_profile_for_spec (modelArn : string)
      (profiles : list ListFoundationModelsHandler.Profile.InferenceProfile)
      (profile : ListFoundationModelsHandler.Profile.InferenceProfile) :
  last_profile_for modelArn profiles = Some profile <->
  exists before after,
    profiles = (before ++ profile :: after)%list /\
    In modelArn (ListFoundationModelsHandler.Profile.models profile) /\
    Forall (fun later => ~ In modelArn (ListFoundationModelsHandler.Profile.models later))
           after.
Proof.
  split.
  - induction profiles as [|p rest IH]; [discriminate|].
    cbn [last_profile_for].
    destruct (last_profile_for modelArn rest) as [q|] eqn:Hrest.
    + intros H. injection H as ->.
      destruct (IH eq_refl) as (before & after & -> & Hin & Hafter).
      exists (p :: before), after. now repeat split.
    + destruct (existsb (String.eqb modelArn)
                        (ListFoundationModelsHandler.Profile.models p)) eqn:E;
        [|discriminate].
      intros H. injection H as <-. exists [], rest. split; [reflexivity|]. split.
      * apply existsb_exists in E as (x & Hx & E). apply String.eqb_eq in E. now subst.
      * now apply last_profile_for_none.
  - intros (before & after & -> & Hin & Hafter).
    rewrite last_profile_for_app. cbn [last_profile_for].
    rewrite (proj2 (last_profile_for_none modelArn after) Hafter).
    assert (E : existsb (String.eqb modelArn)
                        (ListFoundationModelsHandler.Profile.models profile) = true).
    { apply existsb_exists. exists modelArn. split; [exact Hin | apply String.eqb_refl]. }
    now rewrite E.
Qed.

(** X25. list-foundation-models returns a model exactly when it is a model
    of the first listing that supports streaming and is named by a profile
    of the second listing whose id and name are not empty; it is returned
    with the id, name and ARN of the last profile that names it (profiles
    named later replace earlier ones), whatever profile fields it had, and
    otherwise as it was; the models keep their order.  When the listing of
    the profiles fails, no model is returned.  The last profile that names
    a model is the one after which no profile of the listing names it. *)
Theorem returned_models_stream_and_have_a_profile :
  (forall profilesOk profiles models model,
     In model (ListFoundationModelsHandler.streamingModels profilesOk profiles models) <->
     exists source profile,
       In source models /\
       ListFoundationModelsHandler.responseStreamingSupported source = true /\
       profilesOk = true /\
       last_profile_for (ListFoundationModelsHandler.modelArn source) profiles =
         Some profile /\
       ListFoundationModelsHandler.Profile.inferenceProfileId profile <> "" /\
       ListFoundationModelsHandler.Profile.inferenceProfileName profile <> "" /\
       model =
         ListFoundationModelsHandler.mkFoundationModel
           (ListFoundationModelsHandler.modelArn source)
           (ListFoundationModelsHandler.modelId source)
           (ListFoundationModelsHandler.modelName source)
           (ListFoundationModelsHandler.providerName source)
           (ListFoundationModelsHandler.inputModalities source)
           (ListFoundationModelsHandler.outputModalities source)
           true
           (Some (ListFoundationModelsHandler.Profile.inferenceProfileId profile))
           (Some (ListFoundationModelsHandler.Profile.inferenceProfileName profile))
           (Some (ListFoundationModelsHandler.Profile.inferenceProfileArn profile))) /\
  (forall profilesOk profiles models,
     exists keep,
       map ListFoundationModelsHandler.modelArn
           (ListFoundationModelsHandler.streamingModels profilesOk profiles models) =
       map ListFoundationModelsHandler.modelArn (filter keep models)) /\
  (forall profiles models,
     ListFoundationModelsHandler.streamingModels false profiles models = []) /\
  (forall modelArn profiles profile,
     last_profile_for modelArn profiles = Some profile <->
     exists before after,
       profiles = (before ++ profile :: after)%list /\
       In modelArn (ListFoundationModelsHandler.Profile.models profile) /\
       Forall (fun later =>
                 ~ In modelArn (ListFoundationModelsHandler.Profile.models later))
              after).
Proof.
  assert (Hget : forall profilesOk profiles arn,
             Map_get arn (ListFoundationModelsHandler.profileMap profilesOk profiles) =
             if profilesOk
             then option_map
                    (fun profile =>
                       ListFoundationModelsHandler.mkProfileEntry
                         (ListFoundationModelsHandler.Profile.inferenceProfileId profile)
                         (ListFoundationModelsHandler.Profile.inferenceProfileName profile)
                         (ListFoundationModelsHandler.Profile.inferenceProfileArn profile))
                    (last_profile_for arn profiles)
             else None).
  { intros ok profiles arn. unfold ListFoundationModelsHandler.profileMap.
    destruct ok; [|reflexivity]. rewrite fold_add_profile_get.
    now destruct (last_profile_for arn profiles). }
  split; [|split; [|split]].
  - intros ok profiles models model.
    unfold ListFoundationModelsHandler.streamingModels.
    rewrite filter_In, in_map_iff. split.
    + intros [(source & <- & Hsrc) Hkeep].
      unfold ListFoundationModelsHandler.with_profile in *.
      cbn [ListFoundationModelsHandler.responseStreamingSupported
           ListFoundationModelsHandler.inferenceProfileId
           ListFoundationModelsHandler.inferenceProfileName] in Hkeep.
      rewrite Hget in *.
      destruct ok; [|cbn in Hkeep; now rewrite andb_false_r in Hkeep].
      destruct (last_profile_for (ListFoundationModelsHandler.modelArn source) profiles)
        as [profile|] eqn:Hp;
        [|cbn in Hkeep; now rewrite andb_false_r in Hkeep].
      cbn [option_map ListFoundationModelsHandler.id ListFoundationModelsHandler.name
           ListFoundationModelsHandler.arn BedrockLlmSigner.truthy] in *.
      apply andb_true_iff in Hkeep as [Hkeep Hname].
      apply andb_true_iff in Hkeep as [Hstream Hid].
      apply negb_true_iff, String.eqb_neq in Hid, Hname.
      exists source, profile. rewrite Hstream. repeat split; assumption.
    + intros (source & profile & Hsrc & Hstream & -> & Hp & Hid & Hname & ->).
      apply String.eqb_neq in Hid, Hname.
      split.
      * exists source. split; [|exact Hsrc].
        unfold ListFoundationModelsHandler.with_profile. rewrite Hget, Hp, Hstream.
        reflexivity.
      * cbn [ListFoundationModelsHandler.responseStreamingSupported
             ListFoundationModelsHandler.inferenceProfileId
             ListFoundationModelsHandler.inferenceProfileName BedrockLlmSigner.truthy].
        now rewrite Hid, Hname.
  - intros ok profiles models.
    unfold ListFoundationModelsHandler.streamingModels.
    set (m := ListFoundationModelsHandler.profileMap ok profiles).
    set (keep := fun model : ListFoundationModelsHandler.FoundationModel =>
                   ListFoundationModelsHandler.responseStreamingSupported model &&
                   BedrockLlmSigner.truthy (ListFoundationModelsHandler.inferenceProfileId model) &&
                   BedrockLlmSigner.truthy
                     (ListFoundationModelsHandler.inferenceProfileName model)).
    exists (fun source => keep (ListFoundationModelsHandler.with_profile m source)).
    induction models as [|x l IH]; [reflexivity|].
    cbn [map filter]. destruct (keep (ListFoundationModelsHandler.with_profile m x));
      cbn [map]; now rewrite IH.
  - intros profiles models. unfold ListFoundationModelsHandler.streamingModels.
    cbn [ListFoundationModelsHandler.profileMap].
    induction models as [|x l IH]; [reflexivity|].
    cbn [map filter ListFoundationModelsHandler.with_profile Map_get option_map
         ListFoundationModelsHandler.inferenceProfileId BedrockLlmSigner.truthy].
    now rewrite andb_false_r.
  - apply last_profile_for_spec.
Qed.

Lemma returned_models_stream_and_have_a_profile_witness :
  In (ListFoundationModelsHandler.mkFoundationModel
        "arn:aws:bedrock:us-east-1::foundation-model/amazon.nova-lite-v1:0"
        "amazon.nova-lite-v1:0" "Nova Lite" "Amazon" ["TEXT"] ["TEXT"] true
        (Some "us.amazon.nova-lite-v1:0") (Some "US Nova Lite")
        (Some "arn:aws:bedrock:us-east-1:123456789012:inference-profile/us.amazon.nova-lite-v1:0"))
     (ListFoundationModelsHandler.streamingModels true
        [ListFoundationModelsHandler.Profile.mkInferenceProfile
           "arn:aws:bedrock:us-east-1:123456789012:inference-profile/us.amazon.nova-lite-v1:0"
           "us.amazon.nova-lite-v1:0" "US Nova Lite"
           ["arn:aws:bedrock:us-east-1::foundation-model/amazon.nova-lite-v1:0"]
           "ACTIVE" "SYSTEM_DEFINED"]
        [ListFoundationModelsHandler.mkFoundationModel
           "arn:aws:bedrock:us-east-1::foundation-model/amazon.nova-lite-v1:0"
           "amazon.nova-lite-v1:0" "Nova Lite" "Amazon" ["TEXT"] ["TEXT"] true
           None None None]).
Proof.
  apply (proj2 (proj1 returned_models_stream_and_have_a_profile _ _ _ _)).
  eexists. eexists. split; [left; reflexivity|].
  split; [reflexivity|]. split; [reflexivity|]. split; [reflexivity|].
  split; [discriminate|]. split; [discriminate | reflexivity].
Defined.
